(** * The royal treasury: ledger, claims, wagering and tournaments

    A shallow embedding of the economy core of [src/main.py] and the
    properties of its balance engine, claim scheduler, wagering engine and
    tournament (giveaway) lifecycle, followed by the commands built on them,
    the shop, the listings, the host roles of tournaments and what holds
    over whole histories of calls.

    Modelling conventions.
    - The PostgreSQL tables are fields of a [Store] record; a table with a
      primary key is a [gmap], a log table is a list in insertion order.
    - Every [async def] that talks to the database is a computation in the
      state monad [M] over [Store]; an UPDATE of a missing row changes
      nothing, as in SQL.
    - The store is total: statements do not fail, integers are unbounded
      (no BIGINT overflow), so the [except] branches of the source are not
      reached and are not modelled; the one statement that fails by its
      argument, a negative LIMIT, is modelled in [get_leaderboard].
    - Where SQL leaves an order or a choice open (rows that tie in an ORDER
      BY, the row [fetchrow] takes among several), the model takes one, and
      the properties are worded so as not to depend on which.
    - [utcnow()] is an explicit argument [now], an instant in microseconds
      since the epoch (the resolution of Python's [datetime]); one operation
      reads one instant.
    - Random draws ([random.randint], [random.random], [random.sample]) are
      explicit arguments; Python floats are idealised as rationals.
    - The Discord client ([bot]) is a read-only oracle for guilds, members
      and permissions. *)

From Stdlib Require Import ZArith QArith Qround Lqa Lia List Ascii String.
From stdpp Require Import gmap list strings sorting.

Local Open Scope Z_scope.

(** ** Economy configuration *)

Definition MAX_GOLD_NORMAL : Z := 50000000000.
Definition MAX_GOLD_ADMIN : Z := 100000000000.
Definition ADMIN_MONTHLY_BONUS : Z := 30000000000.
Definition LABOUR_COOLDOWN_HOURS : Z := 1.
Definition WEEKLY_GAMBLING_TRIES : Z := 30.

(** ** Time: instants and durations in microseconds

    A [timedelta] is a number of microseconds, and
    [delta.total_seconds() >= n] holds exactly when it is at least
    [seconds n]. *)

Definition usec_per_second : Z := 1000000.
Definition seconds (n : Z) : Z := n * usec_per_second.
Definition usec_per_day : Z := seconds 86400.

Arguments seconds : simpl never.

(** ** The Discord client *)

Record Member := {
  administrator : bool;   (* member.guild_permissions.administrator *)
  roles : list Z          (* ids of member.roles *)
}.

Record Guild := {
  get_member : Z -> option Member;
  get_role : Z -> bool    (* guild.get_role(role_id) is not None *)
}.

Record Bot := {
  get_guild : Z -> option Guild
}.

(** ** Tables *)

Inductive Description :=
  | DescNone
  | DescDaily                                   (* "Royal daily stipend" *)
  | DescLabour                                  (* "Honest labour in the royal demesne" *)
  | DescGamed (amount : Z) (game_type : string) (won : bool)
  | DescPaid (amount receiver : Z)
  | DescReceived (amount sender : Z)
  | DescPurchased (item_id : Z)
  | DescWonTournament (giveaway_id : Z)
  | DescFundedTournament
  | DescAdminBounty.                            (* 'Royal administrator monthly bounty' *)

Inductive TxType := balance_change | admin_monthly.

(** A row of [user_economy]; the key (user_id, guild_id) is the map key. *)
Record Account := {
  gold : Z;
  daily_claimed : option Z;
  work_cooldown : option Z;
  gamble_wins : Z;
  gamble_losses : Z;
  total_gold_earned : Z;
  total_gold_spent : Z;
  is_admin : bool;
  admin_monthly_claimed : option Z
}.

Record Transaction := {
  tx_user : Z;
  tx_guild : Z;
  tx_type : TxType;
  tx_amount : Z;
  tx_description : Description;
  tx_timestamp : Z;
  tx_balance_after : Z
}.

Record GamblingRecord := {
  gr_user : Z;
  gr_guild : Z;
  gr_game : string;
  gr_bet_amount : Z;
  gr_win_amount : Z;
  gr_outcome : bool;        (* "win" = true, "loss" = false *)
  gr_timestamp : Z
}.

Record ShopItem := {
  item_guild : Z;
  price : Z;
  role_id : option Z;
  stock : Z
}.

Record InventoryEntry := {
  inv_user : Z;
  inv_guild : Z;
  inv_item : Z;
  inv_purchased_at : Z
}.

Inductive Status := active | ended.

Record Giveaway := {
  gw_guild : Z;
  gw_channel : Z;
  gw_message : Z;
  gw_host : Z;
  gw_prize_amount : Z;
  gw_end_time : Z;
  gw_winner_count : Z;
  gw_status : Status
}.

Record AdminClaim := {
  ac_user : Z;
  ac_guild : Z;
  ac_claimed_at : Z;
  ac_amount : Z
}.

Record Store := {
  user_economy : gmap (Z * Z) Account;
  transactions : list Transaction;
  gambling_records : list GamblingRecord;
  shop_items : gmap Z ShopItem;
  user_inventory : list InventoryEntry;
  active_giveaways : gmap Z Giveaway;
  giveaway_entries : list (Z * Z);         (* (giveaway_id, user_id) *)
  admin_monthly_claims : list AdminClaim
}.

Definition empty_store : Store :=
  {| user_economy := ∅; transactions := []; gambling_records := [];
     shop_items := ∅; user_inventory := []; active_giveaways := ∅;
     giveaway_entries := []; admin_monthly_claims := [] |}.

(** Field updates. *)

Definition set_user_economy (f : gmap (Z * Z) Account -> gmap (Z * Z) Account)
    (s : Store) : Store :=
  {| user_economy := f (user_economy s); transactions := transactions s;
     gambling_records := gambling_records s; shop_items := shop_items s;
     user_inventory := user_inventory s; active_giveaways := active_giveaways s;
     giveaway_entries := giveaway_entries s;
     admin_monthly_claims := admin_monthly_claims s |}.

Definition add_transaction (t : Transaction) (s : Store) : Store :=
  {| user_economy := user_economy s; transactions := transactions s ++ [t];
     gambling_records := gambling_records s; shop_items := shop_items s;
     user_inventory := user_inventory s; active_giveaways := active_giveaways s;
     giveaway_entries := giveaway_entries s;
     admin_monthly_claims := admin_monthly_claims s |}.

Definition add_gambling_record (r : GamblingRecord) (s : Store) : Store :=
  {| user_economy := user_economy s; transactions := transactions s;
     gambling_records := gambling_records s ++ [r]; shop_items := shop_items s;
     user_inventory := user_inventory s; active_giveaways := active_giveaways s;
     giveaway_entries := giveaway_entries s;
     admin_monthly_claims := admin_monthly_claims s |}.

Definition set_shop_items (f : gmap Z ShopItem -> gmap Z ShopItem)
    (s : Store) : Store :=
  {| user_economy := user_economy s; transactions := transactions s;
     gambling_records := gambling_records s; shop_items := f (shop_items s);
     user_inventory := user_inventory s; active_giveaways := active_giveaways s;
     giveaway_entries := giveaway_entries s;
     admin_monthly_claims := admin_monthly_claims s |}.

Definition add_inventory (e : InventoryEntry) (s : Store) : Store :=
  {| user_economy := user_economy s; transactions := transactions s;
     gambling_records := gambling_records s; shop_items := shop_items s;
     user_inventory := user_inventory s ++ [e];
     active_giveaways := active_giveaways s;
     giveaway_entries := giveaway_entries s;
     admin_monthly_claims := admin_monthly_claims s |}.

Definition set_active_giveaways (f : gmap Z Giveaway -> gmap Z Giveaway)
    (s : Store) : Store :=
  {| user_economy := user_economy s; transactions := transactions s;
     gambling_records := gambling_records s; shop_items := shop_items s;
     user_inventory := user_inventory s;
     active_giveaways := f (active_giveaways s);
     giveaway_entries := giveaway_entries s;
     admin_monthly_claims := admin_monthly_claims s |}.

Definition add_giveaway_entry (e : Z * Z) (s : Store) : Store :=
  {| user_economy := user_economy s; transactions := transactions s;
     gambling_records := gambling_records s; shop_items := shop_items s;
     user_inventory := user_inventory s; active_giveaways := active_giveaways s;
     giveaway_entries := giveaway_entries s ++ [e];
     admin_monthly_claims := admin_monthly_claims s |}.

Definition add_admin_claim (c : AdminClaim) (s : Store) : Store :=
  {| user_economy := user_economy s; transactions := transactions s;
     gambling_records := gambling_records s; shop_items := shop_items s;
     user_inventory := user_inventory s; active_giveaways := active_giveaways s;
     giveaway_entries := giveaway_entries s;
     admin_monthly_claims := admin_monthly_claims s ++ [c] |}.

(** Column updates of one [user_economy] row. *)

Definition with_gold (g e sp : Z) (a : Account) : Account :=
  {| gold := g; daily_claimed := daily_claimed a; work_cooldown := work_cooldown a;
     gamble_wins := gamble_wins a; gamble_losses := gamble_losses a;
     total_gold_earned := e; total_gold_spent := sp; is_admin := is_admin a;
     admin_monthly_claimed := admin_monthly_claimed a |}.

Definition with_is_admin (b : bool) (a : Account) : Account :=
  {| gold := gold a; daily_claimed := daily_claimed a;
     work_cooldown := work_cooldown a;
     gamble_wins := gamble_wins a; gamble_losses := gamble_losses a;
     total_gold_earned := total_gold_earned a;
     total_gold_spent := total_gold_spent a; is_admin := b;
     admin_monthly_claimed := admin_monthly_claimed a |}.

Definition with_work_cooldown (t : Z) (a : Account) : Account :=
  {| gold := gold a; daily_claimed := daily_claimed a;
     work_cooldown := Some t;
     gamble_wins := gamble_wins a; gamble_losses := gamble_losses a;
     total_gold_earned := total_gold_earned a;
     total_gold_spent := total_gold_spent a; is_admin := is_admin a;
     admin_monthly_claimed := admin_monthly_claimed a |}.

Definition with_admin_bonus (bonus t : Z) (a : Account) : Account :=
  {| gold := gold a + bonus; daily_claimed := daily_claimed a;
     work_cooldown := work_cooldown a;
     gamble_wins := gamble_wins a; gamble_losses := gamble_losses a;
     total_gold_earned := total_gold_earned a;
     total_gold_spent := total_gold_spent a; is_admin := is_admin a;
     admin_monthly_claimed := Some t |}.

Definition with_win (a : Account) : Account :=
  {| gold := gold a; daily_claimed := daily_claimed a;
     work_cooldown := work_cooldown a;
     gamble_wins := gamble_wins a + 1; gamble_losses := gamble_losses a;
     total_gold_earned := total_gold_earned a;
     total_gold_spent := total_gold_spent a; is_admin := is_admin a;
     admin_monthly_claimed := admin_monthly_claimed a |}.

Definition with_loss (a : Account) : Account :=
  {| gold := gold a; daily_claimed := daily_claimed a;
     work_cooldown := work_cooldown a;
     gamble_wins := gamble_wins a; gamble_losses := gamble_losses a + 1;
     total_gold_earned := total_gold_earned a;
     total_gold_spent := total_gold_spent a; is_admin := is_admin a;
     admin_monthly_claimed := admin_monthly_claimed a |}.

(** The row inserted by [get_user_balance] for an unknown user:
    gold 100, total_gold_earned 100, the schema defaults elsewhere. *)
Definition new_account : Account :=
  {| gold := 100; daily_claimed := None; work_cooldown := None;
     gamble_wins := 0; gamble_losses := 0; total_gold_earned := 100;
     total_gold_spent := 0; is_admin := false;
     admin_monthly_claimed := None |}.

(** ** The database monad *)

Definition M (A : Type) : Type := Store -> A * Store.

Definition ret {A} (x : A) : M A := fun s => (x, s).

Definition bind {A B} (m : M A) (k : A -> M B) : M B :=
  fun s => let (a, s') := m s in k a s'.

Definition query {A} (q : Store -> A) : M A := fun s => (q s, s).

Definition execute (f : Store -> Store) : M unit := fun s => (tt, f s).

Declare Scope db_scope.
Delimit Scope db_scope with db.
Notation "'let*' x ':=' m 'in' k" := (bind m (fun x => k))
  (at level 10, x pattern, m at level 100, k at level 200) : db_scope.
Notation "m ';;' k" := (bind m (fun _ => k))
  (at level 100, k at level 200, right associativity) : db_scope.

Definition result {A} (m : M A) (s : Store) : A := fst (m s).
Definition after {A} (m : M A) (s : Store) : Store := snd (m s).

Section Economy.

Variable bot : Bot.

Open Scope db_scope.

(** ** Balance engine *)

(** [member.guild_permissions.administrator] for a member of a known guild. *)
Definition discord_administrator (user_id guild_id : Z) : bool :=
  match get_guild bot guild_id with
  | Some guild =>
      match get_member guild user_id with
      | Some member => administrator member
      | None => false
      end
  | None => false
  end.

Definition is_user_admin (user_id guild_id : Z) : M bool :=
  let* row := query (fun s => user_economy s !! (user_id, guild_id)) in
  if match row with Some r => is_admin r | None => false end then ret true
  else if discord_administrator user_id guild_id then
    execute (set_user_economy (alter (with_is_admin true) (user_id, guild_id)));;
    ret true
  else ret false.

Definition get_user_balance (user_id guild_id : Z)
    : M (Z * Z * Z * Z * Z * bool) :=
  let* row := query (fun s => user_economy s !! (user_id, guild_id)) in
  match row with
  | Some r =>
      ret (gold r, gamble_wins r, gamble_losses r, total_gold_earned r,
           total_gold_spent r, is_admin r)
  | None =>
      execute (set_user_economy (insert (user_id, guild_id) new_account));;
      ret (100, 0, 0, 100, 0, false)
  end.

Definition get_gold_cap (user_id guild_id : Z) : M Z :=
  let* admin := is_user_admin user_id guild_id in
  if admin then ret MAX_GOLD_ADMIN else ret MAX_GOLD_NORMAL.

Definition update_user_balance (now user_id guild_id gold_change : Z)
    (description : Description) : M (Z * bool) :=
  let* (current_gold, wins, losses, total_earned, total_spent, _) :=
    get_user_balance user_id guild_id in
  let* gold_cap := get_gold_cap user_id guild_id in
  let new_gold := Z.max 0 (current_gold + gold_change) in
  let new_gold := Z.min new_gold gold_cap in
  let '(new_total_earned, new_total_spent) :=
    if 0 <? gold_change
    then (total_earned + gold_change, total_spent)
    else (total_earned, total_spent + Z.abs gold_change) in
  execute (set_user_economy
    (alter (with_gold new_gold new_total_earned new_total_spent)
           (user_id, guild_id)));;
  execute (add_transaction
    {| tx_user := user_id; tx_guild := guild_id; tx_type := balance_change;
       tx_amount := gold_change; tx_description := description;
       tx_timestamp := now; tx_balance_after := new_gold |});;
  let actual_gold_change := new_gold - current_gold in
  if actual_gold_change <? gold_change then ret (new_gold, true)
  else ret (new_gold, false).

(** ** Claim scheduler *)

Definition can_claim_admin_monthly (now user_id guild_id : Z) : M bool :=
  let* row := query (fun s => user_economy s !! (user_id, guild_id)) in
  match row with
  | None => ret true
  | Some r =>
      match admin_monthly_claimed r with
      | None => ret true
      | Some last_claimed =>
          let time_since := now - last_claimed in
          ret (seconds 2592000 <=? time_since)
      end
  end.

Inductive BountyMsg :=
  | BountyNotAdmin          (* "Only royal administrators may claim this bounty!" *)
  | BountyAlreadyClaimed    (* "Thou hast already received thy monthly administrator's bounty!" *)
  | BountyGuildNotFound     (* "Guild not found!" *)
  | BountyNoPermission      (* "Thou must have Administrator permissions to claim this bounty!" *)
  | BountyGranted.          (* "" *)

Definition claim_admin_monthly_bonus (now user_id guild_id : Z)
    : M (bool * Z * BountyMsg) :=
  let* admin := is_user_admin user_id guild_id in
  if negb admin then ret (false, 0, BountyNotAdmin) else
  let* can_claim := can_claim_admin_monthly now user_id guild_id in
  if negb can_claim then ret (false, 0, BountyAlreadyClaimed) else
  match get_guild bot guild_id with
  | None => ret (false, 0, BountyGuildNotFound)
  | Some guild =>
      match get_member guild user_id with
      | Some member =>
          if negb (administrator member)
          then ret (false, 0, BountyNoPermission)
          else
            let* current_gold :=
              query (fun s => match user_economy s !! (user_id, guild_id) with
                              | Some r => gold r
                              | None => 0
                              end) in
            execute (set_user_economy
              (alter (with_admin_bonus ADMIN_MONTHLY_BONUS now)
                     (user_id, guild_id)));;
            execute (add_transaction
              {| tx_user := user_id; tx_guild := guild_id;
                 tx_type := admin_monthly; tx_amount := ADMIN_MONTHLY_BONUS;
                 tx_description := DescAdminBounty; tx_timestamp := now;
                 tx_balance_after := current_gold + ADMIN_MONTHLY_BONUS |});;
            execute (add_admin_claim
              {| ac_user := user_id; ac_guild := guild_id;
                 ac_claimed_at := now; ac_amount := ADMIN_MONTHLY_BONUS |});;
            ret (true, ADMIN_MONTHLY_BONUS, BountyGranted)
      | None => ret (false, 0, BountyNoPermission)
      end
  end.

Definition can_claim_daily (now user_id guild_id : Z) : M bool :=
  let* row := query (fun s => user_economy s !! (user_id, guild_id)) in
  match row with
  | None => ret true
  | Some r =>
      match daily_claimed r with
      | None => ret true
      | Some last_claimed =>
          let time_since := now - last_claimed in
          ret (seconds 86400 <=? time_since)
      end
  end.

(** [daily_amount] is the value of [random.randint(3, 7)]. *)
Definition claim_daily (now daily_amount user_id guild_id : Z) : M (bool * Z) :=
  let* can_claim := can_claim_daily now user_id guild_id in
  if negb can_claim then ret (false, 0) else
  let* (new_gold, capped) :=
    update_user_balance now user_id guild_id daily_amount DescDaily in
  if capped then ret (true, daily_amount)
  else ret (true, daily_amount).

(** Returns (ready, remaining time); the third component of the source's
    result is the rendering of the remaining time. *)
Definition get_labour_cooldown_status (now user_id guild_id : Z)
    : M (bool * Z) :=
  let current_time := now in
  let* row := query (fun s => user_economy s !! (user_id, guild_id)) in
  match row with
  | None => ret (true, 0)
  | Some r =>
      match work_cooldown r with
      | None => ret (true, 0)
      | Some last_work =>
          let time_since := current_time - last_work in
          let cooldown_seconds := seconds (LABOUR_COOLDOWN_HOURS * 3600) in
          if cooldown_seconds <=? time_since then ret (true, 0)
          else
            let remaining := cooldown_seconds - time_since in
            ret (false, remaining)
      end
  end.

(** [work_amount] is the value of [random.randint(8, 15)]. *)
Definition work (now work_amount user_id guild_id : Z) : M (bool * Z * Z) :=
  let* (can_work, remaining_time) :=
    get_labour_cooldown_status now user_id guild_id in
  if negb can_work then ret (false, 0, remaining_time) else
  let* (new_gold, capped) :=
    update_user_balance now user_id guild_id work_amount DescLabour in
  execute (set_user_economy
    (alter (with_work_cooldown now) (user_id, guild_id)));;
  if capped then ret (true, work_amount, 0)
  else ret (true, work_amount, 0).

(** ** Wagering engine *)

(** Calendar fields of an instant ([datetime.weekday()], [.hour], ...):
    1 January 1970 was a Thursday (weekday 3); Monday is 0. *)
Definition weekday (now : Z) : Z := (now / usec_per_day + 3) mod 7.
Definition hour (now : Z) : Z := (now mod usec_per_day) / seconds 3600.
Definition minute (now : Z) : Z := ((now mod usec_per_day) / seconds 60) mod 60.
Definition second (now : Z) : Z := ((now mod usec_per_day) / seconds 1) mod 60.
Definition microsecond (now : Z) : Z := now mod usec_per_second.

(** [timedelta(days, hours, minutes, seconds, microseconds)] *)
Definition timedelta (days hours minutes secs microseconds : Z) : Z :=
  days * usec_per_day + seconds (hours * 3600) + seconds (minutes * 60)
  + seconds secs + microseconds.

Definition get_week_start (now : Z) : Z :=
  let days_since_monday := weekday now in
  let week_start :=
    now - timedelta days_since_monday (hour now) (minute now) (second now)
                    (microsecond now) in
  week_start.

Definition tries_since (user_id guild_id week_start : Z) (s : Store) : Z :=
  Z.of_nat (length (filter
    (fun r => gr_user r = user_id /\ gr_guild r = guild_id
              /\ week_start <= gr_timestamp r)
    (gambling_records s))).

Definition can_gamble_weekly (now user_id guild_id : Z) : M (bool * Z * Z) :=
  let week_start := get_week_start now in
  let* current_tries := query (tries_since user_id guild_id week_start) in
  let remaining := Z.max 0 (WEEKLY_GAMBLING_TRIES - current_tries) in
  ret (0 <? remaining, remaining, current_tries).

Inductive GambleMsg :=
  | MsgQuotaExhausted    (* "Thou hast exhausted thy weekly gambling allowance! ..." *)
  | MsgNotPositive       (* "Thou must wager a positive sum, good master!" *)
  | MsgInsufficient      (* "Thy purse contains insufficient coin for such a wager!" *)
  | MsgAtCap (gold_cap : Z)   (* "Thy purse is already at the maximum of {gold_cap} gold pieces!" *)
  | MsgUnknownGame       (* "Such games are unknown in our realm!" *)
  | MsgCapped (new_gold : Z)  (* "Thy winnings were capped at {new_gold} gold pieces!" *)
  | MsgTries (new_remaining : Z). (* "Weekly Gambling: {new_remaining}/30 tries remaining this week" *)

Definition Qltb (x y : Q) : bool := negb (Qle_bool y x).

(** The game table of [gamble]: [Some (win, multiplier)] for the three
    known games, [None] for any other name.  [roll] is the value of
    [random.random()]. *)
Definition play_game (game_type : string) (roll : Q) : option (bool * Z) :=
  if String.eqb game_type "dice" then
    let win := Qltb roll (5 # 10) in
    Some (win, if win then 2 else 0)
  else if String.eqb game_type "coin" then
    let win := Qltb roll (48 # 100) in
    Some (win, if win then 2 else 0)
  else if String.eqb game_type "slots" then
    if Qltb roll (5 # 100) then Some (true, 10)
    else if Qltb roll (15 # 100) then Some (true, 3)
    else if Qltb roll (45 # 100) then Some (true, 2)
    else Some (false, 0)
  else None.

Definition gamble (now : Z) (roll : Q) (user_id guild_id amount : Z)
    (game_type : string) : M (bool * Z * GambleMsg) :=
  let* (can_gamble, remaining_tries, used_tries) :=
    can_gamble_weekly now user_id guild_id in
  if negb can_gamble then ret (false, 0, MsgQuotaExhausted) else
  let* (current_gold, wins, losses, total_earned, total_spent, _) :=
    get_user_balance user_id guild_id in
  let* gold_cap := get_gold_cap user_id guild_id in
  if amount <=? 0 then ret (false, 0, MsgNotPositive) else
  if current_gold <? amount then ret (false, 0, MsgInsufficient) else
  if gold_cap <=? current_gold then ret (false, 0, MsgAtCap gold_cap) else
  match play_game game_type roll with
  | None => ret (false, 0, MsgUnknownGame)
  | Some (win, multiplier) =>
      let win_amount := if win then amount * multiplier else 0 in
      let net_change := win_amount - amount in
      let* (new_gold, capped) :=
        update_user_balance now user_id guild_id net_change
          (DescGamed amount game_type win) in
      (if win
       then execute (set_user_economy (alter with_win (user_id, guild_id)))
       else execute (set_user_economy (alter with_loss (user_id, guild_id))));;
      execute (add_gambling_record
        {| gr_user := user_id; gr_guild := guild_id; gr_game := game_type;
           gr_bet_amount := amount; gr_win_amount := win_amount;
           gr_outcome := win; gr_timestamp := now |});;
      if capped && win then ret (win, win_amount, MsgCapped new_gold) else
      let new_remaining := remaining_tries - 1 in
      ret (win, win_amount, MsgTries new_remaining)
  end.

(** ** Payments between subjects *)

Inductive TransferMsg :=
  | PayNotPositive      (* "Thy sum must be positive, good master!" *)
  | PayInsufficient     (* "Thy purse contains insufficient coin!" *)
  | PaySelf             (* "Thou canst not pay thyself, good sir!" *)
  | PayOverCap (receiver_cap : Z)
      (* "The recipient's purse cannot hold more than {receiver_cap} gold pieces!" *)
  | PayDone.            (* "" *)

Definition transfer_gold (now sender_id receiver_id guild_id amount : Z)
    : M (bool * TransferMsg) :=
  let* (sender_gold, _, _, _, _, _) := get_user_balance sender_id guild_id in
  let* (receiver_gold, _, _, _, _, receiver_is_admin) :=
    get_user_balance receiver_id guild_id in
  let* receiver_cap := get_gold_cap receiver_id guild_id in
  if amount <=? 0 then ret (false, PayNotPositive) else
  if sender_gold <? amount then ret (false, PayInsufficient) else
  if sender_id =? receiver_id then ret (false, PaySelf) else
  if receiver_cap <? receiver_gold + amount
  then ret (false, PayOverCap receiver_cap) else
  update_user_balance now sender_id guild_id (- amount)
    (DescPaid amount receiver_id);;
  update_user_balance now receiver_id guild_id amount
    (DescReceived amount sender_id);;
  ret (true, PayDone).

(** ** Shop *)

Inductive BuyMsg :=
  | BuyNoSuchItem       (* "Such merchandise exists not in our realm!" *)
  | BuySoldOut          (* "This treasure is sold out, good master!" *)
  | BuyLacksCoin        (* "Thy purse lacks sufficient coin for this purchase!" *)
  | BuyOverCap (gold_cap : Z)  (* "Thy gold cannot exceed {gold_cap} gold pieces!" *)
  | BuyAlreadyHeld      (* "Thou already possess the {role} station!" *)
  | BuyDone.            (* the item's name *)

Definition decrement_stock (i : ShopItem) : ShopItem :=
  {| item_guild := item_guild i; price := price i; role_id := role_id i;
     stock := stock i - 1 |}.

(** [guild] is the caller's guild object; granting the role itself is the
    platform's business. *)
Definition buy_item (now user_id guild_id item_id : Z) (guild : Guild)
    : M (bool * BuyMsg) :=
  let* item := query (fun s =>
    match shop_items s !! item_id with
    | Some i => if item_guild i =? guild_id then Some i else None
    | None => None
    end) in
  match item with
  | None => ret (false, BuyNoSuchItem)
  | Some item =>
      if stock item =? 0 then ret (false, BuySoldOut) else
      let* (user_gold, _, _, _, _, _) := get_user_balance user_id guild_id in
      let* gold_cap := get_gold_cap user_id guild_id in
      if user_gold <? price item then ret (false, BuyLacksCoin) else
      if gold_cap <? user_gold - price item
      then ret (false, BuyOverCap gold_cap) else
      let already :=
        match get_member guild user_id, role_id item with
        | Some member, Some rid =>
            get_role guild rid && bool_decide (rid ∈ roles member)
        | _, _ => false
        end in
      if already then ret (false, BuyAlreadyHeld) else
      let* (new_gold, capped) :=
        update_user_balance now user_id guild_id (- price item)
          (DescPurchased item_id) in
      execute (add_inventory
        {| inv_user := user_id; inv_guild := guild_id; inv_item := item_id;
           inv_purchased_at := now |});;
      (if 0 <? stock item
       then execute (set_shop_items (alter decrement_stock item_id))
       else ret tt);;
      ret (true, BuyDone)
  end.

(** ** Tournaments (giveaways) *)

(** The next value of the table's [SERIAL] key: above every id in use. *)
Definition next_giveaway_id (s : Store) : Z :=
  map_fold (fun id _ top => Z.max id top) 0 (active_giveaways s) + 1.

Definition create_giveaway (guild_id channel_id message_id host_id
    prize_amount end_time winner_count : Z) : M bool :=
  let* id := query next_giveaway_id in
  execute (set_active_giveaways (insert id
    {| gw_guild := guild_id; gw_channel := channel_id;
       gw_message := message_id; gw_host := host_id;
       gw_prize_amount := prize_amount; gw_end_time := end_time;
       gw_winner_count := winner_count; gw_status := active |}));;
  ret true.

Definition enter_giveaway (giveaway_id user_id : Z) : M bool :=
  let* existing :=
    query (fun s => bool_decide ((giveaway_id, user_id) ∈ giveaway_entries s)) in
  if existing then ret false else
  execute (add_giveaway_entry (giveaway_id, user_id));;
  ret true.

Definition get_giveaway_entries (giveaway_id : Z) : M (list Z) :=
  query (fun s =>
    snd <$> filter (fun e => fst e = giveaway_id) (giveaway_entries s)).

(** [random.sample(population, k)] driven by an explicit list of draws, after
    the pool branch of the standard library: the i-th step takes
    [j = randbelow(n - i)], outputs [pool[j]] and moves the last live element
    of the pool into position [j]. *)
Fixpoint random_sample (pool : list Z) (k : nat) (draws : list nat) : list Z :=
  match k with
  | O => []
  | S k' =>
      let n := length pool in
      let j := (hd O draws mod n)%nat in
      match pool !! j, pool !! (n - 1)%nat with
      | Some x, Some y =>
          x :: random_sample (take (n - 1)%nat (<[j := y]> pool)) k' (tl draws)
      | _, _ => []
      end
  end.

Definition end_status (g : Giveaway) : Giveaway :=
  {| gw_guild := gw_guild g; gw_channel := gw_channel g;
     gw_message := gw_message g; gw_host := gw_host g;
     gw_prize_amount := gw_prize_amount g; gw_end_time := gw_end_time g;
     gw_winner_count := gw_winner_count g; gw_status := ended |}.

(** The loop [for winner_id in winners: await update_user_balance(...)]. *)
Fixpoint award_prizes (now guild_id prize_amount giveaway_id : Z)
    (winners : list Z) : M unit :=
  match winners with
  | [] => ret tt
  | winner_id :: rest =>
      update_user_balance now winner_id guild_id prize_amount
        (DescWonTournament giveaway_id);;
      award_prizes now guild_id prize_amount giveaway_id rest
  end.

(** [None] is the source's [(None, None)]; [draws] feeds [random.sample].
    A negative sample size makes [random.sample] raise, which rolls the
    transaction back. *)
Definition end_giveaway (now : Z) (draws : list nat) (giveaway_id : Z)
    : M (option (list Z * Giveaway)) :=
  let* giveaway := query (fun s =>
    match active_giveaways s !! giveaway_id with
    | Some g => match gw_status g with active => Some g | ended => None end
    | None => None
    end) in
  match giveaway with
  | None => ret None
  | Some giveaway =>
      let* entries := get_giveaway_entries giveaway_id in
      match entries with
      | [] =>
          execute (set_active_giveaways (alter end_status giveaway_id));;
          ret (Some ([], giveaway))
      | _ :: _ =>
          let winner_count :=
            Z.min (gw_winner_count giveaway) (Z.of_nat (length entries)) in
          if winner_count <? 0 then ret None else
          let winners := random_sample entries (Z.to_nat winner_count) draws in
          execute (set_active_giveaways (alter end_status giveaway_id));;
          award_prizes now (gw_guild giveaway) (gw_prize_amount giveaway)
            giveaway_id winners;;
          ret (Some (winners, giveaway))
      end
  end.

Inductive TournamentMsg :=
  | TourNoPermission    (* "Thou lacketh permission to host tournaments! ..." *)
  | TourBadDuration     (* "Tournaments must last between 5 minutes and 24 hours!" *)
  | TourBadWinners      (* "A tournament must have 1-10 winners!" *)
  | TourBadPrize        (* "The prize must be at least 1 gold piece!" *)
  | TourLacksGold (total_prize host_gold : Z)
      (* "Thou needst {total_prize} gold to fund this tournament! ..." *)
  | TourFailed          (* "The tournament creation failed!" *)
  | TourCreated.

(** The [tournament] command.  [permitted] is the answer of
    [has_giveaway_permission]; [message_id] identifies the announcement the
    command has just posted.  Scheduling the end of the tournament is left to
    the event loop. *)
Definition tournament_cmd (now : Z) (permitted : bool)
    (author_id guild_id channel_id message_id : Z)
    (duration_minutes winner_count prize_amount : Z) : M TournamentMsg :=
  if negb permitted then ret TourNoPermission else
  if (duration_minutes <? 5) || (1440 <? duration_minutes)
  then ret TourBadDuration else
  if (winner_count <? 1) || (10 <? winner_count) then ret TourBadWinners else
  if prize_amount <? 1 then ret TourBadPrize else
  let* (host_gold, _, _, _, _, _) := get_user_balance author_id guild_id in
  let total_prize := prize_amount * winner_count in
  if host_gold <? total_prize then ret (TourLacksGold total_prize host_gold) else
  let end_time := now + seconds (duration_minutes * 60) in
  let* success :=
    create_giveaway guild_id channel_id message_id author_id prize_amount
      end_time winner_count in
  if success then
    update_user_balance now author_id guild_id (- total_prize)
      DescFundedTournament;;
    ret TourCreated
  else ret TourFailed.

(** The slash command runs the same steps. *)
Definition slash_tournament := tournament_cmd.

(** ** Views of the store used to state the properties *)

(** What [get_user_balance] reports for an account: its row, or the starting
    row when it has none yet. *)
Definition account_or_new (s : Store) (user_id guild_id : Z) : Account :=
  default new_account (user_economy s !! (user_id, guild_id)).

Definition balance_of (s : Store) (user_id guild_id : Z) : Z :=
  gold (account_or_new s user_id guild_id).

(** The privileged tier, as [is_user_admin] decides it. *)
Definition privileged (s : Store) (user_id guild_id : Z) : bool :=
  is_admin (account_or_new s user_id guild_id)
  || discord_administrator user_id guild_id.

Definition ceiling (s : Store) (user_id guild_id : Z) : Z :=
  if privileged s user_id guild_id then MAX_GOLD_ADMIN else MAX_GOLD_NORMAL.

(** The account invariant of the data model. *)
Definition within_ceiling (s : Store) (user_id guild_id : Z) : Prop :=
  0 <= balance_of s user_id guild_id <= ceiling s user_id guild_id.

Definition store_ok (s : Store) : Prop :=
  forall user_id guild_id, within_ceiling s user_id guild_id.

(** The store after [get_user_balance]: the row exists. *)
Definition touch (user_id guild_id : Z) (s : Store) : Store :=
  set_user_economy
    (insert (user_id, guild_id) (account_or_new s user_id guild_id)) s.

(** The store after [is_user_admin]: the flag follows the Discord
    permission. *)
Definition sync_admin (user_id guild_id : Z) (s : Store) : Store :=
  if is_admin (account_or_new s user_id guild_id) then s
  else if discord_administrator user_id guild_id
       then set_user_economy (alter (with_is_admin true) (user_id, guild_id)) s
       else s.

(** Two stores hold the same ledger when they differ at most by rows created
    on first read and by the cached [is_admin] flag. *)
Definition same_ledger (s s' : Store) : Prop :=
  (forall user_id guild_id,
     with_is_admin false (account_or_new s' user_id guild_id)
     = with_is_admin false (account_or_new s user_id guild_id))
  /\ transactions s' = transactions s
  /\ gambling_records s' = gambling_records s
  /\ shop_items s' = shop_items s
  /\ user_inventory s' = user_inventory s
  /\ active_giveaways s' = active_giveaways s
  /\ giveaway_entries s' = giveaway_entries s
  /\ admin_monthly_claims s' = admin_monthly_claims s.

(** The pieces of [update_user_balance]: the clamped balance, the lifetime
    counters and the audit row. *)
Definition clamp (cap raw : Z) : Z := Z.min (Z.max 0 raw) cap.

Definition earned_after (a : Account) (gold_change : Z) : Z :=
  if 0 <? gold_change then total_gold_earned a + gold_change
  else total_gold_earned a.

Definition spent_after (a : Account) (gold_change : Z) : Z :=
  if 0 <? gold_change then total_gold_spent a
  else total_gold_spent a + Z.abs gold_change.

Definition balance_tx (now u g gold_change : Z) (description : Description)
    (new_gold : Z) : Transaction :=
  {| tx_user := u; tx_guild := g; tx_type := balance_change;
     tx_amount := gold_change; tx_description := description;
     tx_timestamp := now; tx_balance_after := new_gold |}.

End Economy.

(** Draws that [randbelow] can return while sampling from [n] elements: the
    first below [n], the next below [n - 1], and so on. *)
Fixpoint valid_draws (n : nat) (draws : list nat) : Prop :=
  match draws with
  | [] => True
  | d :: rest => (d < n)%nat /\ valid_draws (n - 1) rest
  end.

(** The row [create_giveaway] inserts for a tournament. *)
Definition new_giveaway (now host_id guild_id channel_id message_id
    duration_minutes winner_count prize_amount : Z) : Giveaway :=
  {| gw_guild := guild_id; gw_channel := channel_id;
     gw_message := message_id; gw_host := host_id;
     gw_prize_amount := prize_amount;
     gw_end_time := now + seconds (duration_minutes * 60);
     gw_winner_count := winner_count; gw_status := active |}.

(** The entrants of a tournament, as [get_giveaway_entries] lists them. *)
Definition entries_of (giveaway_id : Z) (s : Store) : list Z :=
  snd <$> filter (fun e => fst e = giveaway_id) (giveaway_entries s).

(** The store once the tournament is marked as ended. *)
Definition mark_ended (giveaway_id : Z) (s : Store) : Store :=
  set_active_giveaways (alter end_status giveaway_id) s.

(** Sampling [k] of [pool] is uniform when every arrangement of [k] distinct
    elements of [pool] is the sample of exactly one valid sequence of
    draws. *)
Definition uniformly_sampled (pool : list Z) (k : nat) : Prop :=
  forall w, length w = k -> NoDup w -> (forall x, x ∈ w -> x ∈ pool) ->
  exists draws,
    (length draws = k /\ valid_draws (length pool) draws
     /\ random_sample pool k draws = w)
    /\ forall draws',
         length draws' = k -> valid_draws (length pool) draws' ->
         random_sample pool k draws' = w -> draws' = draws.

(** The quota count as the data model words it: the account's gambling
    records stamped in [week_start, now). *)
Definition tries_in_window (user_id guild_id week_start now : Z) (s : Store)
    : Z :=
  Z.of_nat (length (filter
    (fun r => gr_user r = user_id /\ gr_guild r = guild_id
              /\ week_start <= gr_timestamp r < now)
    (gambling_records s))).

(** The row [gamble] appends to [gambling_records]. *)
Definition gamble_record (now user_id guild_id amount : Z) (game_type : string)
    (win : bool) (win_amount : Z) : GamblingRecord :=
  {| gr_user := user_id; gr_guild := guild_id; gr_game := game_type;
     gr_bet_amount := amount; gr_win_amount := win_amount;
     gr_outcome := win; gr_timestamp := now |}.

(** A sequence of calls of the balance engine, each with its instant,
    account, delta and description. *)
Fixpoint adjust_all (bot : Bot) (calls : list (Z * Z * Z * Z * Description))
    : M unit :=
  match calls with
  | [] => ret tt
  | (now, user_id, guild_id, gold_change, description) :: rest =>
      bind (update_user_balance bot now user_id guild_id gold_change
              description)
        (fun _ => adjust_all bot rest)
  end.

(** The three cooldown tests on an account row. *)
Definition daily_ready (now : Z) (a : Account) : bool :=
  match daily_claimed a with
  | None => true
  | Some last_claimed => seconds 86400 <=? now - last_claimed
  end.

Definition labour_ready (now : Z) (a : Account) : bool :=
  match work_cooldown a with
  | None => true
  | Some last_work => seconds 3600 <=? now - last_work
  end.

Definition bounty_ready (now : Z) (a : Account) : bool :=
  match admin_monthly_claimed a with
  | None => true
  | Some last_claimed => seconds 2592000 <=? now - last_claimed
  end.

(** A computation preserves [P] when it maps stores satisfying [P] to stores
    satisfying [P], whatever it returns. *)
Definition preserves {A} (P : Store -> Prop) (m : M A) : Prop :=
  forall s, P s -> P (after m s).

(** ** Sample worlds *)

(** A store whose only account, subject 1 of guild 1, holds 40 billion. *)
Definition rich_store : Store :=
  set_user_economy
    (insert (1, 1) (with_gold 40000000000 40000000000 0 new_account))
    empty_store.


(** A client that knows no guild: nobody holds a Discord permission. *)
Definition no_discord : Bot := {| get_guild := fun _ => None |}.

(** A client with one guild (id 1) whose member 7 is an administrator. *)
Definition one_admin : Bot :=
  {| get_guild := fun guild_id =>
       if guild_id =? 1 then
         Some {| get_member := fun user_id =>
                   if user_id =? 7
                   then Some {| administrator := true; roles := [] |}
                   else Some {| administrator := false; roles := [] |};
                 get_role := fun _ => true |}
       else None |}.

(** Subjects 1 and 2 of guild 1 hold 40 billion each. *)
Definition two_rich_store : Store :=
  set_user_economy
    (insert (2, 1) (with_gold 40000000000 40000000000 0 new_account))
    rich_store.

(** A store in which subject 1 of guild 1 has wagered 30 times at instant
    [t]. *)
Definition quota_store (t : Z) : Store :=
  {| user_economy := ∅; transactions := [];
     gambling_records := replicate 30 (gamble_record t 1 1 1 "dice" false 0);
     shop_items := ∅; user_inventory := []; active_giveaways := ∅;
     giveaway_entries := []; admin_monthly_claims := [] |}.

(** Wednesday 3 January 2024, 12:34:56.000789 UTC, and the Monday before and
    after it. *)
Definition wednesday : Z := seconds 1704285296 + 789.
Definition monday : Z := seconds 1704067200.
Definition next_monday : Z := seconds 1704672000.

(** A tournament of guild 1 hosted by subject 9 (2 winners, 100 each) with
    the five entrants 11..15. *)
Definition festival_store : Store :=
  after (enter_giveaway 1 15)
    (after (enter_giveaway 1 14)
       (after (enter_giveaway 1 13)
          (after (enter_giveaway 1 12)
             (after (enter_giveaway 1 11)
                (after (create_giveaway 1 5 6 9 100 monday 2)
                   empty_store))))).

(** * Commands and further operations *)

Section Commands.

Variable bot : Bot.

Open Scope db_scope.

(** ** The [wager] command *)

Definition valid_games : list string := ["dice"; "coin"; "slots"].

Inductive WagerReply :=
  | WagerInvalidGame        (* "Valid games be these: dice, coin, slots" *)
  | WagerNotPositive        (* "Thou must wager a positive sum, good master!" *)
  | WagerLimitReached (used_tries : Z)   (* "Weekly Gambling Limit Reached" *)
  | WagerExhausted (tries_info : GambleMsg)  (* the reply of [gamble], as a refusal *)
  | WagerVictory (win_amount net_profit : Z) (tries_info : GambleMsg)
  | WagerDefeat (gold_lost : Z) (tries_info : GambleMsg).

(** [tries_info.startswith("Thou hast exhausted")] *)
Definition starts_with_exhausted (tries_info : GambleMsg) : bool :=
  match tries_info with
  | MsgQuotaExhausted => true
  | _ => false
  end.

Definition wager_cmd (now : Z) (roll : Q) (author_id guild_id amount : Z)
    (game : string) : M WagerReply :=
  if negb (bool_decide (game ∈ valid_games)) then ret WagerInvalidGame else
  if amount <=? 0 then ret WagerNotPositive else
  let* (can_gamble, remaining_tries, used_tries) :=
    can_gamble_weekly now author_id guild_id in
  if negb can_gamble then ret (WagerLimitReached used_tries) else
  let* (win, win_amount, tries_info) :=
    gamble bot now roll author_id guild_id amount game in
  if (win_amount =? 0) && starts_with_exhausted tries_info
  then ret (WagerExhausted tries_info) else
  if win then ret (WagerVictory win_amount (win_amount - amount) tries_info)
  else ret (WagerDefeat amount tries_info).

(** ** The [pay] command *)

Inductive PayReply :=
  | PayCmdNotPositive       (* "Thy sum must be positive, good master!" *)
  | PayCmdSelf              (* "Thou canst not pay thyself, good sir!" *)
  | PayCmdPaid (amount : Z) (* "Royal Payment" *)
  | PayCmdError (error : TransferMsg).

Definition pay_cmd (now author_id member_id guild_id amount : Z) : M PayReply :=
  if amount <=? 0 then ret PayCmdNotPositive else
  if member_id =? author_id then ret PayCmdSelf else
  let* (success, error) :=
    transfer_gold bot now author_id member_id guild_id amount in
  if success then ret (PayCmdPaid amount) else ret (PayCmdError error).

End Commands.

Section Further.

Variable bot : Bot.

Open Scope db_scope.

(** ** Reading the chronicles *)

(** Unlike [get_user_balance], [get_economy_stats] creates no row. *)
Definition get_economy_stats (user_id guild_id : Z)
    : M (option (Z * Z * Z * Z * Z * bool)) :=
  let* row := query (fun s => user_economy s !! (user_id, guild_id)) in
  match row with
  | Some r =>
      ret (Some (gold r, gamble_wins r, gamble_losses r, total_gold_earned r,
                 total_gold_spent r, is_admin r))
  | None => ret None
  end.

(** [ORDER BY gold DESC] *)
Definition by_gold_desc (a b : Z * Z * Account) : Prop := gold b.2 <= gold a.2.

#[global] Instance by_gold_desc_dec : RelDecision by_gold_desc :=
  fun a b => decide (gold b.2 <= gold a.2).

(** [SELECT ... WHERE guild_id=$1 ORDER BY gold DESC LIMIT $2]; a negative
    limit is an error of the store, answered with the empty list. *)
Definition get_leaderboard (guild_id limit : Z) : M (list (Z * Z * Account)) :=
  if limit <? 0 then ret [] else
  query (fun s =>
    take (Z.to_nat limit)
      (merge_sort by_gold_desc
         (filter (fun row => row.1.2 = guild_id)
            (map_to_list (user_economy s))))).

(** ** Adding wares *)

Definition next_shop_item_id (s : Store) : Z :=
  map_fold (fun id _ top => Z.max id top) 0 (shop_items s) + 1.

(** Of the columns of [shop_items] the model keeps the ones a purchase
    reads. *)
Definition add_shop_item (guild_id price : Z) (role : option Z) (stock : Z)
    : M bool :=
  let role_id := role in
  let* id := query next_shop_item_id in
  execute (set_shop_items (insert id
    {| item_guild := guild_id; price := price; role_id := role_id;
       stock := stock |}));;
  ret true.

Inductive AddWareReply :=
  | AddWareBadPrice     (* "The price must be a positive sum, good master!" *)
  | AddWareAdded        (* "Royal Ware Added" *)
  | AddWareFailed.      (* "The addition failed most grievously!" *)

Definition slash_addware (guild_id role price stock : Z) : M AddWareReply :=
  if price <=? 0 then ret AddWareBadPrice else
  let* success := add_shop_item guild_id price (Some role) stock in
  if success then ret AddWareAdded else ret AddWareFailed.

(** ** Entering and ending by message *)

Definition is_active (giveaway : Giveaway) : bool :=
  match gw_status giveaway with
  | active => true
  | ended => false
  end.

(** [SELECT * FROM active_giveaways WHERE message_id=$1 AND status='active']
    read with [fetchrow]: one matching row, here the first the table
    lists. *)
Definition active_giveaway_by_message (message_id : Z) (s : Store)
    : option (Z * Giveaway) :=
  head (filter
          (fun row => gw_message row.2 = message_id /\ is_active row.2 = true)
          (map_to_list (active_giveaways s))).

(** The emoji that enters a tournament: crossed swords, U+2694 U+FE0F. *)
Definition crossed_swords : string :=
  String "226"%char (String "154"%char (String "148"%char
    (String "239"%char (String "184"%char (String "143"%char EmptyString))))).

(** [user_is_bot] is [user.bot]; the confirmation sent to the entrant is the
    platform's business. *)
Definition on_reaction_add (emoji : string) (message_id : Z)
    (user_is_bot : bool) (user_id : Z) : M unit :=
  if user_is_bot then ret tt else
  if String.eqb emoji crossed_swords then
    let* giveaway := query (active_giveaway_by_message message_id) in
    match giveaway with
    | Some (id, _) =>
        let* entered := enter_giveaway id user_id in
        ret tt
    | None => ret tt
    end
  else ret tt.

Inductive Announcement :=
  | Silent
  | Champions (mentioned : list Z)     (* "Tournament Concluded" *)
  | NoBraveSouls.                      (* "No brave souls entered this tournament!" *)

(** [channel_found] is whether [guild.get_channel(...)] finds the channel of
    the tournament; the result is what is posted there. *)
Definition end_tournament (now : Z) (draws : list nat) (channel_found : bool)
    (giveaway_id : Z) : M Announcement :=
  let* outcome := end_giveaway bot now draws giveaway_id in
  match outcome with
  | None => ret Silent
  | Some (winners, giveaway) =>
      match get_guild bot (gw_guild giveaway) with
      | None => ret Silent
      | Some guild =>
          if negb channel_found then ret Silent else
          match winners with
          | _ :: _ =>
              let winner_mentions :=
                filter (fun winner_id => is_Some (get_member guild winner_id))
                       winners in
              ret (Champions winner_mentions)
          | [] => ret NoBraveSouls
          end
      end
  end.

(** The timer of a tournament, once its delay has passed. *)
Definition end_tournament_later (now : Z) (draws : list nat)
    (channel_found : bool) (message_id : Z) : M Announcement :=
  let* giveaway := query (active_giveaway_by_message message_id) in
  match giveaway with
  | Some (id, _) => end_tournament now draws channel_found id
  | None => ret Silent
  end.

(** [ORDER BY end_time ASC] *)
Definition by_end_time (a b : Z * Giveaway) : Prop :=
  gw_end_time a.2 <= gw_end_time b.2.

#[global] Instance by_end_time_dec : RelDecision by_end_time :=
  fun a b => decide (gw_end_time a.2 <= gw_end_time b.2).

(** [SELECT * FROM active_giveaways WHERE guild_id=$1 AND status='active'
    AND end_time > NOW() ORDER BY end_time ASC] *)
Definition get_active_giveaways (now guild_id : Z)
    : M (list (Z * Giveaway)) :=
  query (fun s =>
    merge_sort by_end_time
      (filter (fun row => gw_guild row.2 = guild_id
                          /\ is_active row.2 = true
                          /\ now < gw_end_time row.2)
         (map_to_list (active_giveaways s)))).

End Further.

(** ** Views of the shop *)

(** The ware a purchase finds: the row of that identifier, when it belongs
    to the guild. *)
Definition ware_of (s : Store) (guild_id item_id : Z) : option ShopItem :=
  match shop_items s !! item_id with
  | Some i => if item_guild i =? guild_id then Some i else None
  | None => None
  end.

(** Whether the buyer already holds the role a ware confers, as [buy_item]
    tests it. *)
Definition already_holds (guild : Guild) (user_id : Z) (item : ShopItem)
    : bool :=
  match get_member guild user_id, role_id item with
  | Some member, Some rid =>
      get_role guild rid && bool_decide (rid ∈ roles member)
  | _, _ => false
  end.

(** The row [buy_item] appends to [user_inventory]. *)
Definition purchase_entry (now user_id guild_id item_id : Z) : InventoryEntry :=
  {| inv_user := user_id; inv_guild := guild_id; inv_item := item_id;
     inv_purchased_at := now |}.

Definition with_stock (n : Z) (i : ShopItem) : ShopItem :=
  {| item_guild := item_guild i; price := price i; role_id := role_id i;
     stock := n |}.

(** Purchase attempts of one ware, one after the other, each with its
    instant and its buyer; the result lists which of them succeeded. *)
Fixpoint buy_each (bot : Bot) (guild_id item_id : Z) (guild : Guild)
    (attempts : list (Z * Z)) : M (list bool) :=
  match attempts with
  | [] => ret []
  | (now, user_id) :: rest =>
      bind (buy_item bot now user_id guild_id item_id guild) (fun r =>
      bind (buy_each bot guild_id item_id guild rest) (fun rs =>
      ret (fst r :: rs)))
  end.

Definition sold (outcomes : list bool) : Z :=
  Z.of_nat (length (filter (fun ok => ok = true) outcomes)).

(** A guild whose members hold no role. *)
Definition plain_guild : Guild :=
  {| get_member := fun _ => Some {| administrator := false; roles := [] |};
     get_role := fun _ => true |}.

(** The shop of guild 1 after one ware was added: role 5 for 30 gold, two in
    stock. *)
Definition market_store : Store :=
  after (slash_addware 1 5 30 2) empty_store.

(** * Histories *)

(** One call into the program, with what the call takes from outside: the
    instant, the random draws, the answers of the platform. *)
Inductive Operation :=
  | OpGetUserBalance (user_id guild_id : Z)
  | OpIsUserAdmin (user_id guild_id : Z)
  | OpGetGoldCap (user_id guild_id : Z)
  | OpUpdateUserBalance (now user_id guild_id gold_change : Z)
      (description : Description)
  | OpClaimAdminMonthlyBonus (now user_id guild_id : Z)
  | OpClaimDaily (now daily_amount user_id guild_id : Z)
  | OpWork (now work_amount user_id guild_id : Z)
  | OpGamble (now : Z) (roll : Q) (user_id guild_id amount : Z)
      (game_type : string)
  | OpWagerCmd (now : Z) (roll : Q) (author_id guild_id amount : Z)
      (game : string)
  | OpTransferGold (now sender_id receiver_id guild_id amount : Z)
  | OpPayCmd (now author_id member_id guild_id amount : Z)
  | OpAddShopItem (guild_id price : Z) (role : option Z) (stock : Z)
  | OpSlashAddware (guild_id role price stock : Z)
  | OpBuyItem (now user_id guild_id item_id : Z) (guild : Guild)
  | OpCreateGiveaway (guild_id channel_id message_id host_id prize_amount
      end_time winner_count : Z)
  | OpTournamentCmd (now : Z) (permitted : bool)
      (author_id guild_id channel_id message_id : Z)
      (duration_minutes winner_count prize_amount : Z)
  | OpEnterGiveaway (giveaway_id user_id : Z)
  | OpOnReactionAdd (emoji : string) (message_id : Z) (user_is_bot : bool)
      (user_id : Z)
  | OpEndGiveaway (now : Z) (draws : list nat) (giveaway_id : Z)
  | OpEndTournament (now : Z) (draws : list nat) (channel_found : bool)
      (giveaway_id : Z)
  | OpEndTournamentLater (now : Z) (draws : list nat) (channel_found : bool)
      (message_id : Z).

Definition perform (bot : Bot) (op : Operation) : M unit :=
  match op with
  | OpGetUserBalance u g => bind (get_user_balance u g) (fun _ => ret tt)
  | OpIsUserAdmin u g => bind (is_user_admin bot u g) (fun _ => ret tt)
  | OpGetGoldCap u g => bind (get_gold_cap bot u g) (fun _ => ret tt)
  | OpUpdateUserBalance now u g d desc =>
      bind (update_user_balance bot now u g d desc) (fun _ => ret tt)
  | OpClaimAdminMonthlyBonus now u g =>
      bind (claim_admin_monthly_bonus bot now u g) (fun _ => ret tt)
  | OpClaimDaily now amount u g =>
      bind (claim_daily bot now amount u g) (fun _ => ret tt)
  | OpWork now amount u g => bind (work bot now amount u g) (fun _ => ret tt)
  | OpGamble now roll u g amount game =>
      bind (gamble bot now roll u g amount game) (fun _ => ret tt)
  | OpWagerCmd now roll u g amount game =>
      bind (wager_cmd bot now roll u g amount game) (fun _ => ret tt)
  | OpTransferGold now sender receiver g amount =>
      bind (transfer_gold bot now sender receiver g amount) (fun _ => ret tt)
  | OpPayCmd now author member g amount =>
      bind (pay_cmd bot now author member g amount) (fun _ => ret tt)
  | OpAddShopItem g cost role supply =>
      bind (add_shop_item g cost role supply) (fun _ => ret tt)
  | OpSlashAddware g role cost supply =>
      bind (slash_addware g role cost supply) (fun _ => ret tt)
  | OpBuyItem now u g item guild =>
      bind (buy_item bot now u g item guild) (fun _ => ret tt)
  | OpCreateGiveaway g channel message host prize end_time winners =>
      bind (create_giveaway g channel message host prize end_time winners)
        (fun _ => ret tt)
  | OpTournamentCmd now permitted author g channel message duration winners
      prize =>
      bind (tournament_cmd bot now permitted author g channel message duration
              winners prize) (fun _ => ret tt)
  | OpEnterGiveaway id u => bind (enter_giveaway id u) (fun _ => ret tt)
  | OpOnReactionAdd emoji message is_bot u =>
      on_reaction_add emoji message is_bot u
  | OpEndGiveaway now draws id =>
      bind (end_giveaway bot now draws id) (fun _ => ret tt)
  | OpEndTournament now draws found id =>
      bind (end_tournament bot now draws found id) (fun _ => ret tt)
  | OpEndTournamentLater now draws found message =>
      bind (end_tournament_later bot now draws found message) (fun _ => ret tt)
  end.

(** A history: calls in the order they run, each with the Discord client as
    it stands at that moment (permissions and memberships change between
    calls). *)
Fixpoint perform_all (history : list (Bot * Operation)) : M unit :=
  match history with
  | [] => ret tt
  | (bot, op) :: rest => bind (perform bot op) (fun _ => perform_all rest)
  end.

(** What a history may do to an account, to a tournament and to the store. *)
Definition account_evolves (a a' : Account) : Prop :=
  daily_claimed a' = daily_claimed a
  /\ (is_admin a = true -> is_admin a' = true)
  /\ total_gold_earned a <= total_gold_earned a'
  /\ total_gold_spent a <= total_gold_spent a'
  /\ gamble_wins a <= gamble_wins a'
  /\ gamble_losses a <= gamble_losses a'.

Definition giveaway_evolves (g g' : Giveaway) : Prop :=
  g' = g \/ g' = end_status g.

Definition evolves (s s' : Store) : Prop :=
  (forall u g, account_evolves (account_or_new s u g) (account_or_new s' u g))
  /\ (forall k, is_Some (user_economy s !! k) -> is_Some (user_economy s' !! k))
  /\ transactions s `prefix_of` transactions s'
  /\ gambling_records s `prefix_of` gambling_records s'
  /\ user_inventory s `prefix_of` user_inventory s'
  /\ giveaway_entries s `prefix_of` giveaway_entries s'
  /\ admin_monthly_claims s `prefix_of` admin_monthly_claims s'
  /\ (forall id g, active_giveaways s !! id = Some g ->
        exists g', active_giveaways s' !! id = Some g'
                   /\ giveaway_evolves g g').

(** The gambling records of an account with a given outcome. *)
Definition plays_of (user_id guild_id : Z) (outcome : bool) (s : Store) : Z :=
  Z.of_nat (length (filter
    (fun r => gr_user r = user_id /\ gr_guild r = guild_id
              /\ gr_outcome r = outcome)
    (gambling_records s))).

(** The win and loss counters of every account agree with the records. *)
Definition stats_consistent (s : Store) : Prop :=
  forall u g,
    gamble_wins (account_or_new s u g) = plays_of u g true s
    /\ gamble_losses (account_or_new s u g) = plays_of u g false s.

(** ** Rendering a remaining time *)

(** The text of [format_time_remaining]: the numbers it prints and whether
    each unit is in the plural. *)
Inductive TimeText :=
  | HoursAndMinutes (hours : Z) (hours_plural : bool) (minutes : Z)
      (minutes_plural : bool)
      (* "{hours} hour{s} and {minutes} minute{s}" *)
  | MinutesOnly (minutes : Z) (minutes_plural : bool).
      (* "{minutes} minute{s}" *)

(** [x % m] on floats, for a positive [m]. *)
Definition float_mod (x m : Q) : Q := (x - m * inject_Z (Qfloor (x / m)))%Q.

(** [secs] is a number of seconds, a float in the source. *)
Definition format_time_remaining (secs : Q) : TimeText :=
  let hours := Qfloor (secs / 3600) in
  let minutes := Qfloor (float_mod secs 3600 / 60) in
  if 0 <? hours
  then HoursAndMinutes hours (negb (hours =? 1)) minutes (negb (minutes =? 1))
  else MinutesOnly minutes (negb (minutes =? 1)).

Definition text_hours (t : TimeText) : Z :=
  match t with
  | HoursAndMinutes hours _ _ _ => hours
  | MinutesOnly _ _ => 0
  end.

Definition text_minutes (t : TimeText) : Z :=
  match t with
  | HoursAndMinutes _ _ minutes _ => minutes
  | MinutesOnly minutes _ => minutes
  end.

(** The third component of [get_labour_cooldown_status] while the cooldown
    runs: the rendering of the remaining time, here given in
    microseconds. *)
Definition labour_status_msg (remaining : Z) : TimeText :=
  format_time_remaining (inject_Z remaining / inject_Z usec_per_second).

(** The rows a granted bounty writes. *)
Definition bounty_tx (now user_id guild_id balance_after : Z) : Transaction :=
  {| tx_user := user_id; tx_guild := guild_id; tx_type := admin_monthly;
     tx_amount := ADMIN_MONTHLY_BONUS; tx_description := DescAdminBounty;
     tx_timestamp := now; tx_balance_after := balance_after |}.

Definition bounty_claim (now user_id guild_id : Z) : AdminClaim :=
  {| ac_user := user_id; ac_guild := guild_id; ac_claimed_at := now;
     ac_amount := ADMIN_MONTHLY_BONUS |}.

(** * Tournament host roles *)

(** The in-memory table [GIVEAWAY_ROLES] and the rows
    ["giveaway_roles_{guild_id}"] of [persistent_config], each holding the
    list its JSON text decodes to. *)
Record HostRoles := {
  GIVEAWAY_ROLES : gmap Z (list Z);
  saved_giveaway_roles : gmap Z (list Z)
}.

Definition set_GIVEAWAY_ROLES (f : gmap Z (list Z) -> gmap Z (list Z))
    (h : HostRoles) : HostRoles :=
  {| GIVEAWAY_ROLES := f (GIVEAWAY_ROLES h);
     saved_giveaway_roles := saved_giveaway_roles h |}.

Definition save_giveaway_roles_to_db (guild_id : Z) (role_ids : list Z)
    (h : HostRoles) : HostRoles :=
  {| GIVEAWAY_ROLES := GIVEAWAY_ROLES h;
     saved_giveaway_roles := <[guild_id := role_ids]> (saved_giveaway_roles h) |}.

Definition load_giveaway_roles_from_db (guild_id : Z) (h : HostRoles)
    : list Z :=
  default [] (saved_giveaway_roles h !! guild_id).

Definition has_giveaway_permission (member : Member) (guild_id : Z)
    (h : HostRoles) : bool :=
  let guild_roles := load_giveaway_roles_from_db guild_id h in
  match guild_roles with
  | [] => false
  | _ :: _ =>
      let member_role_ids := roles member in
      existsb (fun role_id => bool_decide (role_id ∈ member_role_ids))
        guild_roles
  end.

Inductive SetRoleReply :=
  | HostRoleSet (current : list Z)   (* "Tournament Host Role Set" *)
  | HostDecreeFailed.                (* "Alack! The herald's decree failed: ..." *)

(** The body of the command; the decorator lets it run for members who may
    manage roles.  [guild] is the guild of the command; the reply fails when
    one of the listed roles is no longer a role of the guild. *)
Definition setagrole_cmd (guild_id : Z) (guild : Guild) (role : Z)
    (h : HostRoles) : SetRoleReply * HostRoles :=
  let h :=
    match GIVEAWAY_ROLES h !! guild_id with
    | Some _ => h
    | None => set_GIVEAWAY_ROLES (insert guild_id []) h
    end in
  let current := default [] (GIVEAWAY_ROLES h !! guild_id) in
  let h :=
    if bool_decide (role ∈ current) then h
    else set_GIVEAWAY_ROLES (insert guild_id (current ++ [role])) h in
  let current := default [] (GIVEAWAY_ROLES h !! guild_id) in
  let h := save_giveaway_roles_to_db guild_id current h in
  if forallb (get_role guild) current then (HostRoleSet current, h)
  else (HostDecreeFailed, h).

Definition slash_setagrole := setagrole_cmd.

(** [list.remove(x)]: the first occurrence goes. *)
Fixpoint remove_first (x : Z) (l : list Z) : list Z :=
  match l with
  | [] => []
  | y :: rest => if bool_decide (y = x) then rest else y :: remove_first x rest
  end.

Inductive RemoveRoleReply :=
  | HostRoleRemoved      (* "Tournament Host Role Removed" *)
  | HostRoleNotFound.    (* "Role Not Found" *)

Definition removeagrole_cmd (guild_id role : Z) (h : HostRoles)
    : RemoveRoleReply * HostRoles :=
  match GIVEAWAY_ROLES h !! guild_id with
  | Some current =>
      if bool_decide (role ∈ current) then
        let h :=
          set_GIVEAWAY_ROLES (insert guild_id (remove_first role current)) h in
        let current := default [] (GIVEAWAY_ROLES h !! guild_id) in
        (HostRoleRemoved, save_giveaway_roles_to_db guild_id current h)
      else (HostRoleNotFound, h)
  | None => (HostRoleNotFound, h)
  end.

Definition slash_removeagrole := removeagrole_cmd.

(** The loop [for row in rows: GIVEAWAY_ROLES[guild_id] = role_ids] over the
    saved rows. *)
Definition load_all_saved_config (h : HostRoles) : HostRoles :=
  set_GIVEAWAY_ROLES
    (fun table =>
       map_fold (fun guild_id role_ids table => <[guild_id := role_ids]> table)
         table (saved_giveaway_roles h))
    h.

(** A member who holds the single role [role]. *)
Definition holder_of (role : Z) : Member :=
  {| administrator := false; roles := [role] |}.

(** * Properties *)

Section Facts.

Variable bot : Bot.

(** ** Reading an account *)

Lemma store_eta (s : Store) :
  {| user_economy := user_economy s; transactions := transactions s;
     gambling_records := gambling_records s; shop_items := shop_items s;
     user_inventory := user_inventory s; active_giveaways := active_giveaways s;
     giveaway_entries := giveaway_entries s;
     admin_monthly_claims := admin_monthly_claims s |} = s.
Proof. by destruct s. Qed.

Lemma touch_known s u g r :
  user_economy s !! (u, g) = Some r -> touch u g s = s.
Proof.
  intros H. unfold touch, account_or_new, set_user_economy.
  rewrite H. simpl. rewrite insert_id by done. apply store_eta.
Qed.

Lemma account_touch s u g u' g' :
  account_or_new (touch u g s) u' g' = account_or_new s u' g'.
Proof.
  unfold touch, account_or_new, set_user_economy; simpl.
  destruct (decide ((u, g) = (u', g'))) as [->|Hne].
  - rewrite lookup_insert_eq. done.
  - by rewrite lookup_insert_ne.
Qed.

Lemma lookup_touch s u g :
  user_economy (touch u g s) !! (u, g) = Some (account_or_new s u g).
Proof. unfold touch, set_user_economy; simpl. apply lookup_insert_eq. Qed.

Lemma get_user_balance_run s u g :
  get_user_balance u g s =
  let a := account_or_new s u g in
  ((gold a, gamble_wins a, gamble_losses a, total_gold_earned a,
    total_gold_spent a, is_admin a), touch u g s).
Proof.
  unfold get_user_balance, bind, query, execute, ret.
  destruct (user_economy s !! (u, g)) as [r|] eqn:E.
  - rewrite (touch_known _ _ _ _ E). unfold account_or_new. by rewrite E.
  - unfold touch, account_or_new. by rewrite E.
Qed.

Lemma is_user_admin_run s u g :
  is_user_admin bot u g s = (privileged bot s u g, sync_admin bot u g s).
Proof.
  unfold is_user_admin, bind, query, execute, ret, privileged, sync_admin,
    account_or_new.
  destruct (user_economy s !! (u, g)) as [r|]; simpl.
  - destruct (is_admin r); [done|].
    by destruct (discord_administrator bot u g).
  - by destruct (discord_administrator bot u g).
Qed.

Lemma get_gold_cap_run s u g :
  get_gold_cap bot u g s = (ceiling bot s u g, sync_admin bot u g s).
Proof.
  unfold get_gold_cap, bind. rewrite is_user_admin_run.
  unfold ceiling. by destruct (privileged bot s u g).
Qed.

(** ** The cached flag does not change what an account holds *)

Lemma account_sync s u g u' g' :
  account_or_new (sync_admin bot u g s) u' g' =
  if decide ((u, g) = (u', g')) then
    if is_admin (account_or_new s u g) then account_or_new s u g
    else if discord_administrator bot u g
         then match user_economy s !! (u, g) with
              | Some r => with_is_admin true r
              | None => new_account
              end
         else account_or_new s u g
  else account_or_new s u' g'.
Proof.
  unfold sync_admin.
  destruct (decide ((u, g) = (u', g'))) as [E|Hne].
  - inversion E; subst u' g'.
    destruct (is_admin (account_or_new s u g)); [done|].
    destruct (discord_administrator bot u g); [|done].
    unfold account_or_new, set_user_economy; simpl.
    rewrite lookup_alter_eq. by destruct (user_economy s !! (u, g)).
  - destruct (is_admin (account_or_new s u g)); [done|].
    destruct (discord_administrator bot u g); [|done].
    unfold account_or_new, set_user_economy; simpl.
    by rewrite lookup_alter_ne.
Qed.

Lemma view_sync s u g u' g' :
  with_is_admin false (account_or_new (sync_admin bot u g s) u' g')
  = with_is_admin false (account_or_new s u' g').
Proof.
  rewrite account_sync. case_decide as E; [|done].
  inversion E; subst u' g'.
  destruct (is_admin (account_or_new s u g)) eqn:Ha; [done|].
  destruct (discord_administrator bot u g); [|done].
  unfold account_or_new. by destruct (user_economy s !! (u, g)).
Qed.

Lemma gold_sync s u g u' g' :
  balance_of (sync_admin bot u g s) u' g' = balance_of s u' g'.
Proof.
  unfold balance_of.
  change (gold (account_or_new (sync_admin bot u g s) u' g'))
    with (gold (with_is_admin false
                  (account_or_new (sync_admin bot u g s) u' g'))).
  by rewrite view_sync.
Qed.

Lemma privileged_sync s u g u' g' :
  privileged bot (sync_admin bot u g s) u' g' = privileged bot s u' g'.
Proof.
  unfold privileged. rewrite account_sync. case_decide as E; [|done].
  inversion E; subst u' g'.
  destruct (is_admin (account_or_new s u g)) eqn:Ha; [by rewrite Ha|].
  destruct (discord_administrator bot u g) eqn:Hd; [|by rewrite Ha].
  rewrite orb_true_r. by destruct (user_economy s !! (u, g)).
Qed.

Lemma ceiling_sync s u g u' g' :
  ceiling bot (sync_admin bot u g s) u' g' = ceiling bot s u' g'.
Proof. unfold ceiling. by rewrite privileged_sync. Qed.

Lemma privileged_touch s u g u' g' :
  privileged bot (touch u g s) u' g' = privileged bot s u' g'.
Proof. unfold privileged. by rewrite account_touch. Qed.

Lemma ceiling_touch s u g u' g' :
  ceiling bot (touch u g s) u' g' = ceiling bot s u' g'.
Proof. unfold ceiling. by rewrite privileged_touch. Qed.

Lemma gold_touch s u g u' g' :
  balance_of (touch u g s) u' g' = balance_of s u' g'.
Proof. unfold balance_of. by rewrite account_touch. Qed.

Lemma same_ledger_refl s : same_ledger s s.
Proof. by repeat split. Qed.

Lemma same_ledger_trans s1 s2 s3 :
  same_ledger s1 s2 -> same_ledger s2 s3 -> same_ledger s1 s3.
Proof.
  intros (A1 & B1 & C1 & D1 & E1 & F1 & G1 & H1)
         (A2 & B2 & C2 & D2 & E2 & F2 & G2 & H2).
  repeat split; try congruence.
  all: intros u g; by rewrite A2, A1.
Qed.

Lemma same_ledger_touch s u g : same_ledger s (touch u g s).
Proof.
  repeat split; try done. intros u' g'. by rewrite account_touch.
Qed.

Lemma same_ledger_sync s u g : same_ledger s (sync_admin bot u g s).
Proof.
  split; [intros u' g'; apply view_sync|].
  unfold sync_admin.
  destruct (is_admin _); [done|]. by destruct (discord_administrator _ _ _).
Qed.

Lemma same_ledger_balance s s' u g :
  same_ledger s s' -> balance_of s' u g = balance_of s u g.
Proof.
  intros [A _]. unfold balance_of.
  change (gold (account_or_new s' u g))
    with (gold (with_is_admin false (account_or_new s' u g))).
  by rewrite A.
Qed.

(** ** The balance engine in closed form *)

Lemma update_user_balance_run s now u g d desc :
  update_user_balance bot now u g d desc s =
  let a := account_or_new s u g in
  let new_gold := clamp (ceiling bot s u g) (gold a + d) in
  ((new_gold, new_gold - gold a <? d),
   add_transaction (balance_tx now u g d desc new_gold)
     (set_user_economy
        (alter (with_gold new_gold (earned_after a d) (spent_after a d)) (u, g))
        (sync_admin bot u g (touch u g s)))).
Proof.
  unfold update_user_balance, bind. rewrite get_user_balance_run. simpl.
  rewrite get_gold_cap_run, ceiling_touch.
  unfold earned_after, spent_after, clamp, balance_tx, execute, ret.
  destruct (0 <? d); simpl;
    by destruct (_ <? d).
Qed.

Lemma lookup_account s u g :
  is_Some (user_economy s !! (u, g)) ->
  user_economy s !! (u, g) = Some (account_or_new s u g).
Proof. intros [r H]. unfold account_or_new. by rewrite H. Qed.

Lemma sync_keeps_row s u g k :
  is_Some (user_economy s !! k) ->
  is_Some (user_economy (sync_admin bot u g s) !! k).
Proof.
  intros H. unfold sync_admin.
  destruct (is_admin _); [done|].
  destruct (discord_administrator _ _ _); [|done].
  unfold set_user_economy; simpl. rewrite lookup_alter.
  case_decide; [subst k|done]. destruct H as [r ->]. by eexists.
Qed.

Lemma lookup_sync_touch s u g :
  user_economy (sync_admin bot u g (touch u g s)) !! (u, g)
  = Some (account_or_new (sync_admin bot u g (touch u g s)) u g).
Proof.
  apply lookup_account, sync_keeps_row. rewrite lookup_touch. by eexists.
Qed.

(** The account acted upon, after the call. *)
Lemma update_user_balance_account s now u g d desc :
  let a := account_or_new s u g in
  let new_gold := clamp (ceiling bot s u g) (gold a + d) in
  account_or_new (after (update_user_balance bot now u g d desc) s) u g
  = with_gold new_gold (earned_after a d) (spent_after a d)
      (account_or_new (sync_admin bot u g (touch u g s)) u g).
Proof.
  unfold after. rewrite update_user_balance_run. simpl.
  unfold account_or_new at 1. simpl.
  rewrite lookup_alter_eq, lookup_sync_touch. done.
Qed.

(** Every other account is left alone. *)
Lemma update_user_balance_other s now u g d desc u' g' :
  (u, g) <> (u', g') ->
  account_or_new (after (update_user_balance bot now u g d desc) s) u' g'
  = account_or_new s u' g'.
Proof.
  intros Hne. unfold after. rewrite update_user_balance_run. simpl.
  unfold account_or_new at 1. simpl.
  rewrite lookup_alter_ne by done.
  change (default new_account
            (user_economy (sync_admin bot u g (touch u g s)) !! (u', g')))
    with (account_or_new (sync_admin bot u g (touch u g s)) u' g').
  rewrite account_sync. case_decide; [done|]. apply account_touch.
Qed.

Lemma update_user_balance_gold s now u g d desc :
  balance_of (after (update_user_balance bot now u g d desc) s) u g
  = clamp (ceiling bot s u g) (balance_of s u g + d).
Proof. unfold balance_of. by rewrite update_user_balance_account. Qed.

Lemma update_user_balance_privileged s now u g d desc u' g' :
  privileged bot (after (update_user_balance bot now u g d desc) s) u' g'
  = privileged bot s u' g'.
Proof.
  destruct (decide ((u, g) = (u', g'))) as [E|Hne].
  - inversion E; subst u' g'. unfold privileged at 1.
    rewrite update_user_balance_account. simpl.
    change (is_admin (account_or_new (sync_admin bot u g (touch u g s)) u g)
            || discord_administrator bot u g)
      with (privileged bot (sync_admin bot u g (touch u g s)) u g).
    by rewrite privileged_sync, privileged_touch.
  - unfold privileged. by rewrite update_user_balance_other.
Qed.

Lemma update_user_balance_ceiling s now u g d desc u' g' :
  ceiling bot (after (update_user_balance bot now u g d desc) s) u' g'
  = ceiling bot s u' g'.
Proof. unfold ceiling. by rewrite update_user_balance_privileged. Qed.

Lemma ceiling_pos s u g : 0 < ceiling bot s u g.
Proof. unfold ceiling. by destruct (privileged bot s u g). Qed.

Lemma clamp_range cap raw : 0 < cap -> 0 <= clamp cap raw <= cap.
Proof. unfold clamp. lia. Qed.

Lemma counters_sync_touch s u g :
  total_gold_earned (account_or_new (sync_admin bot u g (touch u g s)) u g)
  = total_gold_earned (account_or_new s u g)
  /\ total_gold_spent (account_or_new (sync_admin bot u g (touch u g s)) u g)
  = total_gold_spent (account_or_new s u g).
Proof.
  pose proof (view_sync (touch u g s) u g u g) as H.
  rewrite account_touch in H.
  split.
  - change (total_gold_earned ?a)
      with (total_gold_earned (with_is_admin false a)). by rewrite H.
  - change (total_gold_spent ?a)
      with (total_gold_spent (with_is_admin false a)). by rewrite H.
Qed.

(** ** Balance engine: clamping and the capped flag *)


(** ** Balance engine: lifetime counters *)

Lemma update_user_balance_counters s now u g d desc :
  let a := account_or_new s u g in
  let a' := account_or_new (after (update_user_balance bot now u g d desc) s)
              u g in
  total_gold_earned a' = earned_after a d
  /\ total_gold_spent a' = spent_after a d.
Proof.
  destruct (counters_sync_touch s u g) as [He Hs]. cbv zeta.
  rewrite update_user_balance_account. done.
Qed.

Lemma counters_monotone_step s now u g d desc u' g' :
  let s' := after (update_user_balance bot now u g d desc) s in
  total_gold_earned (account_or_new s u' g')
    <= total_gold_earned (account_or_new s' u' g')
  /\ total_gold_spent (account_or_new s u' g')
    <= total_gold_spent (account_or_new s' u' g').
Proof.
  cbv zeta. destruct (decide ((u, g) = (u', g'))) as [E|Hne].
  - inversion E; subst u' g'.
    destruct (update_user_balance_counters s now u g d desc) as [-> ->].
    unfold earned_after, spent_after.
    destruct (0 <? d) eqn:E'; [apply Z.ltb_lt in E'|apply Z.ltb_ge in E'];
      lia.
  - rewrite update_user_balance_other by done. lia.
Qed.

Lemma adjust_all_counters_monotone calls : forall s u' g',
  total_gold_earned (account_or_new s u' g')
    <= total_gold_earned (account_or_new (after (adjust_all bot calls) s) u' g')
  /\ total_gold_spent (account_or_new s u' g')
    <= total_gold_spent (account_or_new (after (adjust_all bot calls) s) u' g').
Proof.
  induction calls as [|[[[[now u] g] d] desc] calls IH]; intros s u' g'.
  - simpl. unfold after, ret. simpl. lia.
  - simpl. unfold after, bind.
    pose proof (counters_monotone_step s now u g d desc u' g') as Hstep.
    cbv zeta in Hstep. unfold after in Hstep.
    destruct (update_user_balance bot now u g d desc s) as [r s1].
    specialize (IH s1 u' g'). unfold after in IH. simpl in *. lia.
Qed.


(** ** Composing computations *)

Lemma after_bind {A B} (m : M A) (k : A -> M B) s :
  after (bind m k) s = after (k (result m s)) (after m s).
Proof. unfold after, result, bind. by destruct (m s). Qed.

Lemma result_bind {A B} (m : M A) (k : A -> M B) s :
  result (bind m k) s = result (k (result m s)) (after m s).
Proof. unfold after, result, bind. by destruct (m s). Qed.

Lemma preserves_bind {A B} P (m : M A) (k : A -> M B) :
  preserves P m -> (forall a, preserves P (k a)) -> preserves P (bind m k).
Proof. intros Hm Hk s Hs. rewrite after_bind. by apply Hk, Hm. Qed.

Lemma preserves_ret {A} P (x : A) : preserves P (ret x).
Proof. by intros s Hs. Qed.

Lemma preserves_query {A} P (q : Store -> A) : preserves P (query q).
Proof. by intros s Hs. Qed.

(** ** The account invariant under the balance engine *)

Lemma store_ok_same_purses s s' :
  (forall u g, balance_of s' u g = balance_of s u g) ->
  (forall u g, privileged bot s' u g = privileged bot s u g) ->
  store_ok bot s -> store_ok bot s'.
Proof.
  intros Hb Hp Hs u g. unfold within_ceiling, ceiling.
  rewrite Hb, Hp. apply Hs.
Qed.

Lemma preserves_get_user_balance u g :
  preserves (store_ok bot) (get_user_balance u g).
Proof.
  intros s. unfold after. rewrite get_user_balance_run. simpl.
  apply store_ok_same_purses; intros; [apply gold_touch|apply privileged_touch].
Qed.

Lemma preserves_is_user_admin u g :
  preserves (store_ok bot) (is_user_admin bot u g).
Proof.
  intros s. unfold after. rewrite is_user_admin_run. simpl.
  apply store_ok_same_purses; intros; [apply gold_sync|apply privileged_sync].
Qed.

Lemma preserves_get_gold_cap u g :
  preserves (store_ok bot) (get_gold_cap bot u g).
Proof.
  intros s. unfold after. rewrite get_gold_cap_run. simpl.
  apply store_ok_same_purses; intros; [apply gold_sync|apply privileged_sync].
Qed.

(** After [update_user_balance] the account acted upon is within its
    ceiling, whatever it held before. *)
Lemma update_user_balance_within_ceiling s now u g d desc :
  within_ceiling bot (after (update_user_balance bot now u g d desc) s) u g.
Proof.
  unfold within_ceiling.
  rewrite update_user_balance_gold, update_user_balance_ceiling.
  apply clamp_range, ceiling_pos.
Qed.

Lemma preserves_update_user_balance now u g d desc :
  preserves (store_ok bot) (update_user_balance bot now u g d desc).
Proof.
  intros s Hs u' g'.
  destruct (decide ((u, g) = (u', g'))) as [E|Hne].
  - inversion E; subst u' g'. apply update_user_balance_within_ceiling.
  - unfold within_ceiling, balance_of.
    rewrite update_user_balance_ceiling, update_user_balance_other by done.
    apply Hs.
Qed.

(** Column updates that touch neither [gold] nor [is_admin]. *)
Lemma preserves_alter (f : Account -> Account) k :
  (forall a, gold (f a) = gold a) ->
  (forall a, is_admin (f a) = is_admin a) ->
  preserves (store_ok bot) (execute (set_user_economy (alter f k))).
Proof.
  intros Hg Ha s. unfold after, execute; simpl.
  assert (Hacc : forall u g,
    gold (account_or_new (set_user_economy (alter f k) s) u g)
      = gold (account_or_new s u g)
    /\ is_admin (account_or_new (set_user_economy (alter f k) s) u g)
      = is_admin (account_or_new s u g)).
  { intros u g. unfold account_or_new, set_user_economy; simpl.
    rewrite lookup_alter. case_decide; [subst k|done].
    destruct (user_economy s !! (u, g)); simpl; [|done]. by rewrite Hg, Ha. }
  apply store_ok_same_purses; intros u g; destruct (Hacc u g) as [H1 H2].
  - done.
  - unfold privileged. by rewrite H2.
Qed.

Lemma preserves_other_tables (f : Store -> Store) :
  (forall s, user_economy (f s) = user_economy s) ->
  preserves (store_ok bot) (execute f).
Proof.
  intros Hf s. unfold after, execute; simpl.
  apply store_ok_same_purses; intros u g;
    unfold privileged, balance_of, account_or_new; by rewrite Hf.
Qed.

End Facts.

Create HintDb ledger.

#[export] Hint Resolve preserves_get_user_balance preserves_is_user_admin
  preserves_get_gold_cap preserves_update_user_balance preserves_ret
  preserves_query : ledger.

(** One step through the structure of a database computation. *)
Ltac preserve_step :=
  match goal with
  | |- preserves _ (bind _ _) => apply preserves_bind; [|intros ?]
  | |- preserves _ (ret _) => apply preserves_ret
  | |- preserves _ (query _) => apply preserves_query
  | |- preserves _ (execute (set_user_economy (alter _ _))) =>
      apply preserves_alter; intros []; reflexivity
  | |- preserves _ (execute _) =>
      apply preserves_other_tables; intros []; reflexivity
  | |- preserves _ (if ?b then _ else _) => destruct b
  | |- preserves _ (match ?x with _ => _ end) => destruct x
  | |- preserves _ _ => solve [auto with ledger]
  end.

Ltac preserve := repeat preserve_step.

(** A conjunction of guarded refusals: each guard either contradicts the
    branch at hand or leads to the refusal read off the closed form. *)
Ltac refusal_cases :=
  repeat apply conj; intros;
  first [ lia | split; [reflexivity | first [reflexivity | assumption]] ].

Section Operations.

Variable bot : Bot.

(** ** Every path through the balance engine keeps the account invariant *)

Lemma preserves_claim_daily now amount u g :
  preserves (store_ok bot) (claim_daily bot now amount u g).
Proof. unfold claim_daily, can_claim_daily. preserve. Qed.

Lemma preserves_work now amount u g :
  preserves (store_ok bot) (work bot now amount u g).
Proof. unfold work, get_labour_cooldown_status. preserve. Qed.

Lemma preserves_gamble now roll u g amount game :
  preserves (store_ok bot) (gamble bot now roll u g amount game).
Proof. unfold gamble, can_gamble_weekly. preserve. Qed.

Lemma preserves_transfer_gold now sender receiver g amount :
  preserves (store_ok bot) (transfer_gold bot now sender receiver g amount).
Proof. unfold transfer_gold. preserve. Qed.

Lemma preserves_buy_item now u g item guild :
  preserves (store_ok bot) (buy_item bot now u g item guild).
Proof. unfold buy_item. preserve. Qed.

Lemma preserves_award_prizes now g prize id winners :
  preserves (store_ok bot) (award_prizes bot now g prize id winners).
Proof. induction winners as [|w ws IH]; simpl; preserve. Qed.

Lemma preserves_end_giveaway now draws id :
  preserves (store_ok bot) (end_giveaway bot now draws id).
Proof.
  pose proof preserves_award_prizes.
  unfold end_giveaway, get_giveaway_entries. preserve.
Qed.

Lemma preserves_tournament_cmd now permitted author g channel message
    duration winners prize :
  preserves (store_ok bot)
    (tournament_cmd bot now permitted author g channel message duration
       winners prize).
Proof. unfold tournament_cmd, create_giveaway. preserve. Qed.

Lemma preserves_adjust_all calls :
  preserves (store_ok bot) (adjust_all bot calls).
Proof.
  induction calls as [|[[[[now u] g] d] desc] calls IH]; simpl; preserve.
Qed.

Lemma store_ok_empty : store_ok bot empty_store.
Proof.
  intros u g. unfold within_ceiling, balance_of, ceiling, privileged,
    account_or_new. simpl.
  by destruct (discord_administrator bot u g).
Qed.

(** Every operation that changes a balance through [update_user_balance]
    keeps all accounts within [0, ceiling]: any sequence of adjustments, the
    daily stipend, labour, wagering, payments, purchases, tournament funding
    and tournament prizes.  A store without accounts satisfies the
    invariant. *)
Theorem balance_engine_keeps_accounts_within_ceiling :
  store_ok bot empty_store
  /\ (forall calls, preserves (store_ok bot) (adjust_all bot calls))
  /\ (forall now amount u g,
        preserves (store_ok bot) (claim_daily bot now amount u g))
  /\ (forall now amount u g,
        preserves (store_ok bot) (work bot now amount u g))
  /\ (forall now roll u g amount game,
        preserves (store_ok bot) (gamble bot now roll u g amount game))
  /\ (forall now sender receiver g amount,
        preserves (store_ok bot)
          (transfer_gold bot now sender receiver g amount))
  /\ (forall now u g item guild,
        preserves (store_ok bot) (buy_item bot now u g item guild))
  /\ (forall now draws id,
        preserves (store_ok bot) (end_giveaway bot now draws id))
  /\ (forall now permitted author g channel message duration winners prize,
        preserves (store_ok bot)
          (tournament_cmd bot now permitted author g channel message duration
             winners prize)).
Proof.
  split; [apply store_ok_empty|].
  split; [apply preserves_adjust_all|].
  split; [apply preserves_claim_daily|].
  split; [apply preserves_work|].
  split; [apply preserves_gamble|].
  split; [apply preserves_transfer_gold|].
  split; [apply preserves_buy_item|].
  split; [apply preserves_end_giveaway|].
  apply preserves_tournament_cmd.
Qed.

End Operations.

Section Scheduler.

Variable bot : Bot.

(** ** Claim scheduler in closed form *)

Lemma can_claim_daily_run s now u g :
  can_claim_daily now u g s = (daily_ready now (account_or_new s u g), s).
Proof.
  unfold can_claim_daily, bind, query, ret, daily_ready, account_or_new.
  destruct (user_economy s !! (u, g)) as [r|]; simpl; [|done].
  by destruct (daily_claimed r).
Qed.

Lemma get_labour_cooldown_status_run s now u g :
  get_labour_cooldown_status now u g s =
  let a := account_or_new s u g in
  ((labour_ready now a,
    if labour_ready now a then 0
    else seconds 3600 - (now - default 0 (work_cooldown a))), s).
Proof.
  unfold get_labour_cooldown_status, bind, query, ret, labour_ready,
    account_or_new.
  change (seconds (LABOUR_COOLDOWN_HOURS * 3600)) with (seconds 3600).
  destruct (user_economy s !! (u, g)) as [r|]; simpl; [|done].
  destruct (work_cooldown r) as [t|]; simpl; [|done].
  by destruct (seconds 3600 <=? now - t).
Qed.

Lemma can_claim_admin_monthly_run s now u g :
  can_claim_admin_monthly now u g s
  = (bounty_ready now (account_or_new s u g), s).
Proof.
  unfold can_claim_admin_monthly, bind, query, ret, bounty_ready,
    account_or_new.
  destruct (user_economy s !! (u, g)) as [r|]; simpl; [|done].
  by destruct (admin_monthly_claimed r).
Qed.

Lemma stamps_sync_touch s u g :
  let a' := account_or_new (sync_admin bot u g (touch u g s)) u g in
  let a := account_or_new s u g in
  daily_claimed a' = daily_claimed a
  /\ work_cooldown a' = work_cooldown a
  /\ admin_monthly_claimed a' = admin_monthly_claimed a.
Proof.
  pose proof (view_sync bot (touch u g s) u g u g) as H.
  rewrite account_touch in H. cbv zeta.
  split; [|split].
  - change (daily_claimed ?a) with (daily_claimed (with_is_admin false a)).
    by rewrite H.
  - change (work_cooldown ?a) with (work_cooldown (with_is_admin false a)).
    by rewrite H.
  - change (admin_monthly_claimed ?a)
      with (admin_monthly_claimed (with_is_admin false a)).
    by rewrite H.
Qed.

(** The balance engine writes no cooldown column. *)
Lemma update_user_balance_stamps s now u g d desc u' g' :
  let a' := account_or_new (after (update_user_balance bot now u g d desc) s)
              u' g' in
  let a := account_or_new s u' g' in
  daily_claimed a' = daily_claimed a
  /\ work_cooldown a' = work_cooldown a
  /\ admin_monthly_claimed a' = admin_monthly_claimed a.
Proof.
  cbv zeta. destruct (decide ((u, g) = (u', g'))) as [E|Hne].
  - inversion E; subst u' g'. rewrite update_user_balance_account. simpl.
    apply stamps_sync_touch.
  - by rewrite update_user_balance_other.
Qed.

Lemma row_after_update s now u g d desc :
  is_Some (user_economy (after (update_user_balance bot now u g d desc) s)
             !! (u, g)).
Proof.
  unfold after. rewrite update_user_balance_run. simpl.
  rewrite lookup_alter_eq, lookup_sync_touch. by eexists.
Qed.

(** [claim_daily] leaves [daily_claimed] as it found it: a successful claim
    starts no cooldown. *)
Lemma claim_daily_keeps_daily_claimed s now amount u g :
  daily_claimed (account_or_new (after (claim_daily bot now amount u g) s) u g)
  = daily_claimed (account_or_new s u g).
Proof.
  unfold claim_daily, after, bind. rewrite can_claim_daily_run.
  destruct (daily_ready now (account_or_new s u g)); simpl; [|done].
  pose proof (update_user_balance_stamps s now u g amount DescDaily u g)
    as (H & _). cbv zeta in H. unfold after in H.
  destruct (update_user_balance bot now u g amount DescDaily s) as [[n c] s1].
  simpl in *. by destruct c.
Qed.

(** A successful [work] stamps [work_cooldown] with the instant of the claim,
    so the next labour is ready exactly one hour later. *)
Lemma work_starts_cooldown s now amount u g :
  fst (fst (result (work bot now amount u g) s)) = true ->
  let s' := after (work bot now amount u g) s in
  work_cooldown (account_or_new s' u g) = Some now
  /\ forall later,
       fst (result (get_labour_cooldown_status later u g) s') = true
       <-> seconds 3600 <= later - now.
Proof.
  unfold work, result, after, bind. rewrite get_labour_cooldown_status_run.
  cbv zeta.
  destruct (labour_ready now (account_or_new s u g)); simpl; [|done].
  pose proof (row_after_update s now u g amount DescLabour) as [r Hr].
  unfold after in Hr.
  destruct (update_user_balance bot now u g amount DescLabour s) as [[n c] s1].
  simpl in *.
  assert (Hw : work_cooldown
    (account_or_new (set_user_economy (alter (with_work_cooldown now) (u, g)) s1)
       u g) = Some now).
  { unfold account_or_new, set_user_economy; simpl.
    by rewrite lookup_alter_eq, Hr. }
  destruct c; simpl; intros _; (split; [done|]); intros later;
    unfold execute; simpl; rewrite get_labour_cooldown_status_run; simpl;
    unfold labour_ready; rewrite Hw; apply Z.leb_le.
Qed.

(** A granted bounty, for an account that has a row, stamps
    [admin_monthly_claimed] with the instant of the claim, so the next bounty
    is ready exactly thirty days later. *)
Lemma bounty_starts_cooldown s now u g :
  is_Some (user_economy s !! (u, g)) ->
  fst (fst (result (claim_admin_monthly_bonus bot now u g) s)) = true ->
  let s' := after (claim_admin_monthly_bonus bot now u g) s in
  admin_monthly_claimed (account_or_new s' u g) = Some now
  /\ forall later,
       result (can_claim_admin_monthly later u g) s' = true
       <-> seconds 2592000 <= later - now.
Proof.
  intros Hrow. unfold claim_admin_monthly_bonus, result, after, bind.
  rewrite is_user_admin_run.
  destruct (privileged bot s u g); simpl; [|done].
  rewrite can_claim_admin_monthly_run.
  destruct (bounty_ready now _); simpl; [|done].
  destruct (get_guild bot g) as [guild|]; simpl; [|done].
  destruct (get_member guild u) as [member|]; simpl; [|done].
  destruct (administrator member); simpl; [|done].
  intros _.
  pose proof (sync_keeps_row bot s u g (u, g) Hrow) as [r Hr].
  assert (Hw : admin_monthly_claimed
    (account_or_new
       (set_user_economy (alter (with_admin_bonus ADMIN_MONTHLY_BONUS now) (u, g))
          (sync_admin bot u g s)) u g) = Some now).
  { unfold account_or_new, set_user_economy; simpl.
    by rewrite lookup_alter_eq, Hr. }
  split; [done|]. intros later.
  rewrite can_claim_admin_monthly_run; simpl.
  unfold bounty_ready.
  change (account_or_new _ u g) with
    (account_or_new
       (set_user_economy (alter (with_admin_bonus ADMIN_MONTHLY_BONUS now) (u, g))
          (sync_admin bot u g s)) u g).
  rewrite Hw. apply Z.leb_le.
Qed.

(** A granted bounty adds the full bonus to the stored balance. *)
Lemma bounty_adds_full_bonus s now u g :
  is_Some (user_economy s !! (u, g)) ->
  fst (fst (result (claim_admin_monthly_bonus bot now u g) s)) = true ->
  balance_of (after (claim_admin_monthly_bonus bot now u g) s) u g
  = balance_of s u g + ADMIN_MONTHLY_BONUS.
Proof.
  intros Hrow. unfold claim_admin_monthly_bonus, result, after, bind.
  rewrite is_user_admin_run.
  destruct (privileged bot s u g); simpl; [|done].
  rewrite can_claim_admin_monthly_run.
  destruct (bounty_ready now _); simpl; [|done].
  destruct (get_guild bot g) as [guild|]; simpl; [|done].
  destruct (get_member guild u) as [member|]; simpl; [|done].
  destruct (administrator member); simpl; [|done].
  intros _.
  pose proof (sync_keeps_row bot s u g (u, g) Hrow) as [r Hr].
  pose proof (gold_sync bot s u g u g) as Hg.
  unfold balance_of, account_or_new in *. simpl.
  rewrite lookup_alter_eq, Hr. simpl. rewrite Hr in Hg. simpl in Hg.
  by rewrite Hg.
Qed.


End Scheduler.

Section Wagering.

Variable bot : Bot.

(** ** Reads are idempotent *)

Lemma touch_sync_touch s u g :
  touch u g (sync_admin bot u g (touch u g s)) = sync_admin bot u g (touch u g s).
Proof. eapply touch_known, lookup_sync_touch. Qed.

Lemma sync_idempotent s u g :
  sync_admin bot u g (sync_admin bot u g s) = sync_admin bot u g s.
Proof.
  unfold sync_admin at 1. rewrite account_sync.
  rewrite decide_True by done.
  destruct (is_admin (account_or_new s u g)) eqn:Ha; [by rewrite Ha|].
  destruct (discord_administrator bot u g) eqn:Hd; [|by rewrite Ha].
  destruct (user_economy s !! (u, g)) as [r|] eqn:Hr; simpl; [done|].
  unfold sync_admin. rewrite Ha, Hd.
  unfold set_user_economy; simpl.
  assert (alter (with_is_admin true) (u, g) (user_economy s) = user_economy s)
    as Hid; [|by rewrite !Hid].
  apply map_eq. intros k. rewrite lookup_alter.
  case_decide; [subst k; by rewrite Hr|done].
Qed.

(** Running the balance engine after the caller has already read the balance
    and the ceiling is the same as running it at once. *)
Lemma update_user_balance_after_reads s now u g d desc :
  update_user_balance bot now u g d desc (sync_admin bot u g (touch u g s))
  = update_user_balance bot now u g d desc s.
Proof.
  rewrite !update_user_balance_run. cbv zeta.
  rewrite touch_sync_touch, sync_idempotent, ceiling_sync, ceiling_touch.
  destruct (counters_sync_touch bot s u g) as [He Hs].
  pose proof (gold_sync bot (touch u g s) u g u g) as Hg.
  rewrite gold_touch in Hg. unfold balance_of in Hg.
  unfold earned_after, spent_after. by rewrite He, Hs, Hg.
Qed.

(** ** The quota window *)

Lemma get_week_start_eq now :
  get_week_start now = now - weekday now * usec_per_day - now mod usec_per_day.
Proof.
  unfold get_week_start, timedelta, hour, minute, second, microsecond, weekday,
    usec_per_day, seconds, usec_per_second.
  Z.div_mod_to_equations. lia.
Qed.

(** The window opens on a Monday, at midnight, at most a week ago. *)
Lemma get_week_start_is_last_monday now :
  weekday (get_week_start now) = 0
  /\ get_week_start now mod usec_per_day = 0
  /\ get_week_start now <= now < get_week_start now + 7 * usec_per_day.
Proof.
  rewrite get_week_start_eq.
  unfold weekday, usec_per_day, seconds, usec_per_second.
  Z.div_mod_to_equations. lia.
Qed.

(** No later Monday midnight lies in between. *)
Lemma get_week_start_most_recent now t :
  weekday t = 0 -> t mod usec_per_day = 0 -> t <= now ->
  t <= get_week_start now.
Proof.
  rewrite get_week_start_eq.
  unfold weekday, usec_per_day, seconds, usec_per_second.
  Z.div_mod_to_equations. lia.
Qed.

(** ** The wagering engine in closed form *)

Lemma can_gamble_weekly_run s now u g :
  can_gamble_weekly now u g s =
  let tries := tries_since u g (get_week_start now) s in
  let remaining := Z.max 0 (WEEKLY_GAMBLING_TRIES - tries) in
  ((0 <? remaining, remaining, tries), s).
Proof. done. Qed.

Lemma gamble_run s now roll u g amount game :
  gamble bot now roll u g amount game s =
  let tries := tries_since u g (get_week_start now) s in
  let remaining := Z.max 0 (WEEKLY_GAMBLING_TRIES - tries) in
  if negb (0 <? remaining) then ((false, 0, MsgQuotaExhausted), s) else
  let s2 := sync_admin bot u g (touch u g s) in
  let current := balance_of s u g in
  let cap := ceiling bot s u g in
  if amount <=? 0 then ((false, 0, MsgNotPositive), s2) else
  if current <? amount then ((false, 0, MsgInsufficient), s2) else
  if cap <=? current then ((false, 0, MsgAtCap cap), s2) else
  match play_game game roll with
  | None => ((false, 0, MsgUnknownGame), s2)
  | Some (win, multiplier) =>
      let win_amount := if win then amount * multiplier else 0 in
      let '((new_gold, capped), s3) :=
        update_user_balance bot now u g (win_amount - amount)
          (DescGamed amount game win) s in
      ((win, win_amount,
        if capped && win then MsgCapped new_gold else MsgTries (remaining - 1)),
       add_gambling_record (gamble_record now u g amount game win win_amount)
         (set_user_economy
            (alter (if win then with_win else with_loss) (u, g)) s3))
  end.
Proof.
  unfold gamble, bind. rewrite can_gamble_weekly_run. cbv zeta.
  destruct (0 <? Z.max 0 _); simpl; [|done].
  rewrite get_user_balance_run. simpl.
  rewrite get_gold_cap_run, ceiling_touch.
  fold (balance_of s u g).
  destruct (amount <=? 0); [done|].
  destruct (balance_of s u g <? amount); [done|].
  destruct (ceiling bot s u g <=? balance_of s u g); [done|].
  destruct (play_game game roll) as [[win multiplier]|]; [|done].
  rewrite update_user_balance_after_reads.
  destruct (update_user_balance _ _ _ _ _ _ s) as [[new_gold capped] s3].
  unfold execute, ret, gamble_record.
  by destruct win, capped.
Qed.

Lemma quota_open_iff tries :
  (0 <? Z.max 0 (WEEKLY_GAMBLING_TRIES - tries)) = true
  <-> tries < WEEKLY_GAMBLING_TRIES.
Proof. rewrite Z.ltb_lt. unfold WEEKLY_GAMBLING_TRIES. lia. Qed.

Lemma tries_window_agree u g week_start now s :
  (forall x, x ∈ gambling_records s -> gr_timestamp x < now) ->
  tries_since u g week_start s = tries_in_window u g week_start now s.
Proof.
  unfold tries_since, tries_in_window. intros Hpast. do 2 f_equal.
  induction (gambling_records s) as [|x l IH]; [done|].
  assert (Hx : gr_timestamp x < now) by (apply Hpast; left).
  assert (Hl : forall y, y ∈ l -> gr_timestamp y < now)
    by (intros y Hy; apply Hpast; by right).
  rewrite !filter_cons, (IH Hl).
  destruct (decide (gr_user x = u /\ gr_guild x = g
                    /\ week_start <= gr_timestamp x)) as [HP|HP];
  destruct (decide (gr_user x = u /\ gr_guild x = g
                    /\ week_start <= gr_timestamp x < now)) as [HQ|HQ];
    try done; exfalso.
  - apply HQ. destruct HP as (? & ? & ?). repeat split; done.
  - apply HP. destruct HQ as (? & ? & ? & ?). repeat split; done.
Qed.

(** ** Wagering: refusals *)


(** ** Wagering: the game table *)

Lemma Qltb_lt x y : Qltb x y = true <-> (x < y)%Q.
Proof.
  unfold Qltb. rewrite negb_true_iff. split.
  - intros H. apply Qnot_le_lt. intros Hle.
    apply Qle_bool_iff in Hle. congruence.
  - intros H. destruct (Qle_bool y x) eqn:E; [|done].
    apply Qle_bool_iff in E. exfalso. by apply (Qlt_not_le x y).
Qed.

Lemma Qltb_ge x y : Qltb x y = false <-> (y <= x)%Q.
Proof.
  unfold Qltb. rewrite negb_false_iff. apply Qle_bool_iff.
Qed.

Lemma play_game_dice roll :
  play_game "dice" roll
  = Some (Qltb roll (1 # 2), if Qltb roll (1 # 2) then 2 else 0).
Proof.
  unfold play_game. simpl.
  assert (Qltb roll (5 # 10) = Qltb roll (1 # 2)) as ->; [|done].
  unfold Qltb, Qle_bool; simpl. f_equal.
  destruct (Z.leb_spec (5 * QDen roll) (Qnum roll * 10));
    destruct (Z.leb_spec (1 * QDen roll) (Qnum roll * 2)); try done; lia.
Qed.

Lemma play_game_coin roll :
  play_game "coin" roll
  = Some (Qltb roll (48 # 100), if Qltb roll (48 # 100) then 2 else 0).
Proof. done. Qed.

Lemma play_game_slots roll :
  play_game "slots" roll =
  Some (if Qltb roll (5 # 100) then (true, 10)
        else if Qltb roll (15 # 100) then (true, 3)
        else if Qltb roll (45 # 100) then (true, 2)
        else (false, 0)).
Proof.
  unfold play_game. simpl.
  by repeat destruct (Qltb roll _).
Qed.

Lemma play_game_unknown game roll :
  game <> "dice" -> game <> "coin" -> game <> "slots" ->
  play_game game roll = None.
Proof.
  intros H1 H2 H3. unfold play_game.
  apply String.eqb_neq in H1, H2, H3. by rewrite H1, H2, H3.
Qed.

(** The table of [gamble], by intervals of the roll. *)
Lemma play_game_table roll :
  ((roll < 1 # 2)%Q -> play_game "dice" roll = Some (true, 2))
  /\ ((1 # 2 <= roll)%Q -> play_game "dice" roll = Some (false, 0))
  /\ ((roll < 48 # 100)%Q -> play_game "coin" roll = Some (true, 2))
  /\ ((48 # 100 <= roll)%Q -> play_game "coin" roll = Some (false, 0))
  /\ ((roll < 5 # 100)%Q -> play_game "slots" roll = Some (true, 10))
  /\ ((5 # 100 <= roll)%Q -> (roll < 15 # 100)%Q ->
      play_game "slots" roll = Some (true, 3))
  /\ ((15 # 100 <= roll)%Q -> (roll < 45 # 100)%Q ->
      play_game "slots" roll = Some (true, 2))
  /\ ((45 # 100 <= roll)%Q -> play_game "slots" roll = Some (false, 0)).
Proof.
  rewrite play_game_dice, play_game_coin, play_game_slots.
  repeat apply conj; intros;
    repeat match goal with
    | H : (_ < _)%Q |- _ => apply Qltb_lt in H; rewrite ?H; clear H
    | H : (_ <= _)%Q |- _ => apply Qltb_ge in H
    end;
    repeat match goal with H : Qltb roll _ = false |- _ => rewrite H end;
    try reflexivity.
  - destruct (Qltb roll (5 # 100)) eqn:E; [|done].
    apply Qltb_lt in E. apply Qltb_ge in H.
    exfalso. apply (Qlt_not_le roll (5 # 100)); [done|].
    eapply Qle_trans; [|exact H]. by unfold Qle.
  - destruct (Qltb roll (5 # 100)) eqn:E1.
    { apply Qltb_lt in E1. apply Qltb_ge in H. exfalso.
      apply (Qlt_not_le roll (5 # 100)); [done|].
      eapply Qle_trans; [|exact H]. by unfold Qle. }
    destruct (Qltb roll (15 # 100)) eqn:E2; [|done].
    apply Qltb_lt in E2. apply Qltb_ge in H. exfalso.
    apply (Qlt_not_le roll (15 # 100)); [done|].
    eapply Qle_trans; [|exact H]. by unfold Qle.
Qed.

Lemma balance_after_stats (f : Account -> Account) rec s u g u' g' :
  (forall a, gold (f a) = gold a) ->
  balance_of (add_gambling_record rec
                (set_user_economy (alter f (u, g)) s)) u' g'
  = balance_of s u' g'.
Proof.
  intros Hf. unfold balance_of, account_or_new; simpl.
  rewrite lookup_alter. case_decide as E; [|done].
  inversion E; subst u' g'.
  destruct (user_economy s !! (u, g)); simpl; [apply Hf|done].
Qed.

(** ** Wagering: outcome of a valid wager *)


(** ** Wagering: a win clamped by the ceiling *)


End Wagering.

Section Payments.

Variable bot : Bot.

Lemma transfer_gold_run s now sender receiver g amount :
  transfer_gold bot now sender receiver g amount s =
  let s3 := sync_admin bot receiver g (touch receiver g (touch sender g s)) in
  let sender_gold := balance_of s sender g in
  let receiver_gold := balance_of s receiver g in
  let receiver_cap := ceiling bot s receiver g in
  if amount <=? 0 then ((false, PayNotPositive), s3) else
  if sender_gold <? amount then ((false, PayInsufficient), s3) else
  if sender =? receiver then ((false, PaySelf), s3) else
  if receiver_cap <? receiver_gold + amount
  then ((false, PayOverCap receiver_cap), s3) else
  ((true, PayDone),
   after (update_user_balance bot now receiver g amount
            (DescReceived amount sender))
     (after (update_user_balance bot now sender g (- amount)
               (DescPaid amount receiver)) s3)).
Proof.
  unfold transfer_gold, bind. rewrite get_user_balance_run. simpl.
  rewrite get_user_balance_run. simpl.
  rewrite get_gold_cap_run, account_touch, !ceiling_touch.
  fold (balance_of s sender g) (balance_of s receiver g).
  destruct (amount <=? 0); [done|].
  destruct (balance_of s sender g <? amount); [done|].
  destruct (sender =? receiver); [done|].
  destruct (ceiling bot s receiver g <? balance_of s receiver g + amount);
    [done|].
  unfold after.
  destruct (update_user_balance bot now sender g _ _ _) as [[n1 c1] s4].
  simpl.
  by destruct (update_user_balance bot now receiver g _ _ _) as [[n2 c2] s5].
Qed.

(** ** Payments: a receiver at the ceiling *)

(** C10.  When the receiver's balance plus the amount exceeds the receiver's
    ceiling, [transfer_gold] refuses with a reason and leaves every balance,
    counter and log as it was; when the earlier checks pass, the reason is
    the one naming the receiver's ceiling. *)
Theorem transfer_over_ceiling_is_refused s now sender receiver g amount :
  ceiling bot s receiver g < balance_of s receiver g + amount ->
  let r := result (transfer_gold bot now sender receiver g amount) s in
  let s' := after (transfer_gold bot now sender receiver g amount) s in
  fst r = false
  /\ snd r <> PayDone
  /\ same_ledger s s'
  /\ balance_of s' sender g = balance_of s sender g
  /\ balance_of s' receiver g = balance_of s receiver g
  /\ (0 < amount -> amount <= balance_of s sender g -> sender <> receiver ->
      r = (false, PayOverCap (ceiling bot s receiver g))).
Proof.
  intros Hover. cbv zeta. unfold result, after.
  rewrite transfer_gold_run. cbv zeta.
  assert (Hs3 : same_ledger s
    (sync_admin bot receiver g (touch receiver g (touch sender g s)))).
  { eapply same_ledger_trans; [apply same_ledger_touch|].
    eapply same_ledger_trans; [apply same_ledger_touch|].
    apply same_ledger_sync. }
  pose proof (same_ledger_balance _ _ sender g Hs3) as Hb1.
  pose proof (same_ledger_balance _ _ receiver g Hs3) as Hb2.
  destruct (Z.leb_spec amount 0); simpl.
  { do 5 (split; [done|]). intros; lia. }
  destruct (Z.ltb_spec (balance_of s sender g) amount); simpl.
  { do 5 (split; [done|]). intros; lia. }
  destruct (Z.eqb_spec sender receiver); simpl.
  { do 5 (split; [done|]). done. }
  destruct (Z.ltb_spec (ceiling bot s receiver g)
              (balance_of s receiver g + amount)); simpl; [|lia].
  do 5 (split; [done|]). done.
Qed.

End Payments.

Section Sampling.

(** ** Drawing without replacement *)

(** One step of the pool: the element drawn, followed by the live part of the
    pool after the step, is a rearrangement of the pool before it. *)
Lemma pool_step (pool : list Z) j x y :
  pool !! j = Some x ->
  pool !! (length pool - 1)%nat = Some y ->
  pool ≡ₚ x :: take (length pool - 1)%nat (<[j := y]> pool).
Proof.
  destruct pool as [|a pool'] using rev_ind; [done|]. clear IHpool'.
  rewrite length_app. simpl.
  replace (length pool' + 1 - 1)%nat with (length pool') by lia.
  rewrite (list_lookup_middle pool' [] a (length pool')) by done.
  intros Hx [= ->].
  destruct (decide (j < length pool')%nat) as [Hlt|Hge].
  - rewrite lookup_app_l in Hx by done.
    rewrite insert_app_l by done.
    rewrite take_app_length' by (by rewrite length_insert).
    rewrite insert_take_drop by done.
    rewrite <- Permutation_cons_append.
    etrans; [apply perm_skip, (delete_Permutation pool' j x Hx)|].
    rewrite delete_take_drop.
    etrans; [apply perm_swap|]. apply perm_skip, Permutation_middle.
  - assert (j = length pool') as ->.
    { apply lookup_lt_Some in Hx. rewrite length_app in Hx. simpl in Hx. lia. }
    rewrite list_lookup_middle in Hx by done. injection Hx as ->.
    rewrite list_insert_id by (by rewrite list_lookup_middle).
    rewrite take_app_length. by rewrite <- Permutation_cons_append.
Qed.

(** [random_sample] returns [k] elements and leaves the rest of the
    population: the sample is drawn without replacement. *)
Lemma random_sample_spec k : forall (pool : list Z) draws,
  (k <= length pool)%nat ->
  length (random_sample pool k draws) = k
  /\ exists rest, pool ≡ₚ random_sample pool k draws ++ rest.
Proof.
  induction k as [|k IH]; intros pool draws Hk; simpl.
  - split; [done|]. by exists pool.
  - assert (Hj : (hd 0%nat draws mod length pool < length pool)%nat)
      by (apply Nat.mod_upper_bound; lia).
    destruct (lookup_lt_is_Some_2 pool _ Hj) as [x Hx].
    assert (Hlast : (length pool - 1 < length pool)%nat) by lia.
    destruct (lookup_lt_is_Some_2 pool _ Hlast) as [y Hy].
    rewrite Hx, Hy. simpl.
    pose proof (pool_step pool _ x y Hx Hy) as Hperm.
    destruct (IH (take (length pool - 1)%nat
                    (<[(hd 0 draws mod length pool)%nat := y]> pool))
                (tl draws)) as [Hlen [rest Hrest]].
    { rewrite length_take, length_insert. lia. }
    split; [by rewrite Hlen|].
    exists rest. by rewrite <- Hrest.
Qed.

Lemma random_sample_length pool k draws :
  (k <= length pool)%nat -> length (random_sample pool k draws) = k.
Proof. intros H. by apply random_sample_spec. Qed.

Lemma random_sample_subset pool k draws x :
  (k <= length pool)%nat -> x ∈ random_sample pool k draws -> x ∈ pool.
Proof.
  intros H Hx. destruct (random_sample_spec k pool draws H) as [_ [rest Hp]].
  rewrite Hp. apply elem_of_app. by left.
Qed.

(** Distinct entrants give distinct winners. *)
Lemma random_sample_NoDup pool k draws :
  (k <= length pool)%nat -> NoDup pool -> NoDup (random_sample pool k draws).
Proof.
  intros H Hnd. destruct (random_sample_spec k pool draws H) as [_ [rest Hp]].
  rewrite Hp in Hnd. by apply NoDup_app in Hnd as [? _].
Qed.

Lemma pool_step_NoDup (pool : list Z) j x y :
  NoDup pool ->
  pool !! j = Some x ->
  pool !! (length pool - 1)%nat = Some y ->
  let pool' := take (length pool - 1)%nat (<[j := y]> pool) in
  (x ∉ pool') /\ NoDup pool'
  /\ (forall z, z ∈ pool -> (z = x) \/ (z ∈ pool')).
Proof.
  intros Hnd Hx Hy. cbv zeta.
  pose proof (pool_step pool j x y Hx Hy) as Hp.
  rewrite Hp in Hnd. apply NoDup_cons in Hnd as [Hnot Hnd].
  repeat split; try done.
  intros z Hz. rewrite Hp in Hz. by apply elem_of_cons in Hz.
Qed.

(** Every arrangement of [k] distinct elements of the population is the
    sample of exactly one valid sequence of draws: uniform draws give
    uniformly distributed samples. *)
Lemma random_sample_uniform k : forall (pool w : list Z),
  NoDup pool -> length w = k -> NoDup w -> (forall x, x ∈ w -> x ∈ pool) ->
  exists draws,
    (length draws = k /\ valid_draws (length pool) draws
     /\ random_sample pool k draws = w)
    /\ forall draws',
         length draws' = k -> valid_draws (length pool) draws' ->
         random_sample pool k draws' = w -> draws' = draws.
Proof.
  induction k as [|k IH]; intros pool w Hnd Hlen Hw Hsub.
  - destruct w; [|done]. exists []. repeat split; try done.
    intros draws' Hl _ _. by destruct draws'.
  - destruct w as [|x w]; [done|]. simpl in Hlen.
    apply NoDup_cons in Hw as [Hxw Hw].
    assert (Hxin : x ∈ pool) by (apply Hsub; left).
    apply list_elem_of_lookup in Hxin as [j Hj].
    pose proof (lookup_lt_Some _ _ _ Hj) as Hjn.
    assert (Hlast : (length pool - 1 < length pool)%nat) by lia.
    destruct (lookup_lt_is_Some_2 pool _ Hlast) as [y Hy].
    destruct (pool_step_NoDup pool j x y Hnd Hj Hy) as (Hnot & Hnd' & Hsplit).
    destruct (IH (take (length pool - 1)%nat (<[j := y]> pool)) w)
      as (draws & (Hdl & Hdv & Hds) & Huniq); try done; try lia.
    { intros z Hz. destruct (Hsplit z) as [->|Hin]; try done.
      apply Hsub. by right. }
    rewrite length_take, length_insert in Hdv.
    replace ((length pool - 1) `min` length pool)%nat
      with (length pool - 1)%nat in Hdv by lia.
    exists (j :: draws). split.
    + repeat split; simpl; try done; try lia.
      rewrite Nat.mod_small by done. by rewrite Hj, Hy, Hds.
    + intros draws' Hl' Hv' Hs'.
      destruct draws' as [|d draws']; [done|].
      simpl in Hl', Hv', Hs'. destruct Hv' as [Hd Hv'].
      rewrite Nat.mod_small in Hs' by done.
      destruct (lookup_lt_is_Some_2 pool d Hd) as [x' Hx'].
      rewrite Hx', Hy in Hs'. injection Hs' as -> Hs'.
      assert (d = j) as -> by exact (NoDup_lookup pool d j x Hnd Hx' Hj).
      f_equal. apply Huniq; try done; try lia.
      rewrite length_take, length_insert.
      by replace ((length pool - 1) `min` length pool)%nat
        with (length pool - 1)%nat by lia.
Qed.

End Sampling.

Section Tournaments.

Variable bot : Bot.

(** ** The balance engine leaves the tournament tables alone *)

Lemma sync_admin_giveaways s u g :
  active_giveaways (sync_admin bot u g s) = active_giveaways s
  /\ giveaway_entries (sync_admin bot u g s) = giveaway_entries s.
Proof.
  unfold sync_admin. destruct (is_admin _); [done|].
  by destruct (discord_administrator bot u g).
Qed.

Lemma update_user_balance_giveaways s now u g d desc :
  active_giveaways (after (update_user_balance bot now u g d desc) s)
    = active_giveaways s
  /\ giveaway_entries (after (update_user_balance bot now u g d desc) s)
    = giveaway_entries s.
Proof.
  unfold after. rewrite update_user_balance_run. simpl.
  apply (sync_admin_giveaways (touch u g s)).
Qed.

Lemma award_prizes_step s now g prize id w ws :
  after (award_prizes bot now g prize id (w :: ws)) s
  = after (award_prizes bot now g prize id ws)
      (after (update_user_balance bot now w g prize (DescWonTournament id)) s).
Proof. simpl. by rewrite after_bind. Qed.

Lemma award_prizes_giveaways now g prize id ws : forall s,
  active_giveaways (after (award_prizes bot now g prize id ws) s)
    = active_giveaways s
  /\ giveaway_entries (after (award_prizes bot now g prize id ws) s)
    = giveaway_entries s.
Proof.
  induction ws as [|w ws IH]; intros s; [done|].
  rewrite award_prizes_step.
  destruct (IH (after (update_user_balance bot now w g prize
                         (DescWonTournament id)) s)) as [-> ->].
  apply update_user_balance_giveaways.
Qed.

(** With distinct winners, each winner's balance rises by the prize, up to
    the ceiling, and nobody else's balance moves. *)
Lemma award_prizes_balances now g prize id ws : forall s,
  NoDup ws ->
  forall u g',
    balance_of (after (award_prizes bot now g prize id ws) s) u g'
    = if decide (u ∈ ws /\ g' = g)
      then clamp (ceiling bot s u g') (balance_of s u g' + prize)
      else balance_of s u g'.
Proof.
  induction ws as [|w ws IH]; intros s Hnd u g'.
  - destruct (decide (u ∈ [] /\ g' = g)) as [[H _]|_]; [|done].
    by apply elem_of_nil in H.
  - apply NoDup_cons in Hnd as [Hw Hnd].
    rewrite award_prizes_step, IH by done.
    rewrite update_user_balance_ceiling.
    destruct (decide ((w, g) = (u, g'))) as [E|Hne].
    + inversion E; subst u g'.
      rewrite decide_False by (by intros [? _]).
      rewrite decide_True by (split; [left|done]).
      apply update_user_balance_gold.
    + assert (Hb : balance_of
                (after (update_user_balance bot now w g prize
                          (DescWonTournament id)) s) u g' = balance_of s u g').
      { unfold balance_of. by rewrite update_user_balance_other. }
      rewrite Hb.
      destruct (decide (u ∈ ws /\ g' = g)) as [[Hin ->]|Hout].
      * rewrite decide_True; [done|]. split; [by right|done].
      * rewrite decide_False; [done|]. intros [Hin ->].
        apply elem_of_cons in Hin as [->|Hin]; [done|]. by apply Hout.
Qed.

(** ** The end of a tournament in closed form *)

Lemma end_giveaway_run s now draws id :
  end_giveaway bot now draws id s =
  match active_giveaways s !! id with
  | Some giveaway =>
      match gw_status giveaway with
      | active =>
          match entries_of id s with
          | [] => (Some ([], giveaway), mark_ended id s)
          | _ :: _ =>
              let winner_count :=
                Z.min (gw_winner_count giveaway)
                      (Z.of_nat (length (entries_of id s))) in
              if winner_count <? 0 then (None, s) else
              let winners :=
                random_sample (entries_of id s) (Z.to_nat winner_count) draws in
              (Some (winners, giveaway),
               after (award_prizes bot now (gw_guild giveaway)
                        (gw_prize_amount giveaway) id winners)
                 (mark_ended id s))
          end
      | ended => (None, s)
      end
  | None => (None, s)
  end.
Proof.
  unfold end_giveaway, get_giveaway_entries, entries_of, bind, query.
  destruct (active_giveaways s !! id) as [giveaway|]; [|done].
  destruct (gw_status giveaway); [|done].
  destruct (snd <$> filter _ (giveaway_entries s)) as [|e entries]; [done|].
  cbv zeta. destruct (_ <? 0); [done|].
  unfold execute, after, mark_ended.
  by destruct (award_prizes _ _ _ _ _ _ _).
Qed.

Lemma mark_ended_status s id giveaway :
  active_giveaways s !! id = Some giveaway ->
  active_giveaways (mark_ended id s) !! id = Some (end_status giveaway).
Proof.
  intros H. unfold mark_ended, set_active_giveaways; simpl.
  by rewrite lookup_alter_eq, H.
Qed.

(** ** Entries are unique per tournament and subject *)

Lemma enter_giveaway_keeps_entries_unique id u s :
  NoDup (giveaway_entries s) ->
  NoDup (giveaway_entries (after (enter_giveaway id u) s)).
Proof.
  intros Hnd. unfold enter_giveaway, after, bind, query, execute, ret.
  case_bool_decide as Hin; simpl; [done|].
  apply NoDup_app. repeat split; [done| |apply NoDup_singleton].
  intros x Hx Hx'. apply list_elem_of_singleton in Hx'. by subst x.
Qed.

Lemma entries_of_NoDup id s :
  NoDup (giveaway_entries s) -> NoDup (entries_of id s).
Proof.
  intros Hnd. unfold entries_of.
  apply NoDup_fmap_2_strong; [|by apply NoDup_filter].
  intros [a b] [c d] H1 H2 Heq.
  apply list_elem_of_filter in H1 as [H1 _], H2 as [H2 _].
  simpl in *. congruence.
Qed.

(** ** Tournaments: the end of a drawing *)


(** ** Tournaments: creation *)

Lemma next_giveaway_id_fresh s :
  active_giveaways s !! next_giveaway_id s = None.
Proof.
  unfold next_giveaway_id.
  assert (H : forall k, is_Some (active_giveaways s !! k) ->
              k <= map_fold (fun id _ top => Z.max id top) 0 (active_giveaways s)).
  { apply (map_fold_weak_ind
      (fun top (m : gmap Z Giveaway) => forall k, is_Some (m !! k) -> k <= top)).
    - intros k [x Hx]. by rewrite lookup_empty in Hx.
    - intros i x m r Hi IH k Hk. rewrite lookup_insert in Hk.
      case_decide; [subst; lia|]. specialize (IH k Hk). lia. }
  destruct (active_giveaways s !! _) eqn:E; [|done].
  specialize (H _ (mk_is_Some _ _ E)). lia.
Qed.

Lemma tournament_cmd_run s now permitted author g channel message
    duration winners prize :
  tournament_cmd bot now permitted author g channel message duration winners
    prize s =
  if negb permitted then (TourNoPermission, s) else
  if (duration <? 5) || (1440 <? duration) then (TourBadDuration, s) else
  if (winners <? 1) || (10 <? winners) then (TourBadWinners, s) else
  if prize <? 1 then (TourBadPrize, s) else
  let host_gold := balance_of s author g in
  let total_prize := prize * winners in
  if host_gold <? total_prize
  then (TourLacksGold total_prize host_gold, touch author g s) else
  let s2 :=
    set_active_giveaways
      (insert (next_giveaway_id s)
         (new_giveaway now author g channel message duration winners prize))
      (touch author g s) in
  (TourCreated,
   after (update_user_balance bot now author g (- total_prize)
            DescFundedTournament) s2).
Proof.
  unfold tournament_cmd.
  destruct (negb permitted); [done|].
  destruct (_ || _); [done|]. destruct (_ || _); [done|].
  destruct (prize <? 1); [done|].
  unfold bind. rewrite get_user_balance_run. simpl.
  fold (balance_of s author g).
  destruct (balance_of s author g <? prize * winners); [done|].
  unfold after, new_giveaway.
  by destruct (update_user_balance _ _ _ _ _ _ _) as [[n c] s3].
Qed.


End Tournaments.

(** ** The monthly bounty bypasses the ceiling *)


(** ** The daily stipend never starts its cooldown *)

(** C2, failing run.  A subject claims the daily stipend at instant 1000; the
    claim succeeds, [daily_claimed] is still unset, [can_claim_daily] one
    microsecond later answers yes and a second claim succeeds at once. *)
Theorem daily_claim_leaves_no_cooldown :
  let s1 := after (claim_daily no_discord 1000 5 1 1) empty_store in
  let s2 := after (claim_daily no_discord 1001 5 1 1) s1 in
  result (claim_daily no_discord 1000 5 1 1) empty_store = (true, 5)
  /\ daily_claimed (account_or_new s1 1 1) = None
  /\ result (can_claim_daily 1001 1 1) s1 = true
  /\ result (claim_daily no_discord 1001 5 1 1) s1 = (true, 5)
  /\ balance_of s2 1 1 = 110.
Proof. vm_compute. by repeat split. Qed.

(** ** Funding a tournament from a purse above the ceiling *)


(** ** The flag and the payout under clamping *)




(** Subject 2 pays 20 billion to subject 1, who already holds 40 billion
    under a ceiling of 50 billion: the payment is refused and both purses
    keep their 40 billion. *)
Lemma transfer_over_ceiling_witness :
  let r := result (transfer_gold no_discord 0 2 1 1 20000000000)
             two_rich_store in
  let s' := after (transfer_gold no_discord 0 2 1 1 20000000000)
              two_rich_store in
  fst r = false
  /\ snd r <> PayDone
  /\ same_ledger two_rich_store s'
  /\ balance_of s' 2 1 = balance_of two_rich_store 2 1
  /\ balance_of s' 1 1 = balance_of two_rich_store 1 1
  /\ (0 < 20000000000 -> 20000000000 <= balance_of two_rich_store 2 1 ->
      2 <> 1 ->
      r = (false, PayOverCap (ceiling no_discord two_rich_store 1 1))).
Proof.
  apply (transfer_over_ceiling_is_refused no_discord two_rich_store 0 2 1 1
           20000000000).
  by vm_compute.
Defined.

(** ** Worked runs *)

Example week_start_of_a_wednesday : get_week_start wednesday = monday.
Proof. reflexivity. Qed.

Example week_start_of_a_monday : get_week_start monday = monday.
Proof. reflexivity. Qed.


Example gamble_after_the_week_turns :
  result (gamble no_discord next_monday 0 1 1 10 "dice") (quota_store monday)
  = (true, 20, MsgTries 29).
Proof. reflexivity. Qed.

(** A second entry of the same subject is turned down. *)
Example enter_twice :
  result (enter_giveaway 1 11) festival_store = false
  /\ after (enter_giveaway 1 11) festival_store = festival_store.
Proof. by vm_compute. Qed.

(** Two of five entrants win 100 each; the tournament is then ended and a
    second call does nothing. *)
Example end_festival :
  let s' := after (end_giveaway no_discord next_monday [3; 1]%nat 1)
              festival_store in
  fst <$> result (end_giveaway no_discord next_monday [3; 1]%nat 1)
            festival_store = Some [14; 12]
  /\ balance_of s' 14 1 = 200 /\ balance_of s' 12 1 = 200
  /\ balance_of s' 11 1 = 100
  /\ gw_status <$> active_giveaways s' !! 1 = Some ended
  /\ end_giveaway no_discord next_monday [0; 0]%nat 1 s' = (None, s').
Proof. by vm_compute. Qed.





(** An administrator who has no account row yet is granted the bounty, but
    nothing is credited and no cooldown starts. *)
Example bounty_without_a_row :
  let s' := after (claim_admin_monthly_bonus one_admin 0 7 1) empty_store in
  result (claim_admin_monthly_bonus one_admin 0 7 1) empty_store
    = (true, ADMIN_MONTHLY_BONUS, BountyGranted)
  /\ user_economy s' !! (7, 1) = None
  /\ result (can_claim_admin_monthly 1 7 1) s' = true.
Proof. by vm_compute. Qed.

(** * Commands and further operations: properties *)

Section PaymentsDone.

Variable bot : Bot.

(** ** Payments that go through *)

Lemma ceiling_before_transfer s sender receiver g u g' :
  ceiling bot (sync_admin bot receiver g (touch receiver g (touch sender g s)))
    u g' = ceiling bot s u g'.
Proof. by rewrite ceiling_sync, !ceiling_touch. Qed.

Lemma balance_before_transfer s sender receiver g u g' :
  balance_of (sync_admin bot receiver g (touch receiver g (touch sender g s)))
    u g' = balance_of s u g'.
Proof. by rewrite gold_sync, !gold_touch. Qed.

Lemma transactions_sync s u g :
  transactions (sync_admin bot u g s) = transactions s.
Proof.
  unfold sync_admin. destruct (is_admin _); [done|].
  by destruct (discord_administrator bot u g).
Qed.

Lemma transactions_before_transfer s sender receiver g :
  transactions (sync_admin bot receiver g (touch receiver g (touch sender g s)))
  = transactions s.
Proof. by rewrite transactions_sync. Qed.

(** The balance engine appends exactly one audit row, carrying the requested
    delta and the balance it stored. *)
Lemma update_user_balance_transactions s now u g d desc :
  transactions (after (update_user_balance bot now u g d desc) s)
  = transactions s
    ++ [balance_tx now u g d desc
          (clamp (ceiling bot s u g) (balance_of s u g + d))].
Proof.
  unfold after. rewrite update_user_balance_run. simpl.
  by rewrite transactions_sync.
Qed.

Lemma transfer_gold_success_iff s now sender receiver g amount :
  fst (result (transfer_gold bot now sender receiver g amount) s) = true
  <-> 0 < amount /\ amount <= balance_of s sender g /\ sender <> receiver
      /\ balance_of s receiver g + amount <= ceiling bot s receiver g.
Proof.
  unfold result. rewrite transfer_gold_run. cbv zeta.
  destruct (Z.leb_spec amount 0); simpl; [split; [done|lia]|].
  destruct (Z.ltb_spec (balance_of s sender g) amount); simpl;
    [split; [done|lia]|].
  destruct (Z.eqb_spec sender receiver); simpl;
    [split; [done|]; by intros (_ & _ & ? & _)|].
  destruct (Z.ltb_spec (ceiling bot s receiver g)
              (balance_of s receiver g + amount)); simpl;
    [split; [done|lia]|].
  split; [|done]. intros _. repeat split; done || lia.
Qed.


End PaymentsDone.


Section CommandGuards.

Variable bot : Bot.

(** ** The [pay] command *)

Lemma pay_cmd_run s now author member g amount :
  pay_cmd bot now author member g amount s =
  if amount <=? 0 then (PayCmdNotPositive, s) else
  if member =? author then (PayCmdSelf, s) else
  let '((success, error), s1) := transfer_gold bot now author member g amount s in
  (if success then PayCmdPaid amount else PayCmdError error, s1).
Proof.
  unfold pay_cmd, bind, ret.
  destruct (amount <=? 0); [done|]. destruct (member =? author); [done|].
  destruct (transfer_gold _ _ _ _ _ _ s) as [[success error] s1].
  by destruct success.
Qed.

(** The [pay] command turns down a non-positive sum and a payment to oneself
    before anything is read, so the store is untouched and the same two
    refusals of [transfer_gold] are never reached through it.  Otherwise it
    reports [transfer_gold]'s verdict: insufficient coin, a receiver whose
    purse would overflow (neither moves a balance), or the payment. *)
Theorem pay_cmd_guards s now author member g amount :
  let r := result (pay_cmd bot now author member g amount) s in
  let s' := after (pay_cmd bot now author member g amount) s in
  (amount <= 0 -> r = PayCmdNotPositive /\ s' = s)
  /\ (0 < amount -> member = author -> r = PayCmdSelf /\ s' = s)
  /\ (0 < amount -> member <> author -> balance_of s author g < amount ->
      r = PayCmdError PayInsufficient /\ same_ledger s s')
  /\ (0 < amount -> member <> author -> amount <= balance_of s author g ->
      ceiling bot s member g < balance_of s member g + amount ->
      r = PayCmdError (PayOverCap (ceiling bot s member g))
      /\ same_ledger s s')
  /\ (0 < amount -> member <> author -> amount <= balance_of s author g ->
      balance_of s member g + amount <= ceiling bot s member g ->
      r = PayCmdPaid amount
      /\ s' = after (transfer_gold bot now author member g amount) s)
  /\ r <> PayCmdError PayNotPositive
  /\ r <> PayCmdError PaySelf
  /\ r <> PayCmdError PayDone.
Proof.
  cbv zeta. unfold result, after. rewrite pay_cmd_run.
  destruct (Z.leb_spec amount 0); simpl.
  { split; [done|]. do 4 (split; [intros; lia|]). done. }
  destruct (Z.eqb_spec member author); simpl.
  { split; [intros; lia|]. split; [done|].
    do 3 (split; [intros; congruence|]). done. }
  rewrite transfer_gold_run. cbv zeta.
  assert (Hs3 : same_ledger s
    (sync_admin bot member g (touch member g (touch author g s)))).
  { eapply same_ledger_trans; [apply same_ledger_touch|].
    eapply same_ledger_trans; [apply same_ledger_touch|].
    apply same_ledger_sync. }
  destruct (Z.leb_spec amount 0); [lia|].
  destruct (Z.ltb_spec (balance_of s author g) amount); simpl.
  { split; [intros; lia|]. split; [intros; congruence|].
    split; [done|]. do 2 (split; [intros; lia|]). done. }
  destruct (Z.eqb_spec author member); [congruence|].
  destruct (Z.ltb_spec (ceiling bot s member g)
              (balance_of s member g + amount)); simpl.
  { split; [intros; lia|]. split; [intros; congruence|].
    split; [intros; lia|]. split; [done|]. split; [intros; lia|]. done. }
  split; [intros; lia|]. split; [intros; congruence|].
  do 2 (split; [intros; lia|]). split; [|done].
  intros _ _ _ _. split; [done|].
  destruct (Z.ltb_spec (balance_of s author g) amount); [lia|].
  destruct (Z.eqb_spec author member); [congruence|].
  by destruct (Z.ltb_spec (ceiling bot s member g)
              (balance_of s member g + amount)); [lia|].
Qed.

(** ** The [wager] command *)

Lemma valid_games_cases game :
  game ∈ valid_games -> game = "dice" \/ game = "coin" \/ game = "slots".
Proof.
  unfold valid_games. intros H.
  repeat (apply elem_of_cons in H as [->|H]; [by auto|]).
  by apply elem_of_nil in H.
Qed.

Lemma play_game_valid game roll :
  game ∈ valid_games ->
  exists win multiplier,
    play_game game roll = Some (win, multiplier)
    /\ (win = true -> 2 <= multiplier) /\ (win = false -> multiplier = 0).
Proof.
  intros H. apply valid_games_cases in H as [->|[->| ->]].
  - rewrite play_game_dice. destruct (Qltb roll (1 # 2));
      eexists _, _; (split; [done|]); split; intros; done || lia.
  - rewrite play_game_coin. destruct (Qltb roll (48 # 100));
      eexists _, _; (split; [done|]); split; intros; done || lia.
  - rewrite play_game_slots.
    destruct (Qltb roll (5 # 100)); [|destruct (Qltb roll (15 # 100));
      [|destruct (Qltb roll (45 # 100))]];
      eexists _, _; (split; [done|]); split; intros; done || lia.
Qed.

Lemma wager_cmd_run s now roll author g amount game :
  wager_cmd bot now roll author g amount game s =
  if negb (bool_decide (game ∈ valid_games)) then (WagerInvalidGame, s) else
  if amount <=? 0 then (WagerNotPositive, s) else
  let tries := tries_since author g (get_week_start now) s in
  if negb (0 <? Z.max 0 (WEEKLY_GAMBLING_TRIES - tries))
  then (WagerLimitReached tries, s) else
  let '((win, win_amount, tries_info), s1) :=
    gamble bot now roll author g amount game s in
  (if (win_amount =? 0) && starts_with_exhausted tries_info
   then WagerExhausted tries_info
   else if win then WagerVictory win_amount (win_amount - amount) tries_info
        else WagerDefeat amount tries_info, s1).
Proof.
  unfold wager_cmd, bind, ret.
  destruct (negb _); [done|]. destruct (amount <=? 0); [done|].
  rewrite can_gamble_weekly_run. cbv beta iota zeta.
  destruct (negb _); [done|].
  destruct (gamble _ _ _ _ _ _ _ s) as [[[win win_amount] info] s1].
  destruct (_ && _); [done|]. by destruct win.
Qed.



End CommandGuards.


Section Plays.

Variable bot : Bot.

(** ** What one played wager leaves behind *)

(** Apart from the cached flag, the balance engine changes the account it is
    called for by [with_gold] and no other account. *)
Lemma update_user_balance_view s now u g d desc u' g' :
  with_is_admin false
    (account_or_new (after (update_user_balance bot now u g d desc) s) u' g')
  = if decide ((u, g) = (u', g'))
    then with_gold (clamp (ceiling bot s u g) (balance_of s u g + d))
           (earned_after (account_or_new s u g) d)
           (spent_after (account_or_new s u g) d)
           (with_is_admin false (account_or_new s u g))
    else with_is_admin false (account_or_new s u' g').
Proof.
  case_decide as E.
  - inversion E; subst u' g'. rewrite update_user_balance_account.
    pose proof (view_sync bot (touch u g s) u g u g) as H.
    rewrite account_touch in H.
    change (with_is_admin false (with_gold ?a ?b ?c ?x))
      with (with_gold a b c (with_is_admin false x)).
    by rewrite H.
  - by rewrite update_user_balance_other.
Qed.

Lemma update_user_balance_wagers s now u g d desc :
  gambling_records (after (update_user_balance bot now u g d desc) s)
    = gambling_records s
  /\ forall u' g',
       gamble_wins (account_or_new
                      (after (update_user_balance bot now u g d desc) s) u' g')
         = gamble_wins (account_or_new s u' g')
       /\ gamble_losses (account_or_new
                           (after (update_user_balance bot now u g d desc) s)
                           u' g')
         = gamble_losses (account_or_new s u' g').
Proof.
  split.
  - unfold after. rewrite update_user_balance_run. simpl.
    unfold sync_admin. destruct (is_admin _); [done|].
    by destruct (discord_administrator bot u g).
  - intros u' g'.
    pose proof (update_user_balance_view s now u g d desc u' g') as H.
    split.
    + change (gamble_wins ?a) with (gamble_wins (with_is_admin false a)).
      rewrite H. by case_decide as E; [inversion E; subst|].
    + change (gamble_losses ?a) with (gamble_losses (with_is_admin false a)).
      rewrite H. by case_decide as E; [inversion E; subst|].
Qed.

Lemma tries_since_app u g week_start s rec :
  tries_since u g week_start (add_gambling_record rec s)
  = tries_since u g week_start s
    + (if decide (gr_user rec = u /\ gr_guild rec = g
                  /\ week_start <= gr_timestamp rec) then 1 else 0).
Proof.
  unfold tries_since, add_gambling_record; simpl.
  rewrite filter_app, length_app, filter_cons, filter_nil.
  case_decide; simpl; lia.
Qed.


End Plays.


Section Entering.

Variable bot : Bot.

(** ** Entering a tournament *)

Lemma elem_of_entries_of id u s :
  u ∈ entries_of id s <-> (id, u) ∈ giveaway_entries s.
Proof.
  unfold entries_of. rewrite list_elem_of_fmap. split.
  - intros [[i v] [-> H]]. apply list_elem_of_filter in H as [Hi H].
    simpl in *. by subst i.
  - intros H. exists (id, u). split; [done|]. by apply list_elem_of_filter.
Qed.

Lemma enter_giveaway_run id u s :
  enter_giveaway id u s =
  if bool_decide (u ∈ entries_of id s) then (false, s)
  else (true, add_giveaway_entry (id, u) s).
Proof.
  unfold enter_giveaway, bind, query, execute, ret.
  rewrite (bool_decide_ext _ _ (elem_of_entries_of id u s)).
  by case_bool_decide.
Qed.

Lemma entries_of_add id id' u s :
  entries_of id' (add_giveaway_entry (id, u) s)
  = entries_of id' s ++ (if decide (id = id') then [u] else []).
Proof.
  unfold entries_of, add_giveaway_entry; simpl.
  rewrite filter_app, fmap_app. f_equal.
  rewrite filter_cons. simpl. by repeat case_decide.
Qed.

Lemma entered_after_enter id u s :
  u ∈ entries_of id (after (enter_giveaway id u) s).
Proof.
  unfold after. rewrite enter_giveaway_run.
  case_bool_decide as Hin; simpl; [done|].
  rewrite entries_of_add, decide_True by done.
  apply elem_of_app. right. by left.
Qed.


(** ** Finding the tournament of a message *)

Lemma active_giveaway_by_message_Some m s id g :
  active_giveaway_by_message m s = Some (id, g) ->
  active_giveaways s !! id = Some g /\ gw_message g = m
  /\ gw_status g = active.
Proof.
  unfold active_giveaway_by_message. intros H.
  apply head_Some_elem_of in H.
  apply list_elem_of_filter in H as [[Hm Ha] Hin].
  apply elem_of_map_to_list in Hin. simpl in *.
  split; [done|]. split; [done|].
  unfold is_active in Ha. by destruct (gw_status g).
Qed.

Lemma active_giveaway_by_message_None m s :
  active_giveaway_by_message m s = None <->
  forall id g, active_giveaways s !! id = Some g -> gw_message g = m ->
               gw_status g = ended.
Proof.
  unfold active_giveaway_by_message. rewrite head_None. split.
  - intros Hnil id g Hg Hm.
    destruct (gw_status g) eqn:Hst; [|done].
    assert (Hin : (id, g) ∈ filter
              (fun row : Z * Giveaway =>
                 gw_message row.2 = m /\ is_active row.2 = true)
              (map_to_list (active_giveaways s))).
    { apply list_elem_of_filter. split.
      - simpl. split; [done|]. unfold is_active. by rewrite Hst.
      - by apply elem_of_map_to_list. }
    rewrite Hnil in Hin. by apply elem_of_nil in Hin.
  - intros Hall.
    destruct (filter _ (map_to_list (active_giveaways s)))
      as [|[id g] rest] eqn:Hf; [done|].
    assert (Hin : (id, g) ∈ filter
              (fun row : Z * Giveaway =>
                 gw_message row.2 = m /\ is_active row.2 = true)
              (map_to_list (active_giveaways s))).
    { rewrite Hf. by left. }
    apply list_elem_of_filter in Hin as [[Hm Ha] Hin].
    apply elem_of_map_to_list in Hin. simpl in *.
    specialize (Hall id g Hin Hm). unfold is_active in Ha.
    by rewrite Hall in Ha.
Qed.

Lemma on_reaction_add_run emoji m is_bot u s :
  after (on_reaction_add emoji m is_bot u) s =
  if is_bot then s else
  if String.eqb emoji crossed_swords then
    match active_giveaway_by_message m s with
    | Some (id, _) => after (enter_giveaway id u) s
    | None => s
    end
  else s.
Proof.
  unfold on_reaction_add, after. destruct is_bot; [done|].
  destruct (String.eqb emoji crossed_swords); [|done].
  unfold bind, query.
  destruct (active_giveaway_by_message m s) as [[id g]|]; [|done].
  by destruct (enter_giveaway id u s).
Qed.


End Entering.

Section Concluding.

Variable bot : Bot.

(** ** Concluding a tournament *)

Lemma end_giveaway_tables s now draws id :
  giveaway_entries (after (end_giveaway bot now draws id) s)
    = giveaway_entries s
  /\ active_giveaways (after (end_giveaway bot now draws id) s)
    = match result (end_giveaway bot now draws id) s with
      | Some _ => alter end_status id (active_giveaways s)
      | None => active_giveaways s
      end.
Proof.
  unfold after, result. rewrite end_giveaway_run.
  destruct (active_giveaways s !! id) as [g|]; [|done].
  destruct (gw_status g); [|done].
  destruct (entries_of id s) as [|e es]; [done|].
  cbv zeta. destruct (_ <? 0); [done|]. cbn [fst snd].
  by destruct (award_prizes_giveaways bot now (gw_guild g)
    (gw_prize_amount g) id
    (random_sample (e :: es)
       (Z.to_nat (Z.min (gw_winner_count g) (Z.of_nat (length (e :: es)))))
       draws)
    (mark_ended id s)) as [-> ->].
Qed.

Lemma end_tournament_run now draws found id s :
  end_tournament bot now draws found id s =
  (match result (end_giveaway bot now draws id) s with
   | None => Silent
   | Some (winners, giveaway) =>
       match get_guild bot (gw_guild giveaway) with
       | None => Silent
       | Some guild =>
           if negb found then Silent else
           match winners with
           | _ :: _ =>
               Champions
                 (filter (fun winner_id => is_Some (get_member guild winner_id))
                    winners)
           | [] => NoBraveSouls
           end
       end
   end,
   after (end_giveaway bot now draws id) s).
Proof.
  unfold end_tournament, bind, result, after.
  destruct (end_giveaway bot now draws id s) as [[[winners g]|] s1]; simpl;
    [|done].
  destruct (get_guild bot (gw_guild g)); [|done].
  destruct (negb found); [done|]. by destruct winners.
Qed.


Lemma end_tournament_later_run now draws found m s :
  end_tournament_later bot now draws found m s =
  match active_giveaway_by_message m s with
  | Some (id, _) => end_tournament bot now draws found id s
  | None => (Silent, s)
  end.
Proof.
  unfold end_tournament_later, bind, query.
  by destruct (active_giveaway_by_message m s) as [[id g]|].
Qed.

(** The timer of a tournament fires once.  When no active tournament
    carries the message it does nothing.  When exactly one does (with a
    winner count that is not negative), the timer concludes that tournament
    as [end_giveaway] does and marks it as ended, after which any further
    firing for the same message is silent and changes nothing. *)
Theorem end_tournament_later_fires_once now draws found m s :
  ((forall id g, active_giveaways s !! id = Some g -> gw_message g = m ->
                 gw_status g = ended) ->
   end_tournament_later bot now draws found m s = (Silent, s))
  /\ (forall id g,
        active_giveaways s !! id = Some g -> gw_message g = m ->
        gw_status g = active -> 0 <= gw_winner_count g ->
        (forall id' g', active_giveaways s !! id' = Some g' ->
                        gw_message g' = m -> gw_status g' = active ->
                        id' = id) ->
        let s1 := after (end_tournament_later bot now draws found m) s in
        s1 = after (end_giveaway bot now draws id) s
        /\ active_giveaways s1 !! id = Some (end_status g)
        /\ forall now' draws' found',
             end_tournament_later bot now' draws' found' m s1 = (Silent, s1)).
Proof.
  split.
  { intros Hall. rewrite end_tournament_later_run.
    apply active_giveaway_by_message_None in Hall. by rewrite Hall. }
  intros id g Hg Hm Hst Hwc Huniq. cbv zeta.
  assert (Hs1 : after (end_tournament_later bot now draws found m) s
                = after (end_giveaway bot now draws id) s).
  { unfold after at 1. rewrite end_tournament_later_run.
    destruct (active_giveaway_by_message m s) as [[id' g']|] eqn:E.
    - apply active_giveaway_by_message_Some in E as (Hg' & Hm' & Hst').
      rewrite (Huniq id' g' Hg' Hm' Hst').
      by rewrite end_tournament_run.
    - pose proof (proj1 (active_giveaway_by_message_None m s) E id g Hg Hm)
        as Hended.
      by rewrite Hended in Hst. }
  rewrite Hs1.
  assert (Hsome : is_Some (result (end_giveaway bot now draws id) s)).
  { unfold result. rewrite end_giveaway_run, Hg, Hst.
    destruct (entries_of id s) as [|e es]; [by eexists|].
    cbv zeta. destruct (Z.ltb_spec
      (Z.min (gw_winner_count g) (Z.of_nat (length (e :: es)))) 0);
      [lia|by eexists]. }
  destruct (end_giveaway_tables s now draws id) as [_ Htab].
  destruct Hsome as [r Hr]. rewrite Hr in Htab.
  split; [done|]. split.
  { by rewrite Htab, lookup_alter_eq, Hg. }
  intros now' draws' found'. rewrite end_tournament_later_run.
  assert (Hnone : active_giveaway_by_message m
                    (after (end_giveaway bot now draws id) s) = None).
  { apply active_giveaway_by_message_None. intros id' g' Hg' Hm'.
    rewrite Htab, lookup_alter in Hg'. case_decide as Hid.
    - subst id'. rewrite Hg in Hg'. simpl in Hg'. by inversion Hg'.
    - destruct (gw_status g') eqn:Hst'; [|done].
      by specialize (Huniq id' g' Hg' Hm' Hst'). }
  by rewrite Hnone.
Qed.

(** ** The escrow of a tournament nobody enters *)


End Concluding.

(** The festival's timer: it concludes tournament 1 and a second firing is
    silent. *)
Lemma end_tournament_later_fires_once_witness :
  let s1 := after (end_tournament_later no_discord next_monday [0; 0]%nat true
                     6) festival_store in
  s1 = after (end_giveaway no_discord next_monday [0; 0]%nat 1) festival_store
  /\ end_tournament_later no_discord (next_monday + 1) [] true 6 s1
     = (Silent, s1).
Proof.
  assert (Hg : active_giveaways festival_store !! 1
               = Some {| gw_guild := 1; gw_channel := 5; gw_message := 6;
                         gw_host := 9; gw_prize_amount := 100;
                         gw_end_time := monday; gw_winner_count := 2;
                         gw_status := active |}) by by vm_compute.
  assert (Huniq : forall id' g',
            active_giveaways festival_store !! id' = Some g' ->
            gw_message g' = 6 -> gw_status g' = active -> id' = 1).
  { intros id' g' Hg' _ _.
    destruct (decide (id' = 1)) as [->|Hne]; [done|].
    assert (active_giveaways festival_store !! id' = None) as Hn.
    { change (active_giveaways festival_store)
        with (<[1 := {| gw_guild := 1; gw_channel := 5; gw_message := 6;
                        gw_host := 9; gw_prize_amount := 100;
                        gw_end_time := monday; gw_winner_count := 2;
                        gw_status := active |}]> (∅ : gmap Z Giveaway)).
      by rewrite lookup_insert_ne, lookup_empty. }
    by rewrite Hn in Hg'. }
  destruct (proj2 (end_tournament_later_fires_once no_discord next_monday
                     [0; 0]%nat true 6 festival_store)
              1 _ Hg eq_refl eq_refl ltac:(simpl; lia) Huniq)
    as (H1 & _ & H3).
  split; [exact H1|]. apply H3.
Defined.


Section Listings.

(** ** Reading the chronicles *)

Lemma is_active_status g : is_active g = true <-> gw_status g = active.
Proof. unfold is_active. by destruct (gw_status g). Qed.

#[local] Instance by_end_time_total : Total by_end_time.
Proof. intros a b. unfold by_end_time. lia. Qed.

#[local] Instance by_end_time_trans : Transitive by_end_time.
Proof. intros a b c. unfold by_end_time. lia. Qed.

#[local] Instance by_gold_desc_total : Total by_gold_desc.
Proof. intros a b. unfold by_gold_desc. lia. Qed.

#[local] Instance by_gold_desc_trans : Transitive by_gold_desc.
Proof. intros a b c. unfold by_gold_desc. lia. Qed.

(** The keys of a selection of rows of a table are distinct. *)
Lemma selected_rows_NoDup `{Countable K} {A} (m : gmap K A) (P : K * A -> Prop)
    `{!forall row, Decision (P row)} (l : list (K * A)) :
  l ≡ₚ filter P (map_to_list m) -> NoDup l.*1.
Proof.
  intros Hl. rewrite Hl.
  eapply sublist_NoDup; [apply (NoDup_fst_map_to_list m)|].
  apply fmap_sublist, sublist_filter.
Qed.

(** [get_active_giveaways] lists exactly the tournaments of the guild that
    are active and end after the present instant, each once, the one that
    ends first at the head; it changes nothing.  A tournament that has been
    marked as ended, or whose end time has passed, is not listed. *)
Theorem get_active_giveaways_lists_open_tournaments now guild_id s :
  let rows := result (get_active_giveaways now guild_id) s in
  after (get_active_giveaways now guild_id) s = s
  /\ (forall id g,
        (id, g) ∈ rows <->
        active_giveaways s !! id = Some g /\ gw_guild g = guild_id
        /\ gw_status g = active /\ now < gw_end_time g)
  /\ StronglySorted by_end_time rows
  /\ NoDup rows.*1.
Proof.
  cbv zeta. unfold get_active_giveaways, result, after, query. simpl.
  split; [done|]. split.
  { intros id g. rewrite merge_sort_Permutation, list_elem_of_filter.
    rewrite elem_of_map_to_list. simpl. rewrite is_active_status. tauto. }
  split; [apply (StronglySorted_merge_sort _)|].
  eapply selected_rows_NoDup, merge_sort_Permutation.
Qed.

Lemma get_leaderboard_run guild_id limit s :
  get_leaderboard guild_id limit s =
  (if limit <? 0 then []
   else take (Z.to_nat limit)
          (merge_sort by_gold_desc
             (filter (fun row : Z * Z * Account => row.1.2 = guild_id)
                (map_to_list (user_economy s)))),
   s).
Proof. unfold get_leaderboard. by destruct (limit <? 0). Qed.

(** [get_leaderboard] answers with at most [limit] accounts of the guild,
    each once, the richest first, and changes nothing.  The accounts it
    leaves out are never richer than one it lists: when an account of the
    guild is missing, the board is full and every listed account holds at
    least as much gold.  A negative limit gives the empty board. *)
Theorem get_leaderboard_ranks_the_richest guild_id limit s :
  let board := result (get_leaderboard guild_id limit) s in
  after (get_leaderboard guild_id limit) s = s
  /\ (limit < 0 -> board = [])
  /\ Z.of_nat (length board) <= Z.max 0 limit
  /\ (forall u g a, (u, g, a) ∈ board ->
        user_economy s !! (u, g) = Some a /\ g = guild_id)
  /\ StronglySorted by_gold_desc board
  /\ NoDup board.*1
  /\ (0 <= limit -> forall u a,
        user_economy s !! (u, guild_id) = Some a ->
        (u, guild_id, a) ∉ board ->
        Z.of_nat (length board) = limit
        /\ forall row, row ∈ board -> gold a <= gold row.2).
Proof.
  cbv zeta. unfold result, after. rewrite get_leaderboard_run. simpl.
  split; [done|].
  destruct (Z.ltb_spec limit 0) as [Hneg|Hpos].
  { split; [done|]. split; [simpl; lia|]. split.
    { intros u g a Hin. by apply elem_of_nil in Hin. }
    split; [constructor|]. split; [constructor|]. lia. }
  set (rows := filter (fun row : Z * Z * Account => row.1.2 = guild_id)
                 (map_to_list (user_economy s))).
  set (sorted := merge_sort by_gold_desc rows).
  assert (Hperm : sorted ≡ₚ rows) by apply merge_sort_Permutation.
  assert (Hsorted : StronglySorted by_gold_desc sorted)
    by apply (StronglySorted_merge_sort _).
  assert (Hsplit : take (Z.to_nat limit) sorted ++ drop (Z.to_nat limit) sorted
                   = sorted) by apply take_drop.
  split; [lia|]. split; [rewrite length_take; lia|]. split.
  { intros u g a Hin.
    eapply elem_of_sublist in Hin; [|apply sublist_take].
    rewrite Hperm in Hin. apply list_elem_of_filter in Hin as [Hg Hin].
    apply elem_of_map_to_list in Hin. by simpl in *. }
  split.
  { rewrite <- Hsplit in Hsorted.
    by apply StronglySorted_app_1_l in Hsorted. }
  split.
  { eapply sublist_NoDup; [eapply (selected_rows_NoDup (user_economy s)), Hperm|].
    apply fmap_sublist, sublist_take. }
  intros _ u a Hrow Hout.
  assert (Hin : (u, guild_id, a) ∈ sorted).
  { rewrite Hperm. apply list_elem_of_filter. split; [done|].
    by apply elem_of_map_to_list. }
  rewrite <- Hsplit in Hin. apply elem_of_app in Hin as [Hin|Hin]; [done|].
  split.
  - rewrite length_take.
    assert (drop (Z.to_nat limit) sorted <> []) as Hne
      by (intros E; rewrite E in Hin; by apply elem_of_nil in Hin).
    assert (0 < length (drop (Z.to_nat limit) sorted))%nat as Hlen
      by (destruct (drop _ sorted); [done|simpl; lia]).
    rewrite length_drop in Hlen. lia.
  - intros row Hrowin. rewrite <- Hsplit in Hsorted.
    apply (StronglySorted_app_1_elem_of _ _ _ _ _ Hsorted Hrowin Hin).
Qed.

(** [get_economy_stats] only reads: it answers nothing for an account
    without a row, where [get_user_balance] creates the row and reports the
    starting purse; for an account with a row both report the same figures;
    and once [get_user_balance] has run, [get_economy_stats] reports what it
    reported. *)
Theorem get_economy_stats_reads_what_balance_reports u g s :
  after (get_economy_stats u g) s = s
  /\ (result (get_economy_stats u g) s = None <->
      user_economy s !! (u, g) = None)
  /\ (forall stats, result (get_economy_stats u g) s = Some stats ->
        get_user_balance u g s = (stats, s))
  /\ (user_economy s !! (u, g) = None ->
      result (get_user_balance u g) s = (100, 0, 0, 100, 0, false)
      /\ user_economy (after (get_user_balance u g) s) !! (u, g)
         = Some new_account)
  /\ result (get_economy_stats u g) (after (get_user_balance u g) s)
     = Some (result (get_user_balance u g) s).
Proof.
  unfold get_economy_stats, get_user_balance, result, after, bind, query,
    execute, ret. simpl.
  destruct (user_economy s !! (u, g)) as [r|] eqn:Hr; simpl.
  - rewrite Hr. simpl. split; [done|]. split; [done|].
    split; [by intros stats [= <-]|]. done.
  - rewrite lookup_insert_eq. simpl. done.
Qed.

End Listings.

Section Shop.

Variable bot : Bot.

(** ** The shop *)

Lemma buy_item_run s now u g item_id guild :
  buy_item bot now u g item_id guild s =
  match ware_of s g item_id with
  | None => ((false, BuyNoSuchItem), s)
  | Some item =>
      if stock item =? 0 then ((false, BuySoldOut), s) else
      let s1 := sync_admin bot u g (touch u g s) in
      if balance_of s u g <? price item then ((false, BuyLacksCoin), s1) else
      if ceiling bot s u g <? balance_of s u g - price item
      then ((false, BuyOverCap (ceiling bot s u g)), s1) else
      if already_holds guild u item then ((false, BuyAlreadyHeld), s1) else
      let s2 :=
        add_inventory (purchase_entry now u g item_id)
          (after (update_user_balance bot now u g (- price item)
                    (DescPurchased item_id)) s) in
      ((true, BuyDone),
       if 0 <? stock item
       then set_shop_items (alter decrement_stock item_id) s2
       else s2)
  end.
Proof.
  unfold buy_item, bind, query. fold (ware_of s g item_id).
  destruct (ware_of s g item_id) as [item|]; [|done].
  destruct (stock item =? 0); [done|].
  rewrite get_user_balance_run. simpl.
  rewrite get_gold_cap_run, ceiling_touch.
  fold (balance_of s u g).
  destruct (balance_of s u g <? price item); [done|].
  destruct (ceiling bot s u g <? balance_of s u g - price item); [done|].
  fold (already_holds guild u item).
  destruct (already_holds guild u item); [done|].
  rewrite update_user_balance_after_reads.
  unfold after, execute, purchase_entry.
  destruct (update_user_balance bot now u g _ _ s) as [[n c] s3]. simpl.
  by destruct (0 <? stock item).
Qed.

Lemma ware_of_Some s g item_id i :
  ware_of s g item_id = Some i <->
  shop_items s !! item_id = Some i /\ item_guild i = g.
Proof.
  unfold ware_of. destruct (shop_items s !! item_id) as [j|].
  - destruct (Z.eqb_spec (item_guild j) g) as [Hg|Hg]; split.
    + by intros [= <-].
    + by intros [[= <-] _].
    + done.
    + intros [[= <-] ?]. done.
  - split; [done|]. by intros [? _].
Qed.

Lemma same_ledger_reads s u g :
  same_ledger s (sync_admin bot u g (touch u g s)).
Proof.
  eapply same_ledger_trans; [apply same_ledger_touch|apply same_ledger_sync].
Qed.



(** ** Stock *)

Lemma buy_item_keeps_ware s now u g item_id guild i :
  ware_of s g item_id = Some i ->
  let ok := fst (result (buy_item bot now u g item_id guild) s) in
  ware_of (after (buy_item bot now u g item_id guild) s) g item_id
  = Some (if ok && (0 <? stock i) then with_stock (stock i - 1) i else i)
  /\ (ok = true -> stock i <> 0).
Proof.
  intros Hi. cbv zeta. unfold result, after. rewrite buy_item_run, Hi.
  pose proof (proj1 (ware_of_Some s g item_id i) Hi) as [Hrow Hg].
  assert (Hreads : ware_of (sync_admin bot u g (touch u g s)) g item_id
                   = Some i).
  { destruct (same_ledger_reads s u g) as (_ & _ & _ & Hs & _).
    unfold ware_of. by rewrite Hs, Hrow, Hg, Z.eqb_refl. }
  destruct (Z.eqb_spec (stock i) 0) as [Hst|Hst]; simpl; [done|].
  destruct (_ <? price i); simpl; [done|].
  destruct (_ <? _ - price i); simpl; [done|].
  destruct (already_holds guild u i); simpl; [done|].
  assert (Hshop : shop_items (after (update_user_balance bot now u g
                    (- price i) (DescPurchased item_id)) s) = shop_items s).
  { unfold after. rewrite update_user_balance_run. simpl.
    unfold sync_admin. destruct (is_admin _); [done|].
    by destruct (discord_administrator bot u g). }
  split; [|done].
  destruct (0 <? stock i); unfold ware_of; simpl; rewrite Hshop.
  - rewrite lookup_alter_eq, Hrow. simpl. by rewrite Hg, Z.eqb_refl.
  - by rewrite Hrow, Hg, Z.eqb_refl.
Qed.

Lemma sold_cons ok outcomes :
  sold (ok :: outcomes) = (if ok then 1 else 0) + sold outcomes.
Proof.
  unfold sold. rewrite filter_cons.
  destruct ok; case_decide; try done; simpl length; lia.
Qed.

Lemma sold_nonneg outcomes : 0 <= sold outcomes.
Proof. unfold sold. lia. Qed.

Lemma buy_each_step s g item_id guild now u rest :
  result (buy_each bot g item_id guild ((now, u) :: rest)) s
  = fst (result (buy_item bot now u g item_id guild) s)
    :: result (buy_each bot g item_id guild rest)
         (after (buy_item bot now u g item_id guild) s)
  /\ after (buy_each bot g item_id guild ((now, u) :: rest)) s
     = after (buy_each bot g item_id guild rest)
         (after (buy_item bot now u g item_id guild) s).
Proof.
  unfold result, after. simpl. unfold bind, ret.
  destruct (buy_item bot now u g item_id guild s) as [r s1]. simpl.
  by destruct (buy_each bot g item_id guild rest s1).
Qed.

(** A limited stock is never oversold: however many purchases of a ware with
    stock n >= 0 are attempted, by whomever, at most n succeed, and the
    stock left is n minus the number sold.  A ware with a negative stock is
    unlimited: its stock never changes. *)
Theorem limited_stock_is_never_oversold g item_id guild attempts :
  forall s i,
  ware_of s g item_id = Some i ->
  let outcomes := result (buy_each bot g item_id guild attempts) s in
  let s' := after (buy_each bot g item_id guild attempts) s in
  (0 <= stock i ->
     sold outcomes <= stock i
     /\ ware_of s' g item_id = Some (with_stock (stock i - sold outcomes) i))
  /\ (stock i < 0 -> ware_of s' g item_id = Some i).
Proof.
  induction attempts as [|[now u] rest IH]; intros s i Hi; cbv zeta.
  - unfold result, after, sold; simpl. split.
    + intros Hn. split; [lia|]. rewrite Hi. f_equal. destruct i; simpl.
      unfold with_stock; simpl. f_equal. lia.
    + done.
  - destruct (buy_each_step s g item_id guild now u rest) as [-> ->].
    destruct (buy_item_keeps_ware s now u g item_id guild i Hi) as [Hw Hok].
    cbv zeta in Hw, Hok.
    specialize (IH _ _ Hw). cbv zeta in IH. destruct IH as [IHlim IHun].
    rewrite sold_cons.
    pose proof (sold_nonneg (result (buy_each bot g item_id guild rest)
      (after (buy_item bot now u g item_id guild) s))) as Hnn.
    destruct (fst (result (buy_item bot now u g item_id guild) s)); simpl in *.
    + specialize (Hok eq_refl).
      destruct (Z.ltb_spec 0 (stock i)); simpl in *.
      * split; [|lia]. intros _.
        destruct IHlim as [Hle ->]; [lia|]. split; [lia|].
        f_equal. unfold with_stock; simpl. f_equal. lia.
      * split; [lia|]. intros _. apply IHun. lia.
    + split; [|done]. intros Hn. by apply IHlim.
Qed.

(** ** Adding wares *)

Lemma next_shop_item_id_fresh s :
  shop_items s !! next_shop_item_id s = None.
Proof.
  unfold next_shop_item_id.
  assert (H : forall k, is_Some (shop_items s !! k) ->
              k <= map_fold (fun id _ top => Z.max id top) 0 (shop_items s)).
  { apply (map_fold_weak_ind
      (fun top (m : gmap Z ShopItem) => forall k, is_Some (m !! k) -> k <= top)).
    - intros k [x Hx]. by rewrite lookup_empty in Hx.
    - intros i x m r Hi IH k Hk. rewrite lookup_insert in Hk.
      case_decide; [subst; lia|]. specialize (IH k Hk). lia. }
  destruct (shop_items s !! _) eqn:E; [|done].
  specialize (H _ (mk_is_Some _ _ E)). lia.
Qed.


End Shop.


(** Three subjects try to buy the market's ware, of which there are two: the
    third is turned away. *)
Lemma limited_stock_is_never_oversold_witness :
  let attempts := [(wednesday, 1); (wednesday, 2); (wednesday, 3)] in
  result (buy_each no_discord 1 1 plain_guild attempts) market_store
    = [true; true; false]
  /\ sold (result (buy_each no_discord 1 1 plain_guild attempts) market_store)
     <= 2
  /\ ware_of (after (buy_each no_discord 1 1 plain_guild attempts)
                market_store) 1 1
     = Some {| item_guild := 1; price := 30; role_id := Some 5; stock := 0 |}.
Proof.
  assert (H1 : ware_of market_store 1 1
               = Some {| item_guild := 1; price := 30; role_id := Some 5;
                         stock := 2 |}) by by vm_compute.
  destruct (proj1 (limited_stock_is_never_oversold no_discord 1 1 plain_guild
                     [(wednesday, 1); (wednesday, 2); (wednesday, 3)]
                     market_store _ H1) ltac:(simpl; lia)) as [Hle Hw].
  split; [by vm_compute|]. split; [exact Hle|].
  rewrite Hw. by vm_compute.
Defined.

(** * Histories: what no sequence of calls undoes *)

Section Histories.

Lemma account_evolves_refl a : account_evolves a a.
Proof. unfold account_evolves. split; [done|]. split; [done|]. lia. Qed.

Lemma account_evolves_trans a b c :
  account_evolves a b -> account_evolves b c -> account_evolves a c.
Proof.
  unfold account_evolves.
  intros (H1 & H2 & ?) (H1' & H2' & ?).
  split; [congruence|]. split; [tauto|]. lia.
Qed.

Lemma giveaway_evolves_trans g1 g2 g3 :
  giveaway_evolves g1 g2 -> giveaway_evolves g2 g3 -> giveaway_evolves g1 g3.
Proof.
  unfold giveaway_evolves. intros [->| ->] [->| ->]; auto.
Qed.

Lemma evolves_refl s : evolves s s.
Proof.
  unfold evolves. split; [intros; apply account_evolves_refl|].
  split; [done|]. do 5 (split; [done|]).
  intros id g Hg. exists g. split; [done|by left].
Qed.

Lemma evolves_trans s1 s2 s3 : evolves s1 s2 -> evolves s2 s3 -> evolves s1 s3.
Proof.
  unfold evolves.
  intros (Ha & Hr & Ht & Hg & Hi & He & Hc & Hw)
         (Ha' & Hr' & Ht' & Hg' & Hi' & He' & Hc' & Hw').
  split; [intros u g; eapply account_evolves_trans; [apply Ha|apply Ha']|].
  split; [auto|].
  split; [by etrans|]. split; [by etrans|]. split; [by etrans|].
  split; [by etrans|]. split; [by etrans|].
  intros id g H. destruct (Hw id g H) as (g2 & H2 & E2).
  destruct (Hw' id g2 H2) as (g3 & H3 & E3).
  exists g3. split; [done|]. by eapply giveaway_evolves_trans.
Qed.

(** A store that differs in no table the relation reads. *)
Lemma evolves_same s s' :
  user_economy s' = user_economy s -> transactions s' = transactions s ->
  gambling_records s' = gambling_records s ->
  user_inventory s' = user_inventory s ->
  giveaway_entries s' = giveaway_entries s ->
  admin_monthly_claims s' = admin_monthly_claims s ->
  active_giveaways s' = active_giveaways s ->
  evolves s s'.
Proof.
  intros Hu Ht Hg Hi He Hc Hw. unfold evolves, account_or_new.
  rewrite Hu, Ht, Hg, Hi, He, Hc, Hw. apply evolves_refl.
Qed.

Lemma evolves_alter_one (f : Account -> Account) u g s :
  account_evolves (account_or_new s u g) (f (account_or_new s u g)) ->
  evolves s (set_user_economy (alter f (u, g)) s).
Proof.
  intros Hf. unfold evolves. split.
  { intros u' g'. unfold account_or_new in *. simpl. rewrite lookup_alter.
    case_decide as E; [|apply account_evolves_refl].
    inversion E; subst u' g'.
    destruct (user_economy s !! (u, g)) as [r|]; simpl in *; [done|].
    apply account_evolves_refl. }
  split.
  { intros k [r Hr]. simpl. rewrite lookup_alter.
    case_decide; [subst k|]; rewrite Hr; by eexists. }
  simpl. do 5 (split; [done|]).
  intros id w Hw. exists w. split; [done|by left].
Qed.

Lemma evolves_alter (f : Account -> Account) k s :
  (forall a, account_evolves a (f a)) ->
  evolves s (set_user_economy (alter f k) s).
Proof. intros Hf. destruct k as [u g]. apply evolves_alter_one, Hf. Qed.

Lemma evolves_touch u g s : evolves s (touch u g s).
Proof.
  unfold evolves. split.
  { intros u' g'. rewrite account_touch. apply account_evolves_refl. }
  split.
  { intros k Hk. unfold touch; simpl. rewrite lookup_insert.
    case_decide; [by eexists|done]. }
  simpl. do 5 (split; [done|]).
  intros id w Hw. exists w. split; [done|by left].
Qed.

Lemma evolves_sync bot u g s : evolves s (sync_admin bot u g s).
Proof.
  unfold sync_admin. destruct (is_admin _); [apply evolves_refl|].
  destruct (discord_administrator bot u g); [|apply evolves_refl].
  apply evolves_alter. intros a. unfold account_evolves; simpl.
  split; [done|]. split; [done|]. lia.
Qed.

Lemma evolves_add_transaction t s : evolves s (add_transaction t s).
Proof.
  unfold evolves; simpl. split; [intros; apply account_evolves_refl|].
  split; [done|]. split; [by apply prefix_app_r|]. do 4 (split; [done|]).
  intros id w Hw. exists w. split; [done|by left].
Qed.

Lemma evolves_add_gambling_record r s : evolves s (add_gambling_record r s).
Proof.
  unfold evolves; simpl. split; [intros; apply account_evolves_refl|].
  split; [done|]. split; [done|]. split; [by apply prefix_app_r|].
  do 3 (split; [done|]).
  intros id w Hw. exists w. split; [done|by left].
Qed.

Lemma evolves_add_inventory e s : evolves s (add_inventory e s).
Proof.
  unfold evolves; simpl. split; [intros; apply account_evolves_refl|].
  do 3 (split; [done|]). split; [by apply prefix_app_r|].
  do 2 (split; [done|]).
  intros id w Hw. exists w. split; [done|by left].
Qed.

Lemma evolves_add_giveaway_entry e s : evolves s (add_giveaway_entry e s).
Proof.
  unfold evolves; simpl. split; [intros; apply account_evolves_refl|].
  do 4 (split; [done|]). split; [by apply prefix_app_r|].
  split; [done|].
  intros id w Hw. exists w. split; [done|by left].
Qed.

Lemma evolves_add_admin_claim c s : evolves s (add_admin_claim c s).
Proof.
  unfold evolves; simpl. split; [intros; apply account_evolves_refl|].
  do 5 (split; [done|]). split; [by apply prefix_app_r|].
  intros id w Hw. exists w. split; [done|by left].
Qed.

Lemma evolves_set_shop_items f s : evolves s (set_shop_items f s).
Proof. by apply evolves_same. Qed.

Lemma evolves_mark_ended id s :
  evolves s (set_active_giveaways (alter end_status id) s).
Proof.
  unfold evolves; simpl. split; [intros; apply account_evolves_refl|].
  do 6 (split; [done|]).
  intros id' w Hw. rewrite lookup_alter. case_decide; [subst id'|].
  - rewrite Hw. exists (end_status w). split; [done|by right].
  - exists w. split; [done|by left].
Qed.

Lemma evolves_new_giveaway w s :
  evolves s (set_active_giveaways (insert (next_giveaway_id s) w) s).
Proof.
  unfold evolves; simpl. split; [intros; apply account_evolves_refl|].
  do 6 (split; [done|]).
  intros id w' Hw. exists w'. split; [|by left].
  rewrite lookup_insert_ne; [done|].
  intros <-. by rewrite next_giveaway_id_fresh in Hw.
Qed.

Lemma evolves_update_user_balance bot now u g d desc s :
  evolves s (after (update_user_balance bot now u g d desc) s).
Proof.
  unfold after. rewrite update_user_balance_run. simpl.
  eapply evolves_trans; [apply evolves_touch|].
  eapply evolves_trans; [apply (evolves_sync bot u g)|].
  eapply evolves_trans; [|apply evolves_add_transaction].
  apply evolves_alter_one.
  destruct (counters_sync_touch bot s u g) as [He Hs].
  unfold account_evolves; simpl. rewrite He, Hs.
  split; [done|]. split; [done|].
  unfold earned_after, spent_after. destruct (Z.ltb_spec 0 d); lia.
Qed.

(** ** Every call keeps to the relation *)

Lemma history_execute (f : Store -> Store) s0 :
  (forall s, evolves s (f s)) -> preserves (evolves s0) (execute f).
Proof.
  intros Hf s Hs. unfold after, execute; simpl.
  eapply evolves_trans; [exact Hs|apply Hf].
Qed.

Lemma history_get_user_balance s0 u g :
  preserves (evolves s0) (get_user_balance u g).
Proof.
  intros s Hs. unfold after. rewrite get_user_balance_run. simpl.
  eapply evolves_trans; [exact Hs|apply evolves_touch].
Qed.

Lemma history_is_user_admin bot s0 u g :
  preserves (evolves s0) (is_user_admin bot u g).
Proof.
  intros s Hs. unfold after. rewrite is_user_admin_run. simpl.
  eapply evolves_trans; [exact Hs|apply evolves_sync].
Qed.

Lemma history_get_gold_cap bot s0 u g :
  preserves (evolves s0) (get_gold_cap bot u g).
Proof.
  intros s Hs. unfold after. rewrite get_gold_cap_run. simpl.
  eapply evolves_trans; [exact Hs|apply evolves_sync].
Qed.

Lemma history_update_user_balance bot s0 now u g d desc :
  preserves (evolves s0) (update_user_balance bot now u g d desc).
Proof.
  intros s Hs. eapply evolves_trans; [exact Hs|].
  apply evolves_update_user_balance.
Qed.

Lemma history_create_giveaway s0 g channel message host prize end_time
    winners :
  preserves (evolves s0)
    (create_giveaway g channel message host prize end_time winners).
Proof.
  intros s Hs. unfold create_giveaway, after, bind, query, execute, ret.
  simpl. eapply evolves_trans; [exact Hs|apply evolves_new_giveaway].
Qed.

End Histories.

Create HintDb history.

#[export] Hint Resolve history_get_user_balance history_is_user_admin
  history_get_gold_cap history_update_user_balance history_create_giveaway
  preserves_ret preserves_query : history.

(** One step through a computation, for the history relation. *)
Ltac history_step :=
  match goal with
  | |- preserves _ (bind _ _) => apply preserves_bind; [|intros ?]
  | |- preserves _ (ret _) => apply preserves_ret
  | |- preserves _ (query _) => apply preserves_query
  | |- preserves _ (execute (set_user_economy (alter _ _))) =>
      apply history_execute; intros ?; apply evolves_alter; intros [];
      unfold account_evolves; simpl;
      (split; [reflexivity|]); (split; [intros H; exact H|]); lia
  | |- preserves _ (execute (add_transaction _)) =>
      apply history_execute; intros ?; apply evolves_add_transaction
  | |- preserves _ (execute (add_gambling_record _)) =>
      apply history_execute; intros ?; apply evolves_add_gambling_record
  | |- preserves _ (execute (add_inventory _)) =>
      apply history_execute; intros ?; apply evolves_add_inventory
  | |- preserves _ (execute (add_giveaway_entry _)) =>
      apply history_execute; intros ?; apply evolves_add_giveaway_entry
  | |- preserves _ (execute (add_admin_claim _)) =>
      apply history_execute; intros ?; apply evolves_add_admin_claim
  | |- preserves _ (execute (set_shop_items _)) =>
      apply history_execute; intros ?; apply evolves_set_shop_items
  | |- preserves _ (execute (set_active_giveaways (alter end_status _))) =>
      apply history_execute; intros ?; apply evolves_mark_ended
  | |- preserves _ (if ?b then _ else _) => destruct b
  | |- preserves _ (match ?x with _ => _ end) => destruct x
  | |- preserves _ _ => solve [auto with history]
  end.

Ltac history := repeat history_step.

Section HistoryOfCalls.

Variable bot : Bot.
Variable s0 : Store.

Lemma history_claim_admin_monthly_bonus now u g :
  preserves (evolves s0) (claim_admin_monthly_bonus bot now u g).
Proof. unfold claim_admin_monthly_bonus, can_claim_admin_monthly. history. Qed.

Lemma history_claim_daily now amount u g :
  preserves (evolves s0) (claim_daily bot now amount u g).
Proof. unfold claim_daily, can_claim_daily. history. Qed.

Lemma history_work now amount u g :
  preserves (evolves s0) (work bot now amount u g).
Proof. unfold work, get_labour_cooldown_status. history. Qed.

Lemma history_gamble now roll u g amount game :
  preserves (evolves s0) (gamble bot now roll u g amount game).
Proof. unfold gamble, can_gamble_weekly. history. Qed.

Lemma history_wager_cmd now roll u g amount game :
  preserves (evolves s0) (wager_cmd bot now roll u g amount game).
Proof.
  pose proof history_gamble. unfold wager_cmd, can_gamble_weekly. history.
Qed.

Lemma history_transfer_gold now sender receiver g amount :
  preserves (evolves s0) (transfer_gold bot now sender receiver g amount).
Proof. unfold transfer_gold. history. Qed.

Lemma history_pay_cmd now author member g amount :
  preserves (evolves s0) (pay_cmd bot now author member g amount).
Proof. pose proof history_transfer_gold. unfold pay_cmd. history. Qed.

Lemma history_add_shop_item g cost role supply :
  preserves (evolves s0) (add_shop_item g cost role supply).
Proof. unfold add_shop_item. history. Qed.

Lemma history_slash_addware g role cost supply :
  preserves (evolves s0) (slash_addware g role cost supply).
Proof. pose proof history_add_shop_item. unfold slash_addware. history. Qed.

Lemma history_buy_item now u g item guild :
  preserves (evolves s0) (buy_item bot now u g item guild).
Proof. unfold buy_item. history. Qed.

Lemma history_tournament_cmd now permitted author g channel message duration
    winners prize :
  preserves (evolves s0)
    (tournament_cmd bot now permitted author g channel message duration
       winners prize).
Proof. unfold tournament_cmd. history. Qed.

Lemma history_enter_giveaway id u :
  preserves (evolves s0) (enter_giveaway id u).
Proof. unfold enter_giveaway. history. Qed.

Lemma history_on_reaction_add emoji message is_bot u :
  preserves (evolves s0) (on_reaction_add emoji message is_bot u).
Proof. pose proof history_enter_giveaway. unfold on_reaction_add. history. Qed.

Lemma history_award_prizes now g prize id winners :
  preserves (evolves s0) (award_prizes bot now g prize id winners).
Proof. induction winners as [|w ws IH]; simpl; history. Qed.

Lemma history_end_giveaway now draws id :
  preserves (evolves s0) (end_giveaway bot now draws id).
Proof.
  pose proof history_award_prizes.
  unfold end_giveaway, get_giveaway_entries. history.
Qed.

Lemma history_end_tournament now draws found id :
  preserves (evolves s0) (end_tournament bot now draws found id).
Proof. pose proof history_end_giveaway. unfold end_tournament. history. Qed.

Lemma history_end_tournament_later now draws found message :
  preserves (evolves s0) (end_tournament_later bot now draws found message).
Proof.
  pose proof history_end_tournament. unfold end_tournament_later. history.
Qed.

Lemma history_perform op : preserves (evolves s0) (perform bot op).
Proof.
  pose proof history_claim_admin_monthly_bonus.
  pose proof history_claim_daily. pose proof history_work.
  pose proof history_gamble. pose proof history_wager_cmd.
  pose proof history_transfer_gold. pose proof history_pay_cmd.
  pose proof history_add_shop_item. pose proof history_slash_addware.
  pose proof history_buy_item. pose proof history_tournament_cmd.
  pose proof history_enter_giveaway. pose proof history_on_reaction_add.
  pose proof history_end_giveaway. pose proof history_end_tournament.
  pose proof history_end_tournament_later.
  destruct op; simpl; history.
Qed.

End HistoryOfCalls.

Lemma perform_all_evolves history :
  forall s, evolves s (after (perform_all history) s).
Proof.
  induction history as [|[bot op] rest IH]; intros s; [apply evolves_refl|].
  simpl. rewrite after_bind.
  eapply evolves_trans; [|apply IH].
  apply (history_perform bot s op s), evolves_refl.
Qed.

Section HistoryProperties.

Lemma claim_daily_result s bot now amount u g :
  fst (result (claim_daily bot now amount u g) s)
  = daily_ready now (account_or_new s u g).
Proof.
  unfold claim_daily, result, bind. rewrite can_claim_daily_run.
  destruct (daily_ready now (account_or_new s u g)); simpl; [|done].
  destruct (update_user_balance bot now u g amount DescDaily s)
    as [[n c] s1]. by destruct c.
Qed.

Lemma tries_since_prefix u g week_start s s' :
  gambling_records s `prefix_of` gambling_records s' ->
  tries_since u g week_start s <= tries_since u g week_start s'.
Proof.
  intros [k Hk]. unfold tries_since. rewrite Hk, filter_app, length_app. lia.
Qed.

(** The logs only grow.  Whatever calls follow, in whatever order and with
    whatever permissions, every audit row, gambling record, inventory row,
    tournament entry and bounty claim that was written is still there, in
    its place; in particular no call gives a subject a wager of the week
    back. *)
Theorem history_logs_only_grow history s :
  let s' := after (perform_all history) s in
  transactions s `prefix_of` transactions s'
  /\ gambling_records s `prefix_of` gambling_records s'
  /\ user_inventory s `prefix_of` user_inventory s'
  /\ giveaway_entries s `prefix_of` giveaway_entries s'
  /\ admin_monthly_claims s `prefix_of` admin_monthly_claims s'
  /\ (forall u g week_start,
        tries_since u g week_start s <= tries_since u g week_start s')
  /\ (forall id u, u ∈ entries_of id s -> u ∈ entries_of id s').
Proof.
  cbv zeta.
  destruct (perform_all_evolves history s)
    as (_ & _ & Ht & Hg & Hi & He & Hc & _).
  do 5 (split; [done|]). split.
  - intros u g week_start. by apply tries_since_prefix.
  - intros id u. rewrite !elem_of_entries_of. destruct He as [k ->].
    intros Hin. apply elem_of_app. by left.
Qed.

(** Privilege is never taken back.  No call deletes an account or clears
    its administrator flag: once the flag is set, the account is privileged
    and has the administrators' ceiling after any history, also under a
    client in which the subject holds no permission any more.  The flag is
    set as soon as [is_user_admin] sees a Discord administrator who has a
    row. *)
Theorem history_never_revokes_privilege history s u g :
  let s' := after (perform_all history) s in
  (is_Some (user_economy s !! (u, g)) -> is_Some (user_economy s' !! (u, g)))
  /\ (is_admin (account_or_new s u g) = true ->
      is_admin (account_or_new s' u g) = true
      /\ forall bot,
           privileged bot s' u g = true
           /\ ceiling bot s' u g = MAX_GOLD_ADMIN
           /\ result (is_user_admin bot u g) s' = true)
  /\ (forall bot0,
        discord_administrator bot0 u g = true ->
        is_Some (user_economy s !! (u, g)) ->
        forall bot,
          privileged bot
            (after (perform_all ((bot0, OpIsUserAdmin u g) :: history)) s)
            u g = true).
Proof.
  cbv zeta.
  destruct (perform_all_evolves history s) as (Ha & Hr & _).
  split; [apply Hr|]. split.
  - intros Hflag. destruct (Ha u g) as (_ & Hadm & _).
    specialize (Hadm Hflag). split; [done|]. intros bot.
    unfold result. rewrite is_user_admin_run. simpl.
    unfold ceiling, privileged. by rewrite Hadm.
  - intros bot0 Hd [r Hrow] bot. cbn [perform_all]. rewrite after_bind.
    set (s1 := after (perform bot0 (OpIsUserAdmin u g)) s).
    destruct (perform_all_evolves history s1) as (Ha1 & _).
    destruct (Ha1 u g) as (_ & Hadm & _).
    unfold privileged. rewrite Hadm; [done|].
    unfold s1, perform, after, bind. rewrite is_user_admin_run. simpl.
    rewrite account_sync, decide_True by done.
    destruct (is_admin (account_or_new s u g)) eqn:E; [done|].
    by rewrite Hd, Hrow.
Qed.

(** No call ever stamps the daily claim: [daily_claimed] is the same after
    any history, so the answer of [can_claim_daily] depends on the instant
    alone, and from a store without accounts the daily stipend is granted
    at every request, however many were granted before. *)
Theorem history_never_stamps_the_daily_claim history s u g :
  let s' := after (perform_all history) s in
  daily_claimed (account_or_new s' u g) = daily_claimed (account_or_new s u g)
  /\ (forall now,
        result (can_claim_daily now u g) s'
        = daily_ready now (account_or_new s u g))
  /\ (daily_claimed (account_or_new s u g) = None ->
      forall bot now amount,
        fst (result (claim_daily bot now amount u g) s') = true)
  /\ (forall bot now amount,
        fst (result (claim_daily bot now amount u g)
               (after (perform_all history) empty_store)) = true).
Proof.
  cbv zeta.
  assert (Hkeep : forall s1,
            daily_claimed (account_or_new (after (perform_all history) s1) u g)
            = daily_claimed (account_or_new s1 u g)).
  { intros s1. destruct (perform_all_evolves history s1) as (Ha & _).
    by destruct (Ha u g) as (Hd & _). }
  split; [apply Hkeep|]. split.
  { intros now. unfold result. rewrite can_claim_daily_run. simpl.
    unfold daily_ready. by rewrite Hkeep. }
  split.
  { intros Hnone bot now amount. rewrite claim_daily_result.
    unfold daily_ready. by rewrite Hkeep, Hnone. }
  intros bot now amount. rewrite claim_daily_result.
  unfold daily_ready. by rewrite Hkeep.
Qed.

(** Tournaments are kept and end once.  No call deletes a tournament or
    changes its guild, channel, message, host, prize, end time or winner
    count; the only change is from active to ended.  A tournament that has
    ended stays as it is, and ending it again pays nothing and changes
    nothing. *)
Theorem history_tournaments_end_once history s id g :
  active_giveaways s !! id = Some g ->
  let s' := after (perform_all history) s in
  exists g',
    active_giveaways s' !! id = Some g'
    /\ (g' = g \/ g' = end_status g)
    /\ (gw_status g = ended ->
        g' = g
        /\ forall bot now draws, end_giveaway bot now draws id s' = (None, s')).
Proof.
  intros Hg. cbv zeta.
  destruct (perform_all_evolves history s) as (_ & _ & _ & _ & _ & _ & _ & Hw).
  destruct (Hw id g Hg) as (g' & Hg' & Hev).
  exists g'. split; [done|]. split; [done|].
  intros Hended.
  assert (g' = g) as ->.
  { destruct Hev as [->| ->]; [done|]. destruct g; simpl in *.
    by subst. }
  split; [done|]. intros bot now draws.
  by rewrite end_giveaway_run, Hg', Hended.
Qed.

(** The lifetime counters of an account never decrease: whatever calls
    follow, the gold earned, the gold spent, the wins and the losses of
    every account are at least what they were. *)
Theorem history_counters_never_decrease history s u g :
  let a := account_or_new s u g in
  let a' := account_or_new (after (perform_all history) s) u g in
  total_gold_earned a <= total_gold_earned a'
  /\ total_gold_spent a <= total_gold_spent a'
  /\ gamble_wins a <= gamble_wins a'
  /\ gamble_losses a <= gamble_losses a'.
Proof.
  cbv zeta. destruct (perform_all_evolves history s) as (Ha & _).
  by destruct (Ha u g) as (_ & _ & H).
Qed.

End HistoryProperties.

(** The festival's tournament is still on record after it was concluded and
    after a later call tried to conclude it again. *)
Lemma history_tournaments_end_once_witness :
  exists g',
    active_giveaways
      (after (perform_all
                [(no_discord, OpEndGiveaway next_monday [0; 0]%nat 1);
                 (no_discord, OpEndGiveaway next_monday [1; 1]%nat 1)])
         festival_store) !! 1 = Some g'
    /\ gw_prize_amount g' = 100.
Proof.
  assert (Hg : active_giveaways festival_store !! 1
               = Some {| gw_guild := 1; gw_channel := 5; gw_message := 6;
                         gw_host := 9; gw_prize_amount := 100;
                         gw_end_time := monday; gw_winner_count := 2;
                         gw_status := active |}) by by vm_compute.
  destruct (history_tournaments_end_once
              [(no_discord, OpEndGiveaway next_monday [0; 0]%nat 1);
               (no_discord, OpEndGiveaway next_monday [1; 1]%nat 1)]
              festival_store 1 _ Hg) as (g' & Hg' & Hev & _).
  exists g'. split; [exact Hg'|].
  by destruct Hev as [->| ->].
Defined.

(** * The win and loss counters agree with the records *)

Section Counts.

Lemma plays_of_add r u g o s :
  plays_of u g o (add_gambling_record r s)
  = plays_of u g o s
    + (if decide (gr_user r = u /\ gr_guild r = g /\ gr_outcome r = o)
       then 1 else 0).
Proof.
  unfold plays_of, add_gambling_record; simpl.
  rewrite filter_app, length_app, filter_cons, filter_nil.
  case_decide; simpl; lia.
Qed.

(** A store with the same records and the same counters. *)
Lemma stats_same s s' :
  gambling_records s' = gambling_records s ->
  (forall u g,
     gamble_wins (account_or_new s' u g) = gamble_wins (account_or_new s u g)
     /\ gamble_losses (account_or_new s' u g)
        = gamble_losses (account_or_new s u g)) ->
  stats_consistent s -> stats_consistent s'.
Proof.
  intros Hr Hc Hs u g. destruct (Hc u g) as [-> ->].
  unfold plays_of. rewrite Hr. apply Hs.
Qed.

Lemma stats_touch u g s : stats_consistent s -> stats_consistent (touch u g s).
Proof.
  apply stats_same; [done|]. intros u' g'. by rewrite account_touch.
Qed.

Lemma stats_sync bot u g s :
  stats_consistent s -> stats_consistent (sync_admin bot u g s).
Proof.
  apply stats_same.
  - unfold sync_admin. destruct (is_admin _); [done|].
    by destruct (discord_administrator bot u g).
  - intros u' g'. pose proof (view_sync bot s u g u' g') as H. split.
    + change (gamble_wins ?a) with (gamble_wins (with_is_admin false a)).
      by rewrite H.
    + change (gamble_losses ?a) with (gamble_losses (with_is_admin false a)).
      by rewrite H.
Qed.

Lemma stats_get_user_balance u g :
  preserves stats_consistent (get_user_balance u g).
Proof.
  intros s. unfold after. rewrite get_user_balance_run. apply stats_touch.
Qed.

Lemma stats_is_user_admin bot u g :
  preserves stats_consistent (is_user_admin bot u g).
Proof.
  intros s. unfold after. rewrite is_user_admin_run. apply stats_sync.
Qed.

Lemma stats_get_gold_cap bot u g :
  preserves stats_consistent (get_gold_cap bot u g).
Proof.
  intros s. unfold after. rewrite get_gold_cap_run. apply stats_sync.
Qed.

Lemma stats_update_user_balance bot now u g d desc :
  preserves stats_consistent (update_user_balance bot now u g d desc).
Proof.
  intros s.
  destruct (update_user_balance_wagers bot s now u g d desc) as [Hr Hc].
  by apply stats_same.
Qed.

Lemma stats_alter (f : Account -> Account) k :
  (forall a, gamble_wins (f a) = gamble_wins a) ->
  (forall a, gamble_losses (f a) = gamble_losses a) ->
  preserves stats_consistent (execute (set_user_economy (alter f k))).
Proof.
  intros Hw Hl s. unfold after, execute; simpl.
  apply stats_same; [done|].
  intros u g. unfold account_or_new; simpl. rewrite lookup_alter.
  case_decide; [subst k|done].
  destruct (user_economy s !! (u, g)); simpl; [|done]. by rewrite Hw, Hl.
Qed.

Lemma stats_other_tables (f : Store -> Store) :
  (forall s, user_economy (f s) = user_economy s) ->
  (forall s, gambling_records (f s) = gambling_records s) ->
  preserves stats_consistent (execute f).
Proof.
  intros Hu Hr s. unfold after, execute; simpl.
  apply stats_same; [apply Hr|].
  intros u g. unfold account_or_new. by rewrite Hu.
Qed.

(** A played wager raises one counter and appends one record of the same
    account and outcome. *)
Lemma stats_play u g win r s :
  gr_user r = u -> gr_guild r = g -> gr_outcome r = win ->
  is_Some (user_economy s !! (u, g)) ->
  stats_consistent s ->
  stats_consistent
    (add_gambling_record r
       (set_user_economy (alter (if win then with_win else with_loss) (u, g))
          s)).
Proof.
  intros Hu Hg Ho [a Ha] Hs u' g'. rewrite !plays_of_add.
  change (plays_of u' g' ?o (set_user_economy ?f s)) with (plays_of u' g' o s).
  destruct (Hs u' g') as [Hw Hl].
  unfold account_or_new in *; simpl. rewrite lookup_alter.
  case_decide as E.
  - inversion E; subst u' g'. rewrite Ha in *. simpl in *.
    destruct win; simpl; rewrite Hu, Hg, Ho.
    + rewrite decide_True by done.
      rewrite decide_False by (by intros (_ & _ & ?)). lia.
    + rewrite decide_False by (by intros (_ & _ & ?)).
      rewrite decide_True by done. lia.
  - rewrite !decide_False by (intros (? & ? & _); congruence). lia.
Qed.

Lemma stats_gamble bot now roll u g amount game :
  preserves stats_consistent (gamble bot now roll u g amount game).
Proof.
  intros s Hs. unfold after. rewrite gamble_run. cbv zeta.
  destruct (negb _); [done|].
  assert (Hs2 : stats_consistent (sync_admin bot u g (touch u g s)))
    by by apply stats_sync, stats_touch.
  destruct (amount <=? 0); [done|].
  destruct (balance_of s u g <? amount); [done|].
  destruct (ceiling bot s u g <=? balance_of s u g); [done|].
  destruct (play_game game roll) as [[win multiplier]|]; [|done].
  pose proof (stats_update_user_balance bot now u g
                ((if win then amount * multiplier else 0) - amount)
                (DescGamed amount game win) s Hs) as Hs3.
  pose proof (row_after_update bot s now u g
                ((if win then amount * multiplier else 0) - amount)
                (DescGamed amount game win)) as Hrow.
  unfold after in Hs3, Hrow.
  destruct (update_user_balance bot now u g _ _ s) as [[new_gold capped] s3].
  simpl in *. by apply stats_play.
Qed.

End Counts.

Create HintDb counts.

#[export] Hint Resolve stats_get_user_balance stats_is_user_admin
  stats_get_gold_cap stats_update_user_balance stats_gamble preserves_ret
  preserves_query : counts.

Ltac counts_step :=
  match goal with
  | |- preserves _ (bind _ _) => apply preserves_bind; [|intros ?]
  | |- preserves _ (ret _) => apply preserves_ret
  | |- preserves _ (query _) => apply preserves_query
  | |- preserves _ (execute (set_user_economy (alter _ _))) =>
      apply stats_alter; intros []; reflexivity
  | |- preserves _ (execute _) =>
      apply stats_other_tables; intros []; reflexivity
  | |- preserves _ (if ?b then _ else _) => destruct b
  | |- preserves _ (match ?x with _ => _ end) => destruct x
  | |- preserves _ _ => solve [auto with counts]
  end.

Ltac counts := repeat counts_step.

Section CountsOfCalls.

Variable bot : Bot.

Lemma stats_award_prizes now g prize id winners :
  preserves stats_consistent (award_prizes bot now g prize id winners).
Proof. induction winners as [|w ws IH]; simpl; counts. Qed.

Lemma stats_end_giveaway now draws id :
  preserves stats_consistent (end_giveaway bot now draws id).
Proof.
  pose proof stats_award_prizes.
  unfold end_giveaway, get_giveaway_entries. counts.
Qed.

Lemma stats_transfer_gold now sender receiver g amount :
  preserves stats_consistent (transfer_gold bot now sender receiver g amount).
Proof. unfold transfer_gold. counts. Qed.

Lemma stats_enter_giveaway id u :
  preserves stats_consistent (enter_giveaway id u).
Proof. unfold enter_giveaway. counts. Qed.

Lemma stats_perform op : preserves stats_consistent (perform bot op).
Proof.
  pose proof stats_end_giveaway. pose proof stats_transfer_gold.
  pose proof stats_enter_giveaway.
  destruct op; simpl;
    unfold claim_admin_monthly_bonus, can_claim_admin_monthly, claim_daily,
      can_claim_daily, work, get_labour_cooldown_status, wager_cmd,
      can_gamble_weekly, pay_cmd, slash_addware, add_shop_item, buy_item,
      create_giveaway, tournament_cmd, create_giveaway, on_reaction_add,
      end_tournament_later, end_tournament;
    counts.
Qed.

End CountsOfCalls.

Lemma perform_all_counts history :
  preserves stats_consistent (perform_all history).
Proof.
  induction history as [|[bot op] rest IH]; simpl; [by intros s|].
  apply preserves_bind; [apply stats_perform|]. intros _. apply IH.
Qed.

Lemma plays_of_total u g s :
  plays_of u g true s + plays_of u g false s
  = Z.of_nat (length (filter
      (fun r => gr_user r = u /\ gr_guild r = g) (gambling_records s))).
Proof.
  unfold plays_of. induction (gambling_records s) as [|r l IH]; [done|].
  rewrite !filter_cons.
  destruct (gr_outcome r) eqn:Ho;
    repeat case_decide; simpl length; try lia; naive_solver.
Qed.

(** The counters tell the truth about the records.  In a store without
    accounts, and from then on after any history of calls, the wins of every
    account are the number of its gambling records that were won, its losses
    the number that were lost, and the two add up to the number of wagers it
    has played. *)
Theorem history_keeps_win_loss_counts :
  stats_consistent empty_store
  /\ (forall history s,
        stats_consistent s -> stats_consistent (after (perform_all history) s))
  /\ (forall history u g,
        let s' := after (perform_all history) empty_store in
        gamble_wins (account_or_new s' u g) = plays_of u g true s'
        /\ gamble_losses (account_or_new s' u g) = plays_of u g false s'
        /\ gamble_wins (account_or_new s' u g)
           + gamble_losses (account_or_new s' u g)
           = Z.of_nat (length (filter
               (fun r => gr_user r = u /\ gr_guild r = g)
               (gambling_records s')))).
Proof.
  assert (Hempty : stats_consistent empty_store) by by intros u g.
  split; [done|]. split; [intros history; apply perform_all_counts|].
  intros history u g. cbv zeta.
  destruct (perform_all_counts history empty_store Hempty u g) as [Hw Hl].
  split; [done|]. split; [done|]. rewrite Hw, Hl. apply plays_of_total.
Qed.

(** * Waiting for the next labour *)

Section Waiting.

Variable bot : Bot.

(** The labour cooldown reports the exact wait.  Reading the status changes
    nothing; a ready status reports no wait; otherwise the reported wait is
    positive, labour becomes available exactly when it has passed and not
    before, a [work] call in the meantime is refused with that same wait and
    changes nothing, and the wait is at most the hour of the cooldown unless
    the last labour is stamped in the future. *)
Theorem labour_wait_is_exact s now amount u g :
  let r := result (get_labour_cooldown_status now u g) s in
  after (get_labour_cooldown_status now u g) s = s
  /\ (fst r = true -> snd r = 0)
  /\ (fst r = false ->
      0 < snd r
      /\ (forall t,
            fst (result (get_labour_cooldown_status t u g) s) = true
            <-> now + snd r <= t)
      /\ work bot now amount u g s = ((false, 0, snd r), s)
      /\ (forall last,
            work_cooldown (account_or_new s u g) = Some last -> last <= now ->
            snd r <= seconds 3600)).
Proof.
  cbv zeta. unfold result, after, work, bind.
  rewrite get_labour_cooldown_status_run. cbv zeta. simpl.
  split; [done|]. split; [by intros ->|].
  intros Hwait. rewrite Hwait. simpl.
  unfold labour_ready in Hwait.
  destruct (work_cooldown (account_or_new s u g)) as [last|] eqn:Hlast;
    [|done].
  apply Z.leb_gt in Hwait. simpl.
  split; [lia|]. split.
  { intros t. rewrite get_labour_cooldown_status_run. simpl.
    unfold labour_ready. rewrite Hlast. rewrite Z.leb_le. lia. }
  split; [done|].
  intros last' [= <-] Hpast. lia.
Qed.

End Waiting.

(** * Rendering a wait *)

Section Rendering.

Lemma floor_bounds (x : Q) (d : Z) :
  0 < d ->
  (inject_Z (d * Qfloor (x / inject_Z d)) <= x
   /\ x < inject_Z (d * Qfloor (x / inject_Z d) + d))%Q.
Proof.
  intros Hd.
  pose proof (Qfloor_le (x / inject_Z d)) as H1.
  pose proof (Qlt_floor (x / inject_Z d)) as H2.
  assert (Hdq : (0 < inject_Z d)%Q).
  { change 0%Q with (inject_Z 0). by rewrite <- Zlt_Qlt. }
  assert (Hx : (x == (x / inject_Z d) * inject_Z d)%Q).
  { field. intros E. rewrite E in Hdq. by apply Qlt_irrefl in Hdq. }
  rewrite !inject_Z_plus, !inject_Z_mult in *.
  set (q := (x / inject_Z d)%Q) in *.
  set (f := inject_Z (Qfloor q)) in *.
  clearbody f. clearbody q. split.
  - rewrite Hx, (Qmult_comm q). by apply Qmult_le_l.
  - assert (E : (inject_Z d * f + inject_Z d
                 == inject_Z d * (f + inject_Z 1))%Q) by ring.
    rewrite E, Hx, (Qmult_comm q). by apply Qmult_lt_l.
Qed.

Lemma format_time_remaining_parts secs :
  (0 <= secs)%Q ->
  let h := Qfloor (secs / 3600) in
  let m := Qfloor (float_mod secs 3600 / 60) in
  0 <= h /\ 0 <= m < 60
  /\ (inject_Z (3600 * h + 60 * m) <= secs)%Q
  /\ (secs < inject_Z (3600 * h + 60 * m + 60))%Q.
Proof.
  intros Hs. cbv zeta.
  change (secs / 3600)%Q with (secs / inject_Z 3600)%Q.
  change (float_mod secs 3600 / 60)%Q
    with (float_mod secs 3600 / inject_Z 60)%Q.
  destruct (floor_bounds secs 3600 ltac:(lia)) as [Hh1 Hh2].
  assert (Hr : (float_mod secs 3600
                == secs - inject_Z (3600 * Qfloor (secs / inject_Z 3600)))%Q).
  { unfold float_mod. rewrite inject_Z_mult. reflexivity. }
  set (h := Qfloor (secs / inject_Z 3600)) in *.
  set (r := float_mod secs 3600) in *.
  destruct (floor_bounds r 60 ltac:(lia)) as [Hm1 Hm2].
  set (m := Qfloor (r / inject_Z 60)) in *.
  clearbody m r h.
  rewrite inject_Z_mult in Hh1, Hm1, Hr.
  rewrite inject_Z_plus, inject_Z_mult in Hh2, Hm2.
  change (inject_Z 3600) with 3600%Q in *.
  change (inject_Z 60) with 60%Q in *.
  assert (Hh0 : 0 <= h).
  { assert (-1 < h) as H; [|lia]. rewrite Zlt_Qlt.
    change (inject_Z (-1)) with (-1)%Q. lra. }
  assert (Hm0 : 0 <= m < 60).
  { assert (-1 < m < 60) as H; [|lia]. split; rewrite Zlt_Qlt.
    - change (inject_Z (-1)) with (-1)%Q. lra.
    - change (inject_Z 60) with 60%Q. lra. }
  split; [done|]. split; [done|].
  rewrite !inject_Z_plus, !inject_Z_mult.
  change (inject_Z 3600) with 3600%Q. change (inject_Z 60) with 60%Q.
  split; lra.
Qed.

(** [format_time_remaining] cuts a wait down to whole minutes.  For a wait
    that is not negative the hours and minutes it prints are whole numbers
    with 0 <= minutes < 60; together they never overstate the wait and fall
    short of it by less than a minute; the hours are left out exactly when
    the wait is under an hour; and a wait under a minute reads as
    "0 minutes". *)
Theorem format_time_remaining_cuts_to_minutes secs :
  (0 <= secs)%Q ->
  let t := format_time_remaining secs in
  0 <= text_hours t /\ 0 <= text_minutes t < 60
  /\ (inject_Z (3600 * text_hours t + 60 * text_minutes t) <= secs)%Q
  /\ (secs < inject_Z (3600 * text_hours t + 60 * text_minutes t + 60))%Q
  /\ ((secs < 3600)%Q <->
      t = MinutesOnly (text_minutes t) (negb (text_minutes t =? 1)))
  /\ ((secs < 60)%Q -> t = MinutesOnly 0 true).
Proof.
  intros Hs. cbv zeta.
  destruct (format_time_remaining_parts secs Hs) as (Hh & Hm & Hlo & Hhi).
  cbv zeta in Hh, Hm, Hlo, Hhi.
  unfold format_time_remaining.
  set (h := Qfloor (secs / 3600)) in *.
  set (m := Qfloor (float_mod secs 3600 / 60)) in *.
  clearbody h m.
  rewrite inject_Z_plus, !inject_Z_mult in Hlo.
  rewrite !inject_Z_plus, !inject_Z_mult in Hhi.
  change (inject_Z 3600) with 3600%Q in *.
  change (inject_Z 60) with 60%Q in *.
  assert (Hh1 : (secs < 3600)%Q -> h = 0).
  { intros Hlt. assert (h < 1) as H; [|lia]. rewrite Zlt_Qlt.
    change (inject_Z 1) with 1%Q.
    assert (0 <= inject_Z m)%Q
      by (change 0%Q with (inject_Z 0); rewrite <- Zle_Qle; lia).
    lra. }
  assert (Hm1 : (secs < 60)%Q -> m = 0).
  { intros Hlt. assert (m < 1) as H; [|lia]. rewrite Zlt_Qlt.
    change (inject_Z 1) with 1%Q.
    assert (0 <= inject_Z h)%Q
      by (change 0%Q with (inject_Z 0); rewrite <- Zle_Qle; lia).
    lra. }
  assert (Hh2 : 0 < h -> (3600 <= secs)%Q).
  { intros Hpos.
    assert (1 <= inject_Z h)%Q
      by (change 1%Q with (inject_Z 1); rewrite <- Zle_Qle; lia).
    assert (0 <= inject_Z m)%Q
      by (change 0%Q with (inject_Z 0); rewrite <- Zle_Qle; lia).
    lra. }
  destruct (Z.ltb_spec 0 h) as [Hpos|Hzero]; simpl.
  - split; [done|]. split; [done|].
    rewrite !inject_Z_plus, !inject_Z_mult.
    change (inject_Z 3600) with 3600%Q. change (inject_Z 60) with 60%Q.
    split; [done|]. split; [done|]. split.
    + split; [|done]. intros Hlt. specialize (Hh2 Hpos). lra.
    + intros Hlt. specialize (Hh2 Hpos). lra.
  - assert (h = 0) as -> by lia. split; [done|]. split; [done|].
    rewrite !inject_Z_plus, !inject_Z_mult.
    change (inject_Z 3600) with 3600%Q. change (inject_Z 60) with 60%Q.
    change (inject_Z 0) with 0%Q in *.
    split; [lra|]. split; [lra|]. split.
    + split; [done|]. intros _.
      assert (inject_Z m <= 59)%Q
        by (change 59%Q with (inject_Z 59); rewrite <- Zle_Qle; lia).
      lra.
    + intros Hlt. by rewrite (Hm1 Hlt).
Qed.

End Rendering.

(** One hour, two minutes and five seconds read "1 hour and 2 minutes"; the
    last 45 seconds of a labour cooldown read "0 minutes". *)
Lemma format_time_remaining_cuts_to_minutes_witness :
  format_time_remaining 3725 = HoursAndMinutes 1 false 2 true
  /\ labour_status_msg (seconds 45) = MinutesOnly 0 true.
Proof.
  assert (H1 : (0 <= 3725)%Q) by by vm_compute.
  assert (H2 : (0 <= inject_Z (seconds 45) / inject_Z usec_per_second)%Q)
    by by vm_compute.
  destruct (format_time_remaining_cuts_to_minutes 3725 H1) as (_ & _).
  destruct (format_time_remaining_cuts_to_minutes _ H2)
    as (_ & _ & _ & _ & _ & Hm).
  split; [by vm_compute|]. apply Hm. by vm_compute.
Defined.

(** * The monthly bounty: who is granted it *)

Section Bounty.

Variable bot : Bot.

Lemma bounty_ready_sync s now u g :
  bounty_ready now (account_or_new (sync_admin bot u g s) u g)
  = bounty_ready now (account_or_new s u g).
Proof.
  pose proof (view_sync bot s u g u g) as H. unfold bounty_ready.
  change (admin_monthly_claimed (account_or_new (sync_admin bot u g s) u g))
    with (admin_monthly_claimed
            (with_is_admin false (account_or_new (sync_admin bot u g s) u g))).
  by rewrite H.
Qed.

Lemma stored_gold_sync s u g :
  match user_economy (sync_admin bot u g s) !! (u, g) with
  | Some r => gold r
  | None => 0
  end
  = match user_economy s !! (u, g) with
    | Some r => gold r
    | None => 0
    end.
Proof.
  unfold sync_admin. destruct (is_admin _); [done|].
  destruct (discord_administrator bot u g); [|done].
  simpl. rewrite lookup_alter_eq.
  by destruct (user_economy s !! (u, g)).
Qed.

Lemma claim_admin_monthly_bonus_run s now u g :
  claim_admin_monthly_bonus bot now u g s =
  let s1 := sync_admin bot u g s in
  if negb (privileged bot s u g) then ((false, 0, BountyNotAdmin), s1) else
  if negb (bounty_ready now (account_or_new s u g))
  then ((false, 0, BountyAlreadyClaimed), s1) else
  match get_guild bot g with
  | None => ((false, 0, BountyGuildNotFound), s1)
  | Some guild =>
      if discord_administrator bot u g then
        ((true, ADMIN_MONTHLY_BONUS, BountyGranted),
         add_admin_claim (bounty_claim now u g)
           (add_transaction
              (bounty_tx now u g
                 (match user_economy s !! (u, g) with
                  | Some r => gold r
                  | None => 0
                  end + ADMIN_MONTHLY_BONUS))
              (set_user_economy
                 (alter (with_admin_bonus ADMIN_MONTHLY_BONUS now) (u, g))
                 s1)))
      else ((false, 0, BountyNoPermission), s1)
  end.
Proof.
  unfold claim_admin_monthly_bonus, bind. rewrite is_user_admin_run. cbv zeta.
  destruct (privileged bot s u g); simpl; [|done].
  rewrite can_claim_admin_monthly_run, bounty_ready_sync.
  destruct (bounty_ready now (account_or_new s u g)); simpl; [|done].
  unfold discord_administrator.
  destruct (get_guild bot g) as [guild|]; [|done].
  destruct (get_member guild u) as [member|]; [|done].
  destruct (administrator member); simpl; [|done].
  unfold query, execute, ret, bounty_tx, bounty_claim. simpl.
  by rewrite stored_gold_sync.
Qed.


End Bounty.

(** * Tournament host roles: granting and revoking *)

Section Hosts.

Lemma has_giveaway_permission_iff member guild_id h :
  has_giveaway_permission member guild_id h = true <->
  exists role, role ∈ load_giveaway_roles_from_db guild_id h
               /\ role ∈ roles member.
Proof.
  unfold has_giveaway_permission.
  destruct (load_giveaway_roles_from_db guild_id h) as [|r l] eqn:E.
  - split; [done|]. intros (role & Hin & _). by apply elem_of_nil in Hin.
  - rewrite existsb_exists. split.
    + intros (role & Hin & Hm). exists role.
      apply list_elem_of_In in Hin. by apply bool_decide_eq_true in Hm.
    + intros (role & Hin & Hm). exists role. split.
      * by apply list_elem_of_In.
      * by apply bool_decide_eq_true.
Qed.

Lemma setagrole_cmd_state guild_id guild role h :
  let current := default [] (GIVEAWAY_ROLES h !! guild_id) in
  let updated :=
    if bool_decide (role ∈ current) then current else current ++ [role] in
  snd (setagrole_cmd guild_id guild role h)
  = {| GIVEAWAY_ROLES := <[guild_id := updated]> (GIVEAWAY_ROLES h);
       saved_giveaway_roles := <[guild_id := updated]> (saved_giveaway_roles h) |}.
Proof.
  cbv zeta. unfold setagrole_cmd.
  assert (Hsnd : forall (b : bool) (x y : SetRoleReply) (k : HostRoles),
            (if b then (x, k) else (y, k)).2 = k) by (by intros []).
  rewrite Hsnd. unfold save_giveaway_roles_to_db.
  destruct (GIVEAWAY_ROLES h !! guild_id) as [l|] eqn:E; simpl.
  - rewrite E; simpl. case_bool_decide; simpl.
    + rewrite E. simpl. by rewrite (insert_id _ _ _ E).
    + by rewrite lookup_insert_eq.
  - rewrite !lookup_insert_eq. simpl.
    rewrite ?(bool_decide_false (role ∈ [])) by apply not_elem_of_nil.
    simpl. rewrite ?lookup_insert_eq. simpl. by rewrite insert_insert_eq.
Qed.


Lemma elem_of_remove_first x y l :
  y ∈ remove_first x l -> y ∈ l.
Proof.
  induction l as [|z l IH]; simpl; [done|].
  case_bool_decide; [by right|].
  intros Hin. apply elem_of_cons in Hin as [->|Hin]; [by left|].
  right. by apply IH.
Qed.

Lemma remove_first_NoDup x l :
  NoDup l -> (x ∉ remove_first x l) /\ NoDup (remove_first x l).
Proof.
  induction l as [|z l IH]; intros Hnd; simpl.
  - split; [apply not_elem_of_nil|constructor].
  - apply NoDup_cons in Hnd as [Hz Hnd]. case_bool_decide as E.
    + subst z. by split.
    + destruct (IH Hnd) as [Hx Hnd']. split.
      * intros Hin. apply elem_of_cons in Hin as [->|Hin]; [done|]. by apply Hx.
      * apply NoDup_cons. split; [|done].
        intros Hin. by apply Hz, (elem_of_remove_first x).
Qed.

Lemma remove_first_app_last x l : x ∉ l -> remove_first x (l ++ [x]) = l.
Proof.
  induction l as [|z l IH]; simpl; intros Hx.
  - by rewrite bool_decide_true.
  - apply not_elem_of_cons in Hx as [Hne Hx].
    rewrite bool_decide_false by done. by rewrite IH.
Qed.

Lemma load_all_saved_config_lookup h guild_id :
  GIVEAWAY_ROLES (load_all_saved_config h) !! guild_id
  = match saved_giveaway_roles h !! guild_id with
    | Some role_ids => Some role_ids
    | None => GIVEAWAY_ROLES h !! guild_id
    end.
Proof.
  unfold load_all_saved_config; simpl.
  apply (map_fold_weak_ind
    (fun table (saved : gmap Z (list Z)) =>
       table !! guild_id
       = match saved !! guild_id with
         | Some role_ids => Some role_ids
         | None => GIVEAWAY_ROLES h !! guild_id
         end)).
  - by rewrite lookup_empty.
  - intros i x m r Hi IH. rewrite !lookup_insert.
    case_decide; [done|exact IH].
Qed.


End Hosts.
